(** * FanPico: the main control loop of [src/fanpico.c]

    A shallow embedding of [clear_state], [update_outputs], [setup],
    [core1_main] and the scheduler loop of [main], with the results about
    change gates, the command console, output-update batching and the
    watchdog.

    Conventions of the embedding.
    - C [float]/[double] values are rationals ([Q]), which are the finite
      values: the comparisons of the change gates and [roundf] are taken on
      the real value of the sample.  The two sampling loops of [main] are
      written once more over values that can be infinite or not a number
      ([Module IEEE]), for the results that depend on such samples.
    - [absolute_time_t] is a number of microseconds ([Z]), and [delta] the
      difference of two readings; the difference as the [int64_t] holds it
      is [absolute_time_diff_us], the same for readings below 2^63.
    - Calls that act on the outside are recorded, in program order, in a
      trace of [event]s.  Calls that only read (the clock, the sensors, the
      console queue) take their answer from an environment record and leave
      no event.
    - The function [core1_main] runs on the second core and shares no
      variable of [main]; it has a model of its own ([Module Core1]). *)

From Stdlib Require Import ZArith QArith Qabs Qround Lia.
From Stdlib.Strings Require Import Byte.
From stdpp Require Import base list strings.

Open Scope Z_scope.

(* ===================================================================== *)
(** * Numeric helpers                                                     *)
(* ===================================================================== *)

Module Numeric.

(** Modelled from the spec: [check_for_change] is declared in [fanpico.h]
    and defined outside [fanpico.c].  Spec 4.2:
    [changed(prev, new, threshold) = |new - prev| >= threshold], inclusive
    at the boundary. *)
Definition check_for_change (oldval newval threshold : Q) : bool :=
  Qle_bool threshold (Qabs (newval - oldval)).

(** C99 [roundf]: the nearest integer, halfway cases away from zero. *)
Definition roundf (x : Q) : Q :=
  inject_Z (if Qle_bool 0 x then Qfloor (x + 0.5)%Q else - Qfloor (0.5 - x)%Q).

(** A value with no fractional part. *)
Definition integer_valued (x : Q) : Prop := exists z : Z, x = inject_Z z.

(** Modelled from the spec: [time_passed] is declared in [fanpico.h] and
    defined outside [fanpico.c].  Spec 4.1: a task whose
    elapsed-since-last-fire is at least its interval fires, and its
    last-fire timestamp is reset to the current time.  The first component
    is the C return value, the second the new content of [*t]; [t_now] is
    the clock reading the call takes. *)
Definition time_passed (t : Z) (ms : Z) (t_now : Z) : bool * Z :=
  if ms * 1000 <=? t_now - t then (true, t_now) else (false, t).

End Numeric.
Export Numeric.

(* ===================================================================== *)
(** * Build configuration, state and trace                               *)
(* ===================================================================== *)

(** The compile-time constants of [fanpico.h] that [fanpico.c] uses.  The
    header is not part of the sources at hand, so they are parameters.  The
    arrays of [struct fanpico_state] have the [*_MAX_COUNT] lengths. *)
Class Board := {
  FAN_COUNT : nat;
  MBFAN_COUNT : nat;
  SENSOR_COUNT : nat;
  FAN_MAX_COUNT : nat;
  MBFAN_MAX_COUNT : nat;
  SENSOR_MAX_COUNT : nat;
  LED_PIN : Z;
  SENSOR1_READ_PIN : Z;
  SENSOR2_READ_PIN : Z;
  TTL_SERIAL : bool;
  LIB_PICO_CYW43_ARCH : bool;
  WATCHDOG_REBOOT_DELAY : Z
}.

(** Modelled from the spec: [WATCHDOG_ENABLED] is a macro of [fanpico.h].
    Spec 4.5 describes a firmware whose watchdog is armed at boot, that is
    a build with the macro set; the two [#if WATCHDOG_ENABLED] blocks of
    [main] are kept as conditionals on this constant. *)
Definition WATCHDOG_ENABLED : bool := true.

(** [struct fanpico_state], the fields [fanpico.c] reads and writes. *)
Record fanpico_state := mk_state {
  mbfan_duty : list Q;
  mbfan_freq : list Q;
  fan_duty : list Q;
  fan_freq : list Q;
  temp : list Q
}.

(** [struct fanpico_config], the fields [fanpico.c] reads through [cfg]. *)
Record fanpico_config := mk_config {
  led_mode : Z;
  local_echo : bool
}.

(** [a[i]] as an rvalue.  The loops of [fanpico.c] index the arrays below
    their [*_COUNT]; on a board whose [*_COUNT] is within the [*_MAX_COUNT]
    length no access is out of range.  Elsewhere a read gives 0 and a write
    is dropped. *)
Definition elem (a : list Q) (i : nat) : Q := nth i a 0%Q.

Definition set_mbfan_duty (i : nat) (v : Q) (s : fanpico_state) : fanpico_state :=
  mk_state (<[i:=v]> (mbfan_duty s)) (mbfan_freq s) (fan_duty s) (fan_freq s) (temp s).

Definition set_mbfan_freq (i : nat) (v : Q) (s : fanpico_state) : fanpico_state :=
  mk_state (mbfan_duty s) (<[i:=v]> (mbfan_freq s)) (fan_duty s) (fan_freq s) (temp s).

Definition set_fan_duty (i : nat) (v : Q) (s : fanpico_state) : fanpico_state :=
  mk_state (mbfan_duty s) (mbfan_freq s) (<[i:=v]> (fan_duty s)) (fan_freq s) (temp s).

Definition set_fan_freq (i : nat) (v : Q) (s : fanpico_state) : fanpico_state :=
  mk_state (mbfan_duty s) (mbfan_freq s) (fan_duty s) (<[i:=v]> (fan_freq s)) (temp s).

Definition set_temp (i : nat) (v : Q) (s : fanpico_state) : fanpico_state :=
  mk_state (mbfan_duty s) (mbfan_freq s) (fan_duty s) (fan_freq s) (<[i:=v]> (temp s)).

Inductive log_level := LOG_DEBUG | LOG_INFO | LOG_NOTICE.

(** What the code does to the outside, in program order.  [call f] is a
    call of [f] whose arguments play no role here; a message carries its
    format string as the source has it; [store_input_buf] is an assignment
    to [input_buf[idx]], kept in the trace to follow the index used. *)
Inductive event :=
| call (f : string)
| log_msg (level : log_level) (fmt : string)
| printf (fmt : string) (arg : option byte)
| sleep_ms (ms : Z)
| gpio_put (pin : Z) (value : Z)
| cyw43_arch_gpio_put (value : Z)
| adc_gpio_init (pin : Z)
| watchdog_enable (delay : Z) (pause_on_debug : Z)
| set_pwm_duty_cycle (i : nat) (duty : Q)
| set_tacho_output_freq (i : nat) (freq : Q)
| display_status (s : fanpico_state)
| process_command (s : fanpico_state) (line : list byte)
| store_input_buf (idx : nat) (c : byte).

(** [for (i = first; i < first + n; i++) body], threading the state and
    appending what each round does. *)
Fixpoint for_loop {St : Type} (body : nat -> St -> St * list event)
    (first n : nat) (s : St) : St * list event :=
  match n with
  | O => (s, [])
  | S n' =>
      let '(s1, tr1) := body first s in
      let '(s2, tr2) := for_loop body (S first) n' s1 in
      (s2, tr1 ++ tr2)
  end.

(* ===================================================================== *)
(** * [clear_state] and [update_outputs]                                  *)
(* ===================================================================== *)

Section Outputs.
Context `{Board}.

(** The fan-curve evaluation of the rest of the firmware:
    [calculate_pwm_duty] and [calculate_tacho_freq] are called with the
    state as it is at that point of the loop. *)
Variable calculate_pwm_duty : fanpico_state -> fanpico_config -> nat -> Q.
Variable calculate_tacho_freq : fanpico_state -> fanpico_config -> nat -> Q.

Definition clear_state (s : fanpico_state) : fanpico_state :=
  let s := fst (for_loop (fun i s => (set_mbfan_freq i 0 (set_mbfan_duty i 0 s), []))
                         0 MBFAN_MAX_COUNT s) in
  let s := fst (for_loop (fun i s => (set_fan_freq i 0 (set_fan_duty i 0 s), []))
                         0 FAN_MAX_COUNT s) in
  fst (for_loop (fun i s => (set_temp i 0 s, [])) 0 SENSOR_MAX_COUNT s).

(** One round of the loop "update fan PWM signals". *)
Definition update_fan_pwm (config : fanpico_config) (i : nat)
    (state : fanpico_state) : fanpico_state * list event :=
  let new := calculate_pwm_duty state config i in
  if check_for_change (elem (fan_duty state) i) new 0.1 then
    (set_fan_duty i new state,
     [log_msg LOG_INFO "fan%d: Set output PWM %.1f%% --> %.1f%%";
      set_pwm_duty_cycle i new])
  else (state, []).

(** One round of the loop "update mb tacho signals". *)
Definition update_mb_tacho (config : fanpico_config) (i : nat)
    (state : fanpico_state) : fanpico_state * list event :=
  let new := calculate_tacho_freq state config i in
  if check_for_change (elem (mbfan_freq state) i) new 0.1 then
    (set_mbfan_freq i new state,
     [log_msg LOG_INFO "mbfan%d: Set output Tacho %.2fHz --> %.2fHz";
      set_tacho_output_freq i new])
  else (state, []).

(** [update_outputs]; its trace opens with the invocation itself. *)
Definition update_outputs (state : fanpico_state) (config : fanpico_config)
    : fanpico_state * list event :=
  let '(s1, tr1) := for_loop (update_fan_pwm config) 0 FAN_COUNT state in
  let '(s2, tr2) := for_loop (update_mb_tacho config) 0 MBFAN_COUNT s1 in
  (s2, call "update_outputs" :: tr1 ++ tr2).

End Outputs.

(* ===================================================================== *)
(** * The command console of [main]                                      *)
(* ===================================================================== *)

Module Console.

(** [sizeof(input_buf)] for [char input_buf[1024]]. *)
Definition sizeof_input_buf : nat := 1024.

(** The two locals of [main] the console works on.  [i_ptr] is an [int]
    that stays between 0 and 1024, a [nat] here. *)
Record console := mk_console {
  input_buf : list byte;
  i_ptr : nat
}.

(** The string a callee reads at [input_buf]: the bytes before the first
    NUL.  Where the array holds no NUL the string is the whole array (the
    read then runs on to the byte after it). *)
Fixpoint c_string (mem : list byte) : list byte :=
  match mem with
  | [] => []
  | b :: mem' => if (b =? x00)%byte then [] else b :: c_string mem'
  end.

Definition echo (cfg : fanpico_config) (e : event) : list event :=
  if local_echo cfg then [e] else [].

(** One round of the [while] loop, for the byte [c] that
    [getchar_timeout_us(0)] returned.  With the cursor at 1024 the
    terminator goes to [input_buf[1024]], one byte past the array: the
    array is then unchanged (the update is out of range) and the store is
    recorded in the trace like any other.  In C the behaviour from that
    store on is undefined; the model goes on as if the stray byte disturbed
    nothing that the console reads. *)
Definition console_char (st : fanpico_state) (cfg : fanpico_config)
    (c : byte) (con : console) : console * list event :=
  if ((c =? xff) || (c =? x00))%byte then (con, [])
  else if ((c =? x7f) || (c =? x08))%byte then
    (mk_console (input_buf con)
                (if (0 <? i_ptr con)%nat then (i_ptr con - 1)%nat else i_ptr con),
     echo cfg (printf "\b \b" None))
  else if ((c =? x0a)%byte || (c =? x0d)%byte
           || (sizeof_input_buf <=? i_ptr con)%nat) then
    let buf := <[i_ptr con := x00]> (input_buf con) in
    let tr := echo cfg (printf "\r\n" None) ++ [store_input_buf (i_ptr con) x00] in
    if (0 <? i_ptr con)%nat then
      (mk_console buf 0%nat, tr ++ [process_command st (c_string buf)])
    else (mk_console buf (i_ptr con), tr)
  else
    (mk_console (<[i_ptr con := c]> (input_buf con)) (S (i_ptr con)),
     store_input_buf (i_ptr con) c :: echo cfg (printf "%c" (Some c))).

(** The whole [while] loop: it takes the bytes that are queued and ends
    when [getchar_timeout_us(0)] returns [PICO_ERROR_TIMEOUT]. *)
Fixpoint console_pump (st : fanpico_state) (cfg : fanpico_config)
    (queued : list byte) (con : console) : console * list event :=
  match queued with
  | [] => (con, [])
  | c :: rest =>
      let '(con1, tr1) := console_char st cfg c con in
      let '(con2, tr2) := console_pump st cfg rest con1 in
      (con2, tr1 ++ tr2)
  end.

(** The lines handed to [process_command], in order. *)
Fixpoint dispatched (tr : list event) : list (list byte) :=
  match tr with
  | [] => []
  | process_command _ line :: tr' => line :: dispatched tr'
  | _ :: tr' => dispatched tr'
  end.

(** The indices at which the NUL terminator was stored, in order. *)
Fixpoint nul_stores (tr : list event) : list nat :=
  match tr with
  | [] => []
  | store_input_buf idx c :: tr' =>
      if (c =? x00)%byte then idx :: nul_stores tr' else nul_stores tr'
  | _ :: tr' => nul_stores tr'
  end.

(** The indices at which a typed character was stored, in order. *)
Fixpoint char_stores (tr : list event) : list nat :=
  match tr with
  | [] => []
  | store_input_buf idx c :: tr' =>
      if (c =? x00)%byte then char_stores tr' else idx :: char_stores tr'
  | _ :: tr' => char_stores tr'
  end.

(** The characters typed so far on the current line. *)
Definition buffered (con : console) : list byte :=
  take (i_ptr con) (input_buf con).

(** What holds of the console between two bytes: the array has its 1024
    bytes, the cursor is at most 1024, no NUL is among the buffered
    characters. *)
Definition well_formed (con : console) : Prop :=
  length (input_buf con) = sizeof_input_buf
  /\ (i_ptr con <= sizeof_input_buf)%nat
  /\ Forall (fun b => b <> x00) (buffered con).

(** A byte that is neither a sentinel (0xff, 0x00), nor a backspace (0x7f,
    0x08), nor a line terminator (LF, CR). *)
Definition plain (c : byte) : bool :=
  negb ((c =? xff) || (c =? x00) || (c =? x7f) || (c =? x08)
        || (c =? x0a) || (c =? x0d))%byte.

(** An empty console buffer: the cursor at 0 over the 1024 bytes of the
    array, whatever they hold ([input_buf] is not initialised). *)
Definition empty_buffer (con : console) : Prop :=
  i_ptr con = 0%nat /\ length (input_buf con) = sizeof_input_buf.

End Console.
Export Console.

(* ===================================================================== *)
(** * [setup] and the scheduler loop of [main]                           *)
(* ===================================================================== *)

(** The locals of [main] that live across iterations, with the global
    [system_state] that [st] points to. *)
Record main_locals := mk_locals {
  st : fanpico_state;
  t_poll_pwm : Z;
  t_poll_tacho : Z;
  t_led : Z;
  t_temp : Z;
  t_set_outputs : Z;
  t_network : Z;
  t_last : Z;
  t_display : Z;
  led_state : Z;
  max_delta : Z;
  change : Z;
  con : console
}.

(** What the outside answers during boot. *)
Record boot_env := mk_boot_env {
  get_debug_level : Z;
  stdio_usb_connected : nat -> bool;      (* the answer to the k-th poll *)
  watchdog_enable_caused_reboot : bool;
  boot_clock : Z;                         (* get_absolute_time() before the loop *)
  stack_bytes : list byte                 (* what input_buf happens to hold *)
}.

(** What the outside answers during one iteration of the loop. *)
Record env := mk_env {
  clock_loop : Z;            (* get_absolute_time() at the top of the loop *)
  clock_network : Z;         (* the clock as each time_passed call reads it *)
  clock_led : Z;
  clock_display : Z;
  clock_pwm : Z;
  clock_temp : Z;
  clock_tacho : Z;
  clock_outputs : Z;
  mbfan_pwm_duty : list Q;   (* the global array after get_pwm_duty_cycles() *)
  get_temperature : nat -> Q;
  tacho_samples : list Q;    (* the frequencies of the capture worker *)
  queued : list byte         (* the bytes getchar_timeout_us(0) has to give *)
}.

(** Modelled from the spec: [update_tacho_input_freq] is defined outside
    [fanpico.c].  Spec 4.3: the capture worker writes frequency samples and
    the scheduler reads them in its frequency-computation task; it is the
    input-frequency field of the state that takes them, one fan after the
    other. *)
Definition update_tacho_input_freq `{Board} (samples : list Q)
    (s : fanpico_state) : fanpico_state :=
  fst (for_loop (fun i s => (set_fan_freq i (elem samples i) s, []))
                0 FAN_COUNT s).

Section Main.
Context `{Board}.
Variable calculate_pwm_duty : fanpico_state -> fanpico_config -> nat -> Q.
Variable calculate_tacho_freq : fanpico_state -> fanpico_config -> nat -> Q.

(** The configuration [cfg] points to; [read_config] loads it in [setup]
    and the loop only reads it. *)
Variable cfg : fanpico_config.

(** The static [system_state]: arrays of the [*_MAX_COUNT] lengths, zero
    as every object of static storage. *)
Definition system_state : fanpico_state :=
  mk_state (replicate MBFAN_MAX_COUNT 0%Q) (replicate MBFAN_MAX_COUNT 0%Q)
           (replicate FAN_MAX_COUNT 0%Q) (replicate FAN_MAX_COUNT 0%Q)
           (replicate SENSOR_MAX_COUNT 0%Q).

(** [while (i++ < 10) { if (stdio_usb_connected()) break; sleep_ms(250); }] *)
Fixpoint wait_usb (connected : nat -> bool) (i polls : nat) : list event :=
  match polls with
  | O => []
  | S polls' =>
      if connected i then []
      else sleep_ms 250 :: wait_usb connected (S i) polls'
  end.

(** [setup]: its trace, and the value it leaves in [rebooted_by_watchdog]. *)
Definition setup (b : boot_env) : bool * list event :=
  (watchdog_enable_caused_reboot b,
   [call "rtc_init"]
   ++ (if TTL_SERIAL then [call "stdio_uart_init_full"] else [])
   ++ [call "stdio_usb_init"]
   ++ wait_usb (stdio_usb_connected b) 0 10
   ++ [printf "\n\n\n" None]
   ++ (if watchdog_enable_caused_reboot b
       then [printf "[Rebooted by watchdog]\n\n" None] else [])
   ++ [call "cmd_version";
       printf "Hardware Model: FANPICO-%s\n" None;
       printf "         Board: %s\n" None;
       printf "           MCU: %s @ %0.0fMHz\n" None;
       printf " Serial Number: %s\n\n" None;
       call "read_config"; call "display_init"; call "network_init";
       log_msg LOG_NOTICE "Initialize ADC...";
       call "adc_init"; call "adc_set_temp_sensor_enabled"]
   ++ (if 0 <? SENSOR1_READ_PIN then [adc_gpio_init SENSOR1_READ_PIN] else [])
   ++ (if 0 <? SENSOR2_READ_PIN then [adc_gpio_init SENSOR2_READ_PIN] else [])
   ++ [log_msg LOG_NOTICE "Initialize GPIO..."]
   ++ (if 0 <? LED_PIN
       then [call "gpio_init"; call "gpio_set_dir"; gpio_put LED_PIN 0] else [])
   ++ (if LIB_PICO_CYW43_ARCH then [cyw43_arch_gpio_put 0] else [])
   ++ [call "setup_pwm_outputs"; call "setup_pwm_inputs"]
   ++ snd (for_loop (fun i (u : unit) => (u, [set_pwm_duty_cycle i 0])) 0 FAN_COUNT tt)
   ++ [call "setup_tacho_outputs"; call "setup_tacho_inputs";
       log_msg LOG_NOTICE "System initialization complete."]).

(** [main] up to the [while (1)]. *)
Definition boot (b : boot_env) : main_locals * list event :=
  let mallinfo := if 2 <=? get_debug_level b then [call "print_mallinfo"] else [] in
  let t_last := boot_clock b in
  (mk_locals (clear_state system_state) 0 0 0 0 0 0 t_last t_last 0 0 0
             (mk_console (resize sizeof_input_buf x00 (stack_bytes b)) 0%nat),
   [call "set_binary_info"] ++ mallinfo ++ snd (setup b) ++ mallinfo
   ++ [call "multicore_launch_core1"]
   ++ (if WATCHDOG_ENABLED then [watchdog_enable WATCHDOG_REBOOT_DELAY 1] else [])).

(** What the three sampling rounds work on: the state, the timer
    [t_set_outputs] and the counter [change]. *)
Definition sampling : Type := fanpico_state * Z * Z.

(** One round of the loop under "Read PWM input signals (duty cycle)
    periodically". *)
Definition read_pwm_input (e : env) (i : nat) (x : sampling)
    : sampling * list event :=
  let '(st, t_set_outputs, change) := x in
  let new_duty := roundf (elem (mbfan_pwm_duty e) i) in
  if check_for_change (elem (mbfan_duty st) i) new_duty 0.5 then
    ((set_mbfan_duty i new_duty st, 0, change + 1),
     [log_msg LOG_INFO "mbfan%d: duty cycle change %.1f --> %.1f"])
  else (x, []).

(** One round of the loop under "Read temperature sensors periodically". *)
Definition read_temperature (e : env) (i : nat) (x : sampling)
    : sampling * list event :=
  let '(st, t_set_outputs, change) := x in
  let temp_i := get_temperature e i in
  if check_for_change (elem (temp st) i) temp_i 0.5 then
    ((set_temp i temp_i st, t_set_outputs, change + 1),
     [log_msg LOG_INFO "sensor%d: Temperature change %.1fC --> %.1fC"])
  else (x, []).

(** The state of the LED after the toggle task. *)
Definition next_led_state (led_state : Z) : Z :=
  if led_mode cfg =? 0 then (if 0 <? led_state then 0 else 1)
  else if led_mode cfg =? 1 then 1
  else 0.

(** One pass through the body of [while (1)]. *)
Definition iteration (e : env) (m : main_locals) : main_locals * list event :=
  let change := 0 in
  let t_now := clock_loop e in
  let delta := t_now - t_last m in
  let t_last := t_now in
  let '(max_delta, tr_delta) :=
    if max_delta m <? delta
    then (delta, [log_msg LOG_DEBUG "core0: max_loop_time=%lld"])
    else (max_delta m, []) in
  (* network *)
  let '(due_network, t_network) := time_passed (t_network m) 1 (clock_network e) in
  let tr_network := if due_network then [call "network_poll"] else [] in
  (* LED *)
  let '(due_led, t_led) := time_passed (t_led m) 1000 (clock_led e) in
  let led_state := if due_led then next_led_state (led_state m) else led_state m in
  let tr_led :=
    if due_led
    then (if 0 <? LED_PIN then [gpio_put LED_PIN led_state] else [])
         ++ (if LIB_PICO_CYW43_ARCH then [cyw43_arch_gpio_put led_state] else [])
    else [] in
  (* display *)
  let '(due_display, t_display) := time_passed (t_display m) 2000 (clock_display e) in
  let tr_display :=
    if due_display
    then [log_msg LOG_DEBUG "Update display"; display_status (st m)]
    else [] in
  (* PWM inputs *)
  let '(due_pwm, t_poll_pwm) := time_passed (t_poll_pwm m) 1500 (clock_pwm e) in
  let '(x1, tr_pwm) :=
    if due_pwm
    then let '(x, tr) := for_loop (read_pwm_input e) 0 MBFAN_COUNT
                                  (st m, t_set_outputs m, change) in
         (x, log_msg LOG_DEBUG "Read PWM inputs" :: call "get_pwm_duty_cycles" :: tr)
    else ((st m, t_set_outputs m, change), []) in
  (* temperatures *)
  let '(due_temp, t_temp) := time_passed (t_temp m) 10000 (clock_temp e) in
  let '(x2, tr_temp) :=
    if due_temp
    then let '(x, tr) := for_loop (read_temperature e) 0 SENSOR_COUNT x1 in
         (x, log_msg LOG_DEBUG "Read temperature sensors" :: tr)
    else (x1, []) in
  let '(st2, t_set_outputs2, change) := x2 in
  (* tacho inputs *)
  let '(due_tacho, t_poll_tacho) := time_passed (t_poll_tacho m) 2000 (clock_tacho e) in
  let '(st3, tr_tacho) :=
    if due_tacho
    then (update_tacho_input_freq (tacho_samples e) st2,
          [log_msg LOG_DEBUG "Updating tacho input signals.";
           call "update_tacho_input_freq"])
    else (st2, []) in
  (* outputs: change || time_passed(&t_set_outputs, 3000) *)
  let '(run_outputs, t_set_outputs) :=
    if negb (change =? 0) then (true, t_set_outputs2)
    else time_passed t_set_outputs2 3000 (clock_outputs e) in
  let '(st4, tr_outputs) :=
    if run_outputs
    then let '(s, tr) := update_outputs calculate_pwm_duty calculate_tacho_freq st3 cfg in
         (s, log_msg LOG_DEBUG "Updating output signals." :: tr)
    else (st3, []) in
  (* console *)
  let '(con, tr_console) := console_pump st4 cfg (queued e) (con m) in
  (* watchdog *)
  let tr_watchdog := if WATCHDOG_ENABLED then [call "watchdog_update"] else [] in
  (mk_locals st4 t_poll_pwm t_poll_tacho t_led t_temp t_set_outputs t_network
             t_last t_display led_state max_delta change con,
   tr_delta ++ tr_network ++ tr_led ++ tr_display ++ tr_pwm ++ tr_temp
   ++ tr_tacho ++ tr_outputs ++ tr_console ++ tr_watchdog).

(** The first iterations of [while (1)], one per environment. *)
Fixpoint scheduler (es : list env) (m : main_locals) : main_locals * list event :=
  match es with
  | [] => (m, [])
  | e :: es' =>
      let '(m1, tr1) := iteration e m in
      let '(m2, tr2) := scheduler es' m1 in
      (m2, tr1 ++ tr2)
  end.

(** [main], run for as many iterations as there are environments. *)
Definition main (b : boot_env) (es : list env) : main_locals * list event :=
  let '(m0, tr0) := boot b in
  let '(m, tr) := scheduler es m0 in
  (m, tr0 ++ tr).

End Main.

(* ===================================================================== *)
(** * The declared schedule                                              *)
(* ===================================================================== *)

(** The scheduler as the specification words it (4.1 and the design
    notes): an ordered list of tasks, each with its trigger, evaluated one
    after the other once per tick.  [Schedule.tick] is compared with
    [iteration], which follows the text of [main]. *)
Module Schedule.

Inductive task :=
| network_poll
| led_toggle
| display_refresh
| duty_sampling
| temperature_sampling
| frequency_computation
| output_update
| console_pump_task
| watchdog_refresh.

(** The last-fire timestamps, by the names they have in [main]. *)
Inductive timer :=
| T_network
| T_led
| T_display
| T_poll_pwm
| T_temp
| T_poll_tacho
| T_set_outputs.

(** When a task fires: once its interval has elapsed since the last fire;
    or when the dirty flag is set, the interval being a fallback; or in
    every iteration. *)
Inductive trigger :=
| every (ms : Z) (t : timer)
| dirty_or_every (ms : Z) (t : timer)
| always.

Definition declared_schedule : list (task * trigger) :=
  [(network_poll, every 1 T_network);
   (led_toggle, every 1000 T_led);
   (display_refresh, every 2000 T_display);
   (duty_sampling, every 1500 T_poll_pwm);
   (temperature_sampling, every 10000 T_temp);
   (frequency_computation, every 2000 T_poll_tacho);
   (output_update, dirty_or_every 3000 T_set_outputs);
   (console_pump_task, always);
   (watchdog_refresh, always)].

Definition last_fire (t : timer) (m : main_locals) : Z :=
  match t with
  | T_network => t_network m
  | T_led => t_led m
  | T_display => t_display m
  | T_poll_pwm => t_poll_pwm m
  | T_temp => t_temp m
  | T_poll_tacho => t_poll_tacho m
  | T_set_outputs => t_set_outputs m
  end.

Definition set_last_fire (t : timer) (v : Z) (m : main_locals) : main_locals :=
  match t with
  | T_network =>
      mk_locals (st m) (t_poll_pwm m) (t_poll_tacho m) (t_led m) (t_temp m)
        (t_set_outputs m) v (t_last m) (t_display m) (led_state m)
        (max_delta m) (change m) (con m)
  | T_led =>
      mk_locals (st m) (t_poll_pwm m) (t_poll_tacho m) v (t_temp m)
        (t_set_outputs m) (t_network m) (t_last m) (t_display m) (led_state m)
        (max_delta m) (change m) (con m)
  | T_display =>
      mk_locals (st m) (t_poll_pwm m) (t_poll_tacho m) (t_led m) (t_temp m)
        (t_set_outputs m) (t_network m) (t_last m) v (led_state m)
        (max_delta m) (change m) (con m)
  | T_poll_pwm =>
      mk_locals (st m) v (t_poll_tacho m) (t_led m) (t_temp m)
        (t_set_outputs m) (t_network m) (t_last m) (t_display m) (led_state m)
        (max_delta m) (change m) (con m)
  | T_temp =>
      mk_locals (st m) (t_poll_pwm m) (t_poll_tacho m) (t_led m) v
        (t_set_outputs m) (t_network m) (t_last m) (t_display m) (led_state m)
        (max_delta m) (change m) (con m)
  | T_poll_tacho =>
      mk_locals (st m) (t_poll_pwm m) v (t_led m) (t_temp m)
        (t_set_outputs m) (t_network m) (t_last m) (t_display m) (led_state m)
        (max_delta m) (change m) (con m)
  | T_set_outputs =>
      mk_locals (st m) (t_poll_pwm m) (t_poll_tacho m) (t_led m) (t_temp m)
        v (t_network m) (t_last m) (t_display m) (led_state m)
        (max_delta m) (change m) (con m)
  end.

(** The clock reading the elapsed-time test on a timer takes. *)
Definition now (t : timer) (e : env) : Z :=
  match t with
  | T_network => clock_network e
  | T_led => clock_led e
  | T_display => clock_display e
  | T_poll_pwm => clock_pwm e
  | T_temp => clock_temp e
  | T_poll_tacho => clock_tacho e
  | T_set_outputs => clock_outputs e
  end.

Definition with_state (s : fanpico_state) (m : main_locals) : main_locals :=
  mk_locals s (t_poll_pwm m) (t_poll_tacho m) (t_led m) (t_temp m)
    (t_set_outputs m) (t_network m) (t_last m) (t_display m) (led_state m)
    (max_delta m) (change m) (con m).

Definition with_sampling (x : fanpico_state * Z * Z) (m : main_locals) : main_locals :=
  mk_locals (fst (fst x)) (t_poll_pwm m) (t_poll_tacho m) (t_led m) (t_temp m)
    (snd (fst x)) (t_network m) (t_last m) (t_display m) (led_state m)
    (max_delta m) (snd x) (con m).

Section Tick.
Context `{Board}.
Variable calculate_pwm_duty : fanpico_state -> fanpico_config -> nat -> Q.
Variable calculate_tacho_freq : fanpico_state -> fanpico_config -> nat -> Q.
Variable cfg : fanpico_config.

(** The task bodies, made of the same rounds and callees as [iteration]. *)
Definition body (t : task) (e : env) (m : main_locals) : main_locals * list event :=
  match t with
  | network_poll => (m, [call "network_poll"])
  | led_toggle =>
      let l := next_led_state cfg (led_state m) in
      (mk_locals (st m) (t_poll_pwm m) (t_poll_tacho m) (t_led m) (t_temp m)
         (t_set_outputs m) (t_network m) (t_last m) (t_display m) l
         (max_delta m) (change m) (con m),
       (if 0 <? LED_PIN then [gpio_put LED_PIN l] else [])
       ++ (if LIB_PICO_CYW43_ARCH then [cyw43_arch_gpio_put l] else []))
  | display_refresh =>
      (m, [log_msg LOG_DEBUG "Update display"; display_status (st m)])
  | duty_sampling =>
      let '(x, tr) := for_loop (read_pwm_input e) 0 MBFAN_COUNT
                               (st m, t_set_outputs m, change m) in
      (with_sampling x m,
       log_msg LOG_DEBUG "Read PWM inputs" :: call "get_pwm_duty_cycles" :: tr)
  | temperature_sampling =>
      let '(x, tr) := for_loop (read_temperature e) 0 SENSOR_COUNT
                               (st m, t_set_outputs m, change m) in
      (with_sampling x m, log_msg LOG_DEBUG "Read temperature sensors" :: tr)
  | frequency_computation =>
      (with_state (update_tacho_input_freq (tacho_samples e) (st m)) m,
       [log_msg LOG_DEBUG "Updating tacho input signals.";
        call "update_tacho_input_freq"])
  | output_update =>
      let '(s, tr) := update_outputs calculate_pwm_duty calculate_tacho_freq
                                     (st m) cfg in
      (with_state s m, log_msg LOG_DEBUG "Updating output signals." :: tr)
  | console_pump_task =>
      let '(c, tr) := console_pump (st m) cfg (queued e) (con m) in
      (mk_locals (st m) (t_poll_pwm m) (t_poll_tacho m) (t_led m) (t_temp m)
         (t_set_outputs m) (t_network m) (t_last m) (t_display m) (led_state m)
         (max_delta m) (change m) c, tr)
  | watchdog_refresh => (m, [call "watchdog_update"])
  end.

(** The elapsed-time test: the task fires when the time since its last
    fire has reached the interval, and its last fire is reset to now. *)
Definition when_elapsed (ms : Z) (t : timer) (k : task) (e : env)
    (m : main_locals) : main_locals * list event :=
  let '(due, last) := time_passed (last_fire t m) ms (now t e) in
  if due then body k e (set_last_fire t last m) else (m, []).

(** One entry of the schedule. *)
Definition run_task (e : env) (entry : task * trigger) (m : main_locals)
    : main_locals * list event :=
  match snd entry with
  | every ms t => when_elapsed ms t (fst entry) e m
  | dirty_or_every ms t =>
      if negb (change m =? 0) then body (fst entry) e m
      else when_elapsed ms t (fst entry) e m
  | always => body (fst entry) e m
  end.

(** The entries in order, each on the state the previous one left. *)
Fixpoint run_tasks (e : env) (entries : list (task * trigger))
    (m : main_locals) : main_locals * list event :=
  match entries with
  | [] => (m, [])
  | entry :: rest =>
      let '(m1, tr1) := run_task e entry m in
      let '(m2, tr2) := run_tasks e rest m1 in
      (m2, tr1 ++ tr2)
  end.

(** Start of a tick: clear the dirty flag and track the iteration latency. *)
Definition begin_tick (e : env) (m : main_locals) : main_locals * list event :=
  let delta := clock_loop e - t_last m in
  (mk_locals (st m) (t_poll_pwm m) (t_poll_tacho m) (t_led m) (t_temp m)
     (t_set_outputs m) (t_network m) (clock_loop e) (t_display m) (led_state m)
     (if max_delta m <? delta then delta else max_delta m) 0 (con m),
   if max_delta m <? delta
   then [log_msg LOG_DEBUG "core0: max_loop_time=%lld"] else []).

Definition tick (e : env) (m : main_locals) : main_locals * list event :=
  let '(m0, tr0) := begin_tick e m in
  let '(m1, tr1) := run_tasks e declared_schedule m0 in
  (m1, tr0 ++ tr1).

End Tick.
End Schedule.

(* ===================================================================== *)
(** * Observations                                                       *)
(* ===================================================================== *)

Definition is_call (f : string) (ev : event) : bool :=
  match ev with
  | call g => String.eqb f g
  | _ => false
  end.

Definition is_watchdog_enable (ev : event) : bool :=
  match ev with
  | watchdog_enable _ _ => true
  | _ => false
  end.

(** How many events of a trace satisfy [p]. *)
Fixpoint occurrences (p : event -> bool) (tr : list event) : nat :=
  match tr with
  | [] => O
  | ev :: tr' => ((if p ev then 1 else 0) + occurrences p tr')%nat
  end.

(** How many indices of [first .. first + n - 1] pass a gate. *)
Fixpoint count_passing (gate : nat -> bool) (first n : nat) : nat :=
  match n with
  | O => O
  | S n' => ((if gate first then 1 else 0) + count_passing gate (S first) n')%nat
  end.

(** The gate of the duty-cycle sampling task on channel [i], and of the
    temperature task on sensor [i], for the state at the start of the
    iteration. *)
Definition duty_gate (e : env) (s : fanpico_state) (i : nat) : bool :=
  check_for_change (elem (mbfan_duty s) i) (roundf (elem (mbfan_pwm_duty e) i)) 0.5.

Definition temp_gate (e : env) (s : fanpico_state) (i : nat) : bool :=
  check_for_change (elem (temp s) i) (get_temperature e i) 0.5.

(** The number of channels whose sample passes its change gate in the
    iteration that starts in [m] under [e]: the MB fan channels when the
    duty-cycle task is due, the sensors when the temperature task is. *)
Definition changed_channels `{Board} (e : env) (m : main_locals) : nat :=
  ((if fst (time_passed (t_poll_pwm m) 1500 (clock_pwm e))
    then count_passing (duty_gate e (st m)) 0 MBFAN_COUNT else 0)
   + (if fst (time_passed (t_temp m) 10000 (clock_temp e))
      then count_passing (temp_gate e (st m)) 0 SENSOR_COUNT else 0))%nat.

(** The state, the output timer and the change counter after the two
    sampling tasks of the iteration that starts in [m] under [e]. *)
Definition sampled `{Board} (e : env) (m : main_locals) : sampling :=
  let x1 :=
    if fst (time_passed (t_poll_pwm m) 1500 (clock_pwm e))
    then fst (for_loop (read_pwm_input e) 0 MBFAN_COUNT (st m, t_set_outputs m, 0))
    else (st m, t_set_outputs m, 0) in
  if fst (time_passed (t_temp m) 10000 (clock_temp e))
  then fst (for_loop (read_temperature e) 0 SENSOR_COUNT x1)
  else x1.

(** Whether that iteration runs the output update: [change] is not zero,
    or [time_passed(&t_set_outputs, 3000)]. *)
Definition runs_outputs `{Board} (e : env) (m : main_locals) : bool :=
  negb (snd (sampled e m) =? 0)
  || fst (time_passed (snd (fst (sampled e m))) 3000 (clock_outputs e)).

(** The state the output update of that iteration starts from. *)
Definition before_outputs `{Board} (e : env) (m : main_locals) : fanpico_state :=
  if fst (time_passed (t_poll_tacho m) 2000 (clock_tacho e))
  then update_tacho_input_freq (tacho_samples e) (fst (fst (sampled e m)))
  else fst (fst (sampled e m)).

(** The invocations of [update_outputs] in a trace. *)
Definition output_updates (tr : list event) : nat :=
  occurrences (is_call "update_outputs") tr.

(** The events of the periodic tasks and of the output drivers: anything
    but an invocation of [update_outputs], the arming of the watchdog, a
    dispatch to the command processor and a store into [input_buf]. *)
Definition quiet (ev : event) : bool :=
  match ev with
  | call f => negb (String.eqb "update_outputs" f)
  | watchdog_enable _ _ | process_command _ _ | store_input_buf _ _ => false
  | _ => true
  end.

(** The events of the console: echo, stores into [input_buf], dispatch. *)
Definition console_event (ev : event) : bool :=
  match ev with
  | printf _ _ | store_input_buf _ _ | process_command _ _ => true
  | _ => false
  end.

(** Between [s] and [s'] the array [mbfan_duty] was written by the
    duty-cycle sampling of [e] only: an element of [s'] is the element of
    [s] or the rounded raw sample of its channel. *)
Definition duty_written (e : env) (s s' : fanpico_state) : Prop :=
  forall (i : nat) (v : Q),
    mbfan_duty s' !! i = Some v ->
    mbfan_duty s !! i = Some v \/ v = roundf (elem (mbfan_pwm_duty e) i).

(* ===================================================================== *)
(** * Concrete boards and inputs                                         *)
(* ===================================================================== *)

Module Examples.

(** A board with eight fans, four MB fan channels and three sensors. *)
Definition board_0804 : Board := {|
  FAN_COUNT := 8; MBFAN_COUNT := 4; SENSOR_COUNT := 3;
  FAN_MAX_COUNT := 8; MBFAN_MAX_COUNT := 4; SENSOR_MAX_COUNT := 3;
  LED_PIN := 25; SENSOR1_READ_PIN := 27; SENSOR2_READ_PIN := 28;
  TTL_SERIAL := false; LIB_PICO_CYW43_ARCH := false;
  WATCHDOG_REBOOT_DELAY := 15000
|}.

Definition cfg0 : fanpico_config := mk_config 0 false.

(** All outputs computed as zero, but 0.25 Hz for the first MB fan. *)
Definition pwm_zero (s : fanpico_state) (c : fanpico_config) (i : nat) : Q := 0%Q.

Definition tacho_quarter (s : fanpico_state) (c : fanpico_config) (i : nat) : Q :=
  match i with O => 0.25%Q | _ => 0%Q end.

Definition zero_state : fanpico_state := @system_state board_0804.

(** Boot with USB connected at the third poll, the stack holding zeros. *)
Definition boot0 : boot_env :=
  mk_boot_env 0 (fun k => (2 <=? k)%nat) false 1000 [].

(** An iteration 20 s after boot: two MB fan channels now read 40 % and
    55.4 %, the first sensor reads 31.5 C, nothing is typed. *)
Definition env_three_changes : env :=
  mk_env 20000000 20000001 20000002 20000003 20000004 20000005 20000006
         20000007 [40%Q; 55.4%Q; 0%Q; 0%Q]
         (fun i => match i with O => 31.5%Q | _ => 0%Q end)
         [] [].

(** An empty console buffer over an array of zeros. *)
Definition con0 : console := mk_console (replicate sizeof_input_buf x00) 0.

(** The bytes f a n DEL x CR. *)
Definition fan_bs_x_cr : list byte := [x66; x61; x6e; x7f; x78; x0d].

End Examples.

(* ===================================================================== *)
(** * The capture worker [core1_main]                                    *)
(* ===================================================================== *)

Module Core1.

(** The locals of [core1_main]. *)
Record locals := mk_locals {
  t_tick : Z;
  t_last : Z;
  max_delta : Z
}.

(** The clock as one pass of the loop reads it: [get_absolute_time()] at
    the top, and the reading inside [time_passed(&t_tick, 60000)]. *)
Record env := mk_env {
  clock_loop : Z;
  clock_tick : Z
}.

(** [core1_main] up to the [while (1)]; [t0] is the clock at
    [t_tick = t_last = get_absolute_time()]. *)
Definition start (t0 : Z) : locals * list event :=
  (mk_locals t0 t0 0,
   [log_msg LOG_INFO "core1: started..."; call "multicore_lockout_victim_init"]).

(** One pass through the body of [while (1)]. *)
Definition iteration (e : env) (m : locals) : locals * list event :=
  let t_now := clock_loop e in
  let delta := t_now - t_last m in
  let t_last := t_now in
  let '(max_delta, tr_delta) :=
    if max_delta m <? delta
    then (delta, [log_msg LOG_DEBUG "core1: max_loop_time=%lld"])
    else (max_delta m, []) in
  let '(due, t_tick) := time_passed (t_tick m) 60000 (clock_tick e) in
  (mk_locals t_tick t_last max_delta,
   tr_delta ++ [call "read_tacho_inputs"]
   ++ (if due then [log_msg LOG_DEBUG "core1: tick"] else [])).

(** The first passes of [while (1)], one per environment. *)
Fixpoint loop (es : list env) (m : locals) : locals * list event :=
  match es with
  | [] => (m, [])
  | e :: es' =>
      let '(m1, tr1) := iteration e m in
      let '(m2, tr2) := loop es' m1 in
      (m2, tr1 ++ tr2)
  end.

(** [core1_main], run for as many passes as there are environments. *)
Definition core1_main (t0 : Z) (es : list env) : locals * list event :=
  let '(m0, tr0) := start t0 in
  let '(m, tr) := loop es m0 in
  (m, tr0 ++ tr).

End Core1.

(* ===================================================================== *)
(** * Further observations                                               *)
(* ===================================================================== *)

Definition is_printf (ev : event) : bool :=
  match ev with
  | printf _ _ => true
  | _ => false
  end.

(** The milliseconds slept in a trace. *)
Fixpoint total_sleep (tr : list event) : Z :=
  match tr with
  | [] => 0
  | sleep_ms ms :: tr' => ms + total_sleep tr'
  | _ :: tr' => total_sleep tr'
  end.

(** What the PWM driver and the tacho driver were given, in order. *)
Fixpoint pwm_settings (tr : list event) : list (nat * Q) :=
  match tr with
  | [] => []
  | set_pwm_duty_cycle i v :: tr' => (i, v) :: pwm_settings tr'
  | _ :: tr' => pwm_settings tr'
  end.

Fixpoint tacho_settings (tr : list event) : list (nat * Q) :=
  match tr with
  | [] => []
  | set_tacho_output_freq i v :: tr' => (i, v) :: tacho_settings tr'
  | _ :: tr' => tacho_settings tr'
  end.

(** The events of the periodic tasks before the output update: messages,
    the LED, the display and the three pollers. *)
Definition periodic_event (ev : event) : bool :=
  match ev with
  | log_msg _ _ | gpio_put _ _ | cyw43_arch_gpio_put _ | display_status _ => true
  | call f =>
      String.eqb f "network_poll" || String.eqb f "get_pwm_duty_cycles"
      || String.eqb f "update_tacho_input_freq"
  | _ => false
  end.

(** Everything the body of the scheduler loop can do to the outside: the
    events of the periodic tasks, of the output update and its two drivers,
    of the console, and the watchdog refresh. *)
Definition loop_event (ev : event) : bool :=
  periodic_event ev || console_event ev
  || match ev with
     | set_pwm_duty_cycle _ _ | set_tacho_output_freq _ _ => true
     | call f => String.eqb f "update_outputs" || String.eqb f "watchdog_update"
     | _ => false
     end.

Definition is_sentinel (c : byte) : bool := ((c =? xff) || (c =? x00))%byte.

Definition is_backspace (c : byte) : bool := ((c =? x7f) || (c =? x08))%byte.

(** What the fan curves read: the sampled inputs, which [update_outputs]
    does not write. *)
Definition same_inputs (s s' : fanpico_state) : Prop :=
  mbfan_duty s = mbfan_duty s' /\ fan_freq s = fan_freq s' /\ temp s = temp s'.

(** The loop latencies for the clock readings [clocks] taken after [t0]. *)
Fixpoint latencies (t0 : Z) (clocks : list Z) : list Z :=
  match clocks with
  | [] => []
  | t :: clocks' => (t - t0) :: latencies t clocks'
  end.

(** [absolute_time_diff_us(from, to)] of the SDK gives the difference of
    two 64-bit microsecond counts as an [int64_t]: the difference modulo
    2^64, taken into -2^63 .. 2^63 - 1. *)
Definition int64_wrap (z : Z) : Z := (z + 2 ^ 63) mod 2 ^ 64 - 2 ^ 63.

Definition absolute_time_diff_us (from to : Z) : Z := int64_wrap (to - from).

(** The [delta] of each pass of a loop as the [int64_t] holds it, for the
    clock readings [clocks] taken after [t0]. *)
Fixpoint deltas (t0 : Z) (clocks : list Z) : list Z :=
  match clocks with
  | [] => []
  | t :: clocks' => absolute_time_diff_us t0 t :: deltas t clocks'
  end.

(** A clock reading of the first 2^63 microseconds after power-up.  Between
    two such readings the 64-bit difference does not wrap, and [delta] is
    the difference of the readings, as [iteration] computes it. *)
Definition early_clock (t : Z) : Prop := 0 <= t < 2 ^ 63.

(** The output timer at the end of an iteration: whatever sampling left
    when [change] is set, else what [time_passed] made of it. *)
Definition output_timer_after `{Board} (e : env) (m : main_locals) : Z :=
  if negb (snd (sampled e m) =? 0) then snd (fst (sampled e m))
  else snd (time_passed (snd (fst (sampled e m))) 3000 (clock_outputs e)).

(* ===================================================================== *)
(** * The sampling loops over IEEE values                                *)
(* ===================================================================== *)

(** The samples and the state fields are C [float]s.  The rationals of
    the model above are the finite ones; here the two sampling loops of
    [main] are written once more over values that can also be infinite or
    not a number, to see what they do with such a sample. *)
Module IEEE.

Inductive float :=
| finite (q : Q)
| pos_inf
| neg_inf
| NaN.

Definition is_nan (a : float) : bool :=
  match a with NaN => true | _ => false end.

Definition is_finite (a : float) : bool :=
  match a with finite _ => true | _ => false end.

(** [a - b]. *)
Definition sub (a b : float) : float :=
  match a, b with
  | NaN, _ | _, NaN => NaN
  | finite x, finite y => finite (x - y)
  | finite _, pos_inf => neg_inf
  | finite _, neg_inf => pos_inf
  | pos_inf, pos_inf => NaN
  | pos_inf, _ => pos_inf
  | neg_inf, neg_inf => NaN
  | neg_inf, _ => neg_inf
  end.

(** [fabsf]. *)
Definition abs (a : float) : float :=
  match a with
  | finite x => finite (Qabs x)
  | neg_inf => pos_inf
  | _ => a
  end.

(** [a >= b]: false as soon as one side is not a number. *)
Definition ge (a b : float) : bool :=
  match a, b with
  | NaN, _ | _, NaN => false
  | finite x, finite y => Qle_bool y x
  | pos_inf, _ => true
  | _, neg_inf => true
  | _, _ => false
  end.

(** C99 [roundf]: an infinity and a NaN are returned as they are. *)
Definition roundf (a : float) : float :=
  match a with
  | finite x => finite (Numeric.roundf x)
  | _ => a
  end.

(** Modelled from the spec: [check_for_change] is defined outside
    [fanpico.c].  Spec 4.2: [changed(prev, new, threshold) =
    |new - prev| >= threshold], here with the subtraction, the absolute
    value and the comparison of IEEE values. *)
Definition check_for_change (oldval newval : float) (threshold : Q) : bool :=
  ge (abs (sub newval oldval)) (finite threshold).

Definition elem (a : list float) (i : nat) : float := nth i a (finite 0).

(** A whole number; a whole number or an infinity. *)
Definition integer_valued (a : float) : Prop :=
  exists z : Z, a = finite (inject_Z z).

Definition integer_or_infinite (a : float) : Prop :=
  integer_valued a \/ a = pos_inf \/ a = neg_inf.

(** What the two loops work on: the array they write, the timer
    [t_set_outputs] and the counter [change]. *)
Definition sampling : Type := list float * Z * Z.

Section Loops.
Context `{Board}.

(** One round of the loop under "Read PWM input signals (duty cycle)
    periodically", on the array [mbfan_duty]; [mbfan_pwm_duty] is the
    global array after [get_pwm_duty_cycles()]. *)
Definition read_pwm_input (mbfan_pwm_duty : list float) (i : nat) (x : sampling)
    : sampling * list event :=
  let '(mbfan_duty, t_set_outputs, change) := x in
  let new_duty := roundf (elem mbfan_pwm_duty i) in
  if check_for_change (elem mbfan_duty i) new_duty 0.5 then
    ((<[i := new_duty]> mbfan_duty, 0, change + 1),
     [log_msg LOG_INFO "mbfan%d: duty cycle change %.1f --> %.1f"])
  else (x, []).

(** One round of the loop under "Read temperature sensors periodically",
    on the array [temp]. *)
Definition read_temperature (get_temperature : nat -> float) (i : nat)
    (x : sampling) : sampling * list event :=
  let '(temp, t_set_outputs, change) := x in
  let temp_i := get_temperature i in
  if check_for_change (elem temp i) temp_i 0.5 then
    ((<[i := temp_i]> temp, t_set_outputs, change + 1),
     [log_msg LOG_INFO "sensor%d: Temperature change %.1fC --> %.1fC"])
  else (x, []).

(** The array [mbfan_duty] after the duty-cycle task, and the array [temp]
    after the temperature task. *)
Definition duty_task (mbfan_pwm_duty : list float) (mbfan_duty : list float)
    : list float :=
  fst (fst (fst (for_loop (read_pwm_input mbfan_pwm_duty) 0 MBFAN_COUNT
                          (mbfan_duty, 0, 0)))).

Definition temperature_task (get_temperature : nat -> float) (temp : list float)
    : list float :=
  fst (fst (fst (for_loop (read_temperature get_temperature) 0 SENSOR_COUNT
                          (temp, 0, 0)))).

(** The array [mbfan_duty] over a run: one entry of [rounds] for each
    iteration whose duty-cycle task is due, holding the samples of that
    iteration.  Nothing else in [fanpico.c] writes the array once
    [clear_state] has zeroed it. *)
Fixpoint duty_rounds (rounds : list (list float)) (mbfan_duty : list float)
    : list float :=
  match rounds with
  | [] => mbfan_duty
  | samples :: rounds' => duty_rounds rounds' (duty_task samples mbfan_duty)
  end.

End Loops.
End IEEE.

(** The samples of the iterations of a run whose duty-cycle task is due,
    in order. *)
Fixpoint due_duty_samples `{Board}
    (calculate_pwm_duty calculate_tacho_freq : fanpico_state -> fanpico_config -> nat -> Q)
    (cfg : fanpico_config) (es : list env) (m : main_locals) : list (list Q) :=
  match es with
  | [] => []
  | e :: es' =>
      (if fst (time_passed (t_poll_pwm m) 1500 (clock_pwm e))
       then [mbfan_pwm_duty e] else [])
      ++ due_duty_samples calculate_pwm_duty calculate_tacho_freq cfg es'
           (fst (iteration calculate_pwm_duty calculate_tacho_freq cfg e m))
  end.

Module MoreExamples.

(** A state of the board [board_0804] with something in every array. *)
Definition busy_state : fanpico_state :=
  mk_state [40%Q; 55%Q; 0%Q; 100%Q] [12.5%Q; 0%Q; 33%Q; 1%Q]
           [10%Q; 20%Q; 30%Q; 40%Q; 50%Q; 60%Q; 70%Q; 80%Q]
           [1%Q; 2%Q; 3%Q; 4%Q; 5%Q; 6%Q; 7%Q; 8%Q]
           [21.5%Q; 30%Q; 45.25%Q].

(** Fan curves that read inputs only: each fan follows the first MB fan
    duty cycle, each MB fan tacho reports the first fan's frequency. *)
Definition pwm_follow (s : fanpico_state) (c : fanpico_config) (i : nat) : Q :=
  elem (mbfan_duty s) 0.

Definition tacho_follow (s : fanpico_state) (c : fanpico_config) (i : nat) : Q :=
  elem (fan_freq s) 0.

(** Boot at 100 us, and an iteration before the first millisecond is over:
    no task is due, nothing is typed. *)
Definition boot_early : boot_env :=
  mk_boot_env 0 (fun _ => true) false 100 [].

Definition env_idle : env :=
  mk_env 200 201 202 203 204 205 206 207 [] (fun _ => 0%Q) [] [].

(** The next iteration, a hundred microseconds later and faster than the
    one before. *)
Definition env_idle_next : env :=
  mk_env 250 251 252 253 254 255 256 257 [] (fun _ => 0%Q) [] [].

(** Two passes of the capture worker after a start at 100 us. *)
Definition core1_passes : list Core1.env :=
  [Core1.mk_env 200 201; Core1.mk_env 250 251].

(** Samples of the four MB fan channels with an infinity and a NaN among
    them, and sensor readings likewise. *)
Definition samples_odd : list IEEE.float :=
  [IEEE.finite 55.4; IEEE.pos_inf; IEEE.NaN; IEEE.finite 0].

Definition readings_odd (i : nat) : IEEE.float :=
  match i with
  | O => IEEE.finite 31.5
  | 1%nat => IEEE.NaN
  | _ => IEEE.neg_inf
  end.

Definition duty_some : list IEEE.float :=
  [IEEE.finite 40; IEEE.finite 40; IEEE.finite 40; IEEE.pos_inf].

Definition temp_some : list IEEE.float :=
  [IEEE.finite 31.25; IEEE.finite 20; IEEE.finite 20].

(** The line "fan" and three backspaces. *)
Definition line_fan : list byte := [x66; x61; x6e].

End MoreExamples.

(* ===================================================================== *)
(** * Results: the change gates                                          *)
(* ===================================================================== *)

Section GateFacts.

Lemma gate_below (oldval newval threshold : Q) :
  (Qabs (newval - oldval) < threshold)%Q ->
  check_for_change oldval newval threshold = false.
Proof.
  intros Hlt. unfold check_for_change.
  destruct (Qle_bool threshold (Qabs (newval - oldval))) eqn:E; [|reflexivity].
  apply Qle_bool_iff in E. exfalso. exact (Qlt_not_le _ _ Hlt E).
Qed.

Lemma gate_reached (oldval newval threshold : Q) :
  (threshold <= Qabs (newval - oldval))%Q ->
  check_for_change oldval newval threshold = true.
Proof. intros Hle. unfold check_for_change. now apply Qle_bool_iff. Qed.

Lemma for_loop_idle {St : Type} (body : nat -> St -> St * list event) (s : St) :
  forall n first,
    (forall i, (first <= i < first + n)%nat -> body i s = (s, [])) ->
    for_loop body first n s = (s, []).
Proof.
  induction n as [|n IH]; intros first Hidle; cbn [for_loop]; [reflexivity|].
  rewrite Hidle by lia. rewrite IH; [reflexivity|].
  intros i Hi. apply Hidle. lia.
Qed.

(** The gate is inclusive at the boundary, and [roundf] rounds halfway
    cases away from zero. *)
Example check_for_change_boundary :
  check_for_change 20 20.5 0.5 = true /\ check_for_change 20 20.4 0.5 = false
  /\ check_for_change 20.5 20 0.5 = true.
Proof. repeat split. Qed.

Example roundf_halfway :
  roundf 2.5 = 3%Q /\ roundf (-2.5) = (-3)%Q /\ roundf 55.4 = 55%Q
  /\ roundf (-0.4) = 0%Q.
Proof. repeat split. Qed.

End GateFacts.

Section OutputGates.
Context `{Board}.
Variable calculate_pwm_duty : fanpico_state -> fanpico_config -> nat -> Q.
Variable calculate_tacho_freq : fanpico_state -> fanpico_config -> nat -> Q.

(** When every computed output is within 0.1 of the value in the state,
    [update_outputs] leaves the state as it is and calls no output driver. *)
Lemma update_outputs_idle (state : fanpico_state) (config : fanpico_config) :
  (forall i, (i < FAN_COUNT)%nat ->
     (Qabs (calculate_pwm_duty state config i - elem (fan_duty state) i) < 0.1)%Q) ->
  (forall i, (i < MBFAN_COUNT)%nat ->
     (Qabs (calculate_tacho_freq state config i - elem (mbfan_freq state) i) < 0.1)%Q) ->
  update_outputs calculate_pwm_duty calculate_tacho_freq state config
  = (state, [call "update_outputs"]).
Proof.
  intros Hfan Hmb. unfold update_outputs.
  rewrite for_loop_idle.
  - rewrite for_loop_idle; [reflexivity|].
    intros i Hi. unfold update_mb_tacho. rewrite gate_below; [reflexivity|].
    apply Hmb. lia.
  - intros i Hi. unfold update_fan_pwm. rewrite gate_below; [reflexivity|].
    apply Hfan. lia.
Qed.

(** C1 (as amended): each change gate compares with its own fixed
    threshold.  The two output gates of [update_outputs] (fan PWM duty in
    percent, MB fan tacho frequency in Hz) use 0.1; the two input gates of
    the main loop (MB fan duty cycle after rounding, temperature in deg C)
    use 0.5.  A sample whose delta is below the threshold of its gate is
    ignored: the state field keeps its value, nothing is logged, no output
    driver is called and the change counter is not incremented.  A sample
    whose delta reaches the threshold is stored (and, for an output gate,
    the output is reprogrammed with it). *)
Theorem change_gate_thresholds (config : fanpico_config) (e : env) (i : nat)
    (s : fanpico_state) (t_out ch : Z) :
  let duty := calculate_pwm_duty s config i in
  let freq := calculate_tacho_freq s config i in
  let new_duty := roundf (elem (mbfan_pwm_duty e) i) in
  let temp_i := get_temperature e i in
  ((Qabs (duty - elem (fan_duty s) i) < 0.1)%Q ->
     update_fan_pwm calculate_pwm_duty config i s = (s, []))
  /\ ((0.1 <= Qabs (duty - elem (fan_duty s) i))%Q ->
     update_fan_pwm calculate_pwm_duty config i s
     = (set_fan_duty i duty s,
        [log_msg LOG_INFO "fan%d: Set output PWM %.1f%% --> %.1f%%";
         set_pwm_duty_cycle i duty]))
  /\ ((Qabs (freq - elem (mbfan_freq s) i) < 0.1)%Q ->
     update_mb_tacho calculate_tacho_freq config i s = (s, []))
  /\ ((0.1 <= Qabs (freq - elem (mbfan_freq s) i))%Q ->
     update_mb_tacho calculate_tacho_freq config i s
     = (set_mbfan_freq i freq s,
        [log_msg LOG_INFO "mbfan%d: Set output Tacho %.2fHz --> %.2fHz";
         set_tacho_output_freq i freq]))
  /\ ((Qabs (new_duty - elem (mbfan_duty s) i) < 0.5)%Q ->
     read_pwm_input e i (s, t_out, ch) = ((s, t_out, ch), []))
  /\ ((0.5 <= Qabs (new_duty - elem (mbfan_duty s) i))%Q ->
     read_pwm_input e i (s, t_out, ch)
     = ((set_mbfan_duty i new_duty s, 0, ch + 1),
        [log_msg LOG_INFO "mbfan%d: duty cycle change %.1f --> %.1f"]))
  /\ ((Qabs (temp_i - elem (temp s) i) < 0.5)%Q ->
     read_temperature e i (s, t_out, ch) = ((s, t_out, ch), []))
  /\ ((0.5 <= Qabs (temp_i - elem (temp s) i))%Q ->
     read_temperature e i (s, t_out, ch)
     = ((set_temp i temp_i s, t_out, ch + 1),
        [log_msg LOG_INFO "sensor%d: Temperature change %.1fC --> %.1fC"])).
Proof.
  cbv zeta.
  unfold update_fan_pwm, update_mb_tacho, read_pwm_input, read_temperature.
  repeat split; intros Hd;
    first [ rewrite (gate_below _ _ _ Hd) | rewrite (gate_reached _ _ _ Hd) ];
    reflexivity.
Qed.

End OutputGates.

(** C1, as stated, fails on the frequency gate: on the board [board_0804]
    with all outputs at zero, a computed tacho frequency of 0.25 Hz for the
    first MB fan is less than 0.5 Hz away from the stored 0 Hz, and yet
    [update_outputs] stores it and reprograms the tacho output. *)
Lemma frequency_gate_acts_below_half_hertz :
  let r := @update_outputs Examples.board_0804 Examples.pwm_zero
             Examples.tacho_quarter Examples.zero_state Examples.cfg0 in
  (Qabs (Examples.tacho_quarter Examples.zero_state Examples.cfg0 0
         - elem (mbfan_freq Examples.zero_state) 0) < 0.5)%Q
  /\ elem (mbfan_freq Examples.zero_state) 0 = 0%Q
  /\ elem (mbfan_freq (fst r)) 0 = 0.25%Q
  /\ In (set_tacho_output_freq 0 0.25) (snd r).
Proof.
  repeat split.
  vm_compute. right. right. left. reflexivity.
Qed.

(* ===================================================================== *)
(** * Results: the command console                                       *)
(* ===================================================================== *)

Section ConsoleFacts.
Variable st : fanpico_state.
Variable cfg : fanpico_config.

Lemma dispatched_app (tr1 tr2 : list event) :
  dispatched (tr1 ++ tr2) = dispatched tr1 ++ dispatched tr2.
Proof.
  induction tr1 as [|ev tr1 IH]; [reflexivity|].
  destruct ev; cbn; rewrite IH; reflexivity.
Qed.

Lemma nul_stores_app (tr1 tr2 : list event) :
  nul_stores (tr1 ++ tr2) = nul_stores tr1 ++ nul_stores tr2.
Proof.
  induction tr1 as [|ev tr1 IH]; [reflexivity|].
  destruct ev; cbn; rewrite IH; try reflexivity.
  destruct (c =? x00)%byte; reflexivity.
Qed.

Lemma char_stores_app (tr1 tr2 : list event) :
  char_stores (tr1 ++ tr2) = char_stores tr1 ++ char_stores tr2.
Proof.
  induction tr1 as [|ev tr1 IH]; [reflexivity|].
  destruct ev; cbn; rewrite IH; try reflexivity.
  destruct (c =? x00)%byte; reflexivity.
Qed.

Lemma echo_silent (ev : event) :
  (forall s l, ev <> process_command s l) ->
  (forall i c, ev <> store_input_buf i c) ->
  dispatched (echo cfg ev) = [] /\ nul_stores (echo cfg ev) = []
  /\ char_stores (echo cfg ev) = [].
Proof.
  intros Hp Hs. unfold echo. destruct (local_echo cfg); [|repeat split].
  destruct ev; try (repeat split; fail).
  - exfalso. eapply Hp. reflexivity.
  - exfalso. eapply Hs. reflexivity.
Qed.

Lemma eqb_x00_false (b : byte) : b <> x00 -> (b =? x00)%byte = false.
Proof.
  intros Hb. destruct (b =? x00)%byte eqn:E; [|reflexivity].
  apply byte_dec_bl in E. contradiction.
Qed.

Lemma c_string_no_nul (l : list byte) :
  Forall (fun b => b <> x00) l -> c_string l = l.
Proof.
  induction 1 as [|b l Hb _ IH]; [reflexivity|].
  cbn. rewrite (eqb_x00_false b Hb), IH. reflexivity.
Qed.

Lemma c_string_app_nul (pre post : list byte) :
  Forall (fun b => b <> x00) pre -> c_string (pre ++ x00 :: post) = pre.
Proof.
  induction 1 as [|b l Hb _ IH]; [reflexivity|].
  cbn. rewrite (eqb_x00_false b Hb), IH. reflexivity.
Qed.

(** The string the callee reads once the terminator is stored at the
    cursor is the buffered text, also when the cursor is at 1024 and the
    terminator misses the array. *)
Lemma c_string_terminated (con : console) :
  well_formed con ->
  c_string (<[i_ptr con := x00]> (input_buf con)) = buffered con.
Proof.
  intros (Hlen & Hle & Hnn). unfold buffered in *.
  destruct (decide (i_ptr con < length (input_buf con))%nat) as [Hlt|Hge].
  - rewrite insert_take_drop by exact Hlt. apply c_string_app_nul, Hnn.
  - rewrite list_insert_ge by lia. rewrite take_ge in * by lia.
    apply c_string_no_nul, Hnn.
Qed.

Lemma plain_inv (c : byte) :
  plain c = true ->
  ((c =? xff) || (c =? x00))%byte = false
  /\ ((c =? x7f) || (c =? x08))%byte = false
  /\ ((c =? x0a) || (c =? x0d))%byte = false
  /\ c <> x00.
Proof.
  unfold plain. intros Hp.
  destruct (c =? xff)%byte, (c =? x00)%byte eqn:E0, (c =? x7f)%byte,
    (c =? x08)%byte, (c =? x0a)%byte, (c =? x0d)%byte; try discriminate Hp.
  repeat split. intros ->. discriminate E0.
Qed.

(** A plain byte with room left is stored at the cursor, in bounds. *)
Lemma console_char_plain (c : byte) (con : console) :
  plain c = true ->
  length (input_buf con) = sizeof_input_buf ->
  (i_ptr con < sizeof_input_buf)%nat ->
  let r := console_char st cfg c con in
  buffered (fst r) = buffered con ++ [c]
  /\ i_ptr (fst r) = S (i_ptr con)
  /\ length (input_buf (fst r)) = sizeof_input_buf
  /\ dispatched (snd r) = []
  /\ nul_stores (snd r) = []
  /\ char_stores (snd r) = [i_ptr con].
Proof.
  intros Hp Hlen Hlt. destruct (plain_inv c Hp) as (E1 & E2 & E3 & Hc).
  cbv zeta. unfold console_char. rewrite E1, E2, E3. cbn [orb].
  destruct (Nat.leb_spec sizeof_input_buf (i_ptr con)) as [Hge|_]; [lia|].
  cbn [fst snd]. unfold buffered. cbn [input_buf i_ptr].
  destruct (echo_silent (printf "%c" (Some c))) as (Ed & En & Ec);
    [discriminate | discriminate |].
  repeat split.
  - rewrite (take_S_r _ _ c) by (apply list_lookup_insert_eq; lia).
    rewrite take_insert_ge by lia. reflexivity.
  - rewrite length_insert. exact Hlen.
  - cbn. exact Ed.
  - cbn. rewrite (eqb_x00_false c Hc). exact En.
  - cbn. rewrite (eqb_x00_false c Hc), Ec. reflexivity.
Qed.
End ConsoleFacts.

Section ConsolePump.
Variable st : fanpico_state.
Variable cfg : fanpico_config.

Lemma console_pump_app (a b : list byte) (con : console) :
  console_pump st cfg (a ++ b) con
  = let '(con1, tr1) := console_pump st cfg a con in
    let '(con2, tr2) := console_pump st cfg b con1 in
    (con2, tr1 ++ tr2).
Proof.
  revert con. induction a as [|c a IH]; intros con; cbn [console_pump app].
  - destruct (console_pump st cfg b con); reflexivity.
  - destruct (console_char st cfg c con) as [con1 tr1].
    rewrite IH.
    destruct (console_pump st cfg a con1) as [con2 tr2].
    destruct (console_pump st cfg b con2) as [con3 tr3].
    rewrite app_assoc. reflexivity.
Qed.

(** Plain bytes that fit are appended to the line; nothing is dispatched
    and every store is a character store at the cursor. *)
Lemma console_pump_plain (bytes : list byte) :
  forall con : console,
    forallb plain bytes = true ->
    length (input_buf con) = sizeof_input_buf ->
    (i_ptr con + length bytes <= sizeof_input_buf)%nat ->
    let r := console_pump st cfg bytes con in
    buffered (fst r) = buffered con ++ bytes
    /\ i_ptr (fst r) = (i_ptr con + length bytes)%nat
    /\ length (input_buf (fst r)) = sizeof_input_buf
    /\ dispatched (snd r) = []
    /\ nul_stores (snd r) = []
    /\ char_stores (snd r) = seq (i_ptr con) (length bytes).
Proof.
  induction bytes as [|c bytes IH]; intros con Hall Hlen Hroom; cbv zeta.
  - cbn. rewrite app_nil_r, Nat.add_0_r. repeat split. exact Hlen.
  - cbn [forallb] in Hall. apply andb_prop in Hall as [Hc Hall].
    cbn [length] in Hroom. cbn [console_pump].
    pose proof (console_char_plain st cfg c con Hc Hlen) as Hstep.
    cbv zeta in Hstep.
    destruct (console_char st cfg c con) as [con1 tr1]. cbn [fst snd] in Hstep.
    destruct Hstep as (Hb1 & Hi1 & Hl1 & Hd1 & Hn1 & Hc1); [lia|].
    specialize (IH con1 Hall Hl1). cbv zeta in IH.
    destruct (console_pump st cfg bytes con1) as [con2 tr2]. cbn [fst snd] in *.
    destruct IH as (Hb2 & Hi2 & Hl2 & Hd2 & Hn2 & Hc2); [lia|].
    rewrite dispatched_app, nul_stores_app, char_stores_app.
    rewrite Hb2, Hi2, Hb1, Hi1, Hd1, Hd2, Hn1, Hn2, Hc1, Hc2, <- app_assoc.
    rewrite ?Hi1. cbn [length seq app]. repeat split; first [lia | exact Hl2].
Qed.

Lemma forallb_plain_no_nul (bytes : list byte) :
  forallb plain bytes = true -> Forall (fun b => b <> x00) bytes.
Proof.
  induction bytes as [|c bytes IH]; cbn [forallb]; intros Hall; [constructor|].
  apply andb_prop in Hall as [Hc Hall]. constructor; [|exact (IH Hall)].
  apply plain_inv, Hc.
Qed.

End ConsolePump.

Section ConsoleClaims.
Variable st : fanpico_state.
Variable cfg : fanpico_config.

Lemma empty_buffer_well_formed (con : console) :
  empty_buffer con -> well_formed con.
Proof.
  intros [Hi Hlen]. unfold well_formed, buffered. rewrite Hi.
  repeat split; [exact Hlen | lia | constructor].
Qed.


End ConsoleClaims.


(** C8 at its failing input: 1025 letters a typed into the empty buffer
    make the console store the NUL terminator at index 1024 of the
    1024-byte array, while every character store stays below 1024. *)
Theorem terminator_stored_at_index_1024 :
  let tr := snd (console_pump Examples.zero_state Examples.cfg0
                   (replicate 1025 x61) Examples.con0) in
  nul_stores tr = [1024%nat]
  /\ length (input_buf Examples.con0) = 1024%nat
  /\ char_stores tr = seq 0 1024.
Proof.
  cbv zeta. split; [|split]; vm_compute; reflexivity.
Qed.

Section Backspace.
Variable st : fanpico_state.
Variable cfg : fanpico_config.

(** C3 (as amended): the bytes f, a, n, backspace, x, CR fed into an empty
    console buffer dispatch the line "fax" exactly once and leave the
    buffer empty, for either backspace code (0x7f, 0x08).  A backspace
    removes the last buffered character only: it moves the cursor back by
    one (staying at 0 on an empty line), stores nothing and dispatches
    nothing. *)
Theorem backspace_x_dispatches_fax (bs : byte) (con : console) :
  bs = x7f \/ bs = x08 ->
  empty_buffer con ->
  (let r := console_pump st cfg [x66; x61; x6e; bs; x78; x0d] con in
   dispatched (snd r) = [[x66; x61; x78]] /\ empty_buffer (fst r))
  /\ (forall con' : console,
        let r := console_char st cfg bs con' in
        i_ptr (fst r) = Nat.pred (i_ptr con')
        /\ input_buf (fst r) = input_buf con'
        /\ dispatched (snd r) = []).
Proof.
  intros Hbs [Hi Hlen]. split.
  - destruct con as [buf p]. cbn [i_ptr input_buf] in Hi, Hlen. subst p.
    destruct buf as [|b0 [|b1 [|b2 [|b3 rest]]]]; try discriminate Hlen.
    unfold empty_buffer.
    destruct cfg as [mode []], Hbs as [-> | ->]; cbn; repeat split;
      rewrite ?length_insert; exact Hlen.
  - intros [buf p]. cbv zeta. unfold console_char, echo.
    destruct Hbs as [-> | ->]; cbn [Byte.eqb orb fst snd i_ptr input_buf];
      destruct (local_echo cfg), p; repeat split; cbn; lia.
Qed.

End Backspace.

(** The theorem above for the code 0x7f over an array of zeros. *)
Lemma backspace_x_dispatches_fax_witness :
  (let r := console_pump Examples.zero_state Examples.cfg0
              Examples.fan_bs_x_cr Examples.con0 in
   dispatched (snd r) = [[x66; x61; x78]] /\ empty_buffer (fst r)).
Proof.
  apply (backspace_x_dispatches_fax Examples.zero_state Examples.cfg0 x7f
           Examples.con0).
  - left. reflexivity.
  - split; vm_compute; reflexivity.
Defined.

(** C3, as stated, fails: the line dispatched for f, a, n, backspace, x,
    CR is "fax", not "x". *)
Lemma backspace_x_does_not_dispatch_x :
  dispatched (snd (console_pump Examples.zero_state Examples.cfg0
                     Examples.fan_bs_x_cr Examples.con0))
  <> [[x78]].
Proof. vm_compute. discriminate. Qed.

Section ConsoleInvariant.
Variable cfg : fanpico_config.

(** Whatever the byte, the console stays well formed and a line it
    dispatches is the buffered text, which is not empty. *)
Lemma console_char_well_formed (st : fanpico_state) (c : byte) (con : console) :
  well_formed con ->
  well_formed (fst (console_char st cfg c con))
  /\ Forall (fun line => line <> []) (dispatched (snd (console_char st cfg c con))).
Proof.
  intros Hwf. pose proof Hwf as (Hlen & Hle & Hnn).
  unfold console_char.
  destruct ((c =? xff) || (c =? x00))%byte eqn:E1; [split; [exact Hwf | constructor]|].
  destruct ((c =? x7f) || (c =? x08))%byte eqn:E2.
  { destruct (echo_silent cfg (printf "\b \b" None)) as (Ed & _);
      [discriminate | discriminate |].
    cbn [fst snd]. rewrite Ed. split; [|constructor].
    unfold well_formed, buffered in *. cbn [input_buf i_ptr].
    destruct (0 <? i_ptr con)%nat; [|repeat split; assumption].
    repeat split; [exact Hlen | lia |].
    replace (take (i_ptr con - 1) (input_buf con))
      with (take (i_ptr con - 1) (take (i_ptr con) (input_buf con)))
      by (rewrite take_take; f_equal; lia).
    apply Forall_take, Hnn. }
  destruct ((c =? x0a)%byte || (c =? x0d)%byte
            || (sizeof_input_buf <=? i_ptr con)%nat) eqn:E3.
  { destruct (echo_silent cfg (printf "\r\n" None)) as (Ed & _);
      [discriminate | discriminate |].
    destruct (Nat.ltb_spec 0 (i_ptr con)) as [Hpos|Hzero]; cbn [fst snd].
    - rewrite !dispatched_app, Ed, (c_string_terminated con Hwf).
      cbn [dispatched app]. split.
      + unfold well_formed, buffered. cbn [input_buf i_ptr].
        rewrite length_insert, take_0. repeat split; [exact Hlen | lia | constructor].
      + constructor; [|constructor]. unfold buffered. intros Hnil.
        apply (f_equal length) in Hnil. rewrite length_take in Hnil.
        cbn [length] in Hnil. lia.
    - rewrite dispatched_app, Ed. cbn [dispatched app]. split; [|constructor].
      unfold well_formed, buffered in *. cbn [input_buf i_ptr].
      rewrite length_insert. replace (i_ptr con) with 0%nat by lia.
      rewrite take_0. repeat split; [exact Hlen | lia | constructor]. }
  apply orb_false_elim in E3 as [_ E3]. apply Nat.leb_gt in E3.
  apply orb_false_elim in E1 as [_ E1].
  destruct (echo_silent cfg (printf "%c" (Some c))) as (Ed & _);
    [discriminate | discriminate |].
  cbn [fst snd dispatched]. rewrite Ed. split; [|constructor].
  unfold well_formed, buffered in *. cbn [input_buf i_ptr].
  rewrite length_insert. repeat split; [exact Hlen | lia |].
  rewrite (take_S_r _ _ c) by (apply list_lookup_insert_eq; lia).
  rewrite take_insert_ge by lia. apply Forall_app. split; [exact Hnn|].
  constructor; [|constructor]. intros ->. discriminate E1.
Qed.

Lemma console_pump_well_formed (st : fanpico_state) (bytes : list byte) :
  forall con : console,
    well_formed con ->
    well_formed (fst (console_pump st cfg bytes con))
    /\ Forall (fun line => line <> [])
              (dispatched (snd (console_pump st cfg bytes con))).
Proof.
  induction bytes as [|c bytes IH]; intros con Hwf; cbn [console_pump].
  - split; [exact Hwf | constructor].
  - destruct (console_char_well_formed st c con Hwf) as [Hwf1 Hd1].
    destruct (console_char st cfg c con) as [con1 tr1]. cbn [fst snd] in *.
    destruct (IH con1 Hwf1) as [Hwf2 Hd2].
    destruct (console_pump st cfg bytes con1) as [con2 tr2]. cbn [fst snd] in *.
    rewrite dispatched_app. split; [exact Hwf2|].
    apply Forall_app. split; assumption.
Qed.

(** A CR or LF that arrives on an empty line is consumed: nothing is
    dispatched and the line stays empty. *)
Lemma terminator_on_empty_line (st : fanpico_state) (c : byte) (con : console) :
  c = x0a \/ c = x0d ->
  i_ptr con = 0%nat ->
  dispatched (snd (console_char st cfg c con)) = []
  /\ i_ptr (fst (console_char st cfg c con)) = 0%nat.
Proof.
  intros Hc Hi. unfold console_char, echo. rewrite Hi.
  destruct Hc as [-> | ->]; cbn [Byte.eqb orb Nat.ltb Nat.leb fst snd];
    destruct (local_echo cfg); cbn; split; first [reflexivity | exact Hi].
Qed.

End ConsoleInvariant.

(** Where the console stores: a typed character always lands inside the
    array; the terminator lands at the cursor, which can be 1024. *)
Lemma console_char_store_bounds (cfg : fanpico_config) (st : fanpico_state)
    (c : byte) (con : console) :
  well_formed con ->
  Forall (fun idx => (idx < sizeof_input_buf)%nat)
         (char_stores (snd (console_char st cfg c con)))
  /\ Forall (fun idx => (idx <= sizeof_input_buf)%nat)
            (nul_stores (snd (console_char st cfg c con))).
Proof.
  intros (Hlen & Hle & Hnn). unfold console_char.
  destruct ((c =? xff) || (c =? x00))%byte eqn:E1;
    [split; apply List.Forall_nil|].
  destruct (echo_silent cfg (printf "\b \b" None)) as (_ & En1 & Ec1);
    [discriminate | discriminate |].
  destruct (echo_silent cfg (printf "\r\n" None)) as (_ & En2 & Ec2);
    [discriminate | discriminate |].
  destruct (echo_silent cfg (printf "%c" (Some c))) as (_ & En3 & Ec3);
    [discriminate | discriminate |].
  destruct ((c =? x7f) || (c =? x08))%byte;
    [cbn [snd]; rewrite En1, Ec1; split; apply List.Forall_nil|].
  destruct ((c =? x0a)%byte || (c =? x0d)%byte
            || (sizeof_input_buf <=? i_ptr con)%nat) eqn:E3.
  - destruct (0 <? i_ptr con)%nat; cbn [snd];
      rewrite ?nul_stores_app, ?char_stores_app, En2, Ec2;
      cbn [nul_stores char_stores]; change (x00 =? x00)%byte with true;
      cbn [app];
      split; repeat first [apply List.Forall_nil | apply List.Forall_cons; [exact Hle|]].
  - apply orb_false_elim in E3 as [_ E3]. apply Nat.leb_gt in E3.
    apply orb_false_elim in E1 as [_ E1].
    cbn [snd nul_stores char_stores]. rewrite E1, En3, Ec3.
    split; repeat first [apply List.Forall_nil | apply List.Forall_cons; [exact E3|]].
Qed.

(* ===================================================================== *)
(** * Results: the scheduler                                             *)
(* ===================================================================== *)

Section TraceFacts.

Lemma occurrences_app (p : event -> bool) (tr1 tr2 : list event) :
  occurrences p (tr1 ++ tr2) = (occurrences p tr1 + occurrences p tr2)%nat.
Proof.
  induction tr1 as [|ev tr1 IH]; [reflexivity|].
  cbn [app occurrences]. rewrite IH. lia.
Qed.

Lemma occurrences_none (p : event -> bool) (tr : list event) :
  Forall (fun ev => p ev = false) tr -> occurrences p tr = 0%nat.
Proof.
  induction 1 as [|ev tr Hev _ IH]; [reflexivity|].
  cbn [occurrences]. rewrite Hev, IH. reflexivity.
Qed.

Lemma dispatched_none (tr : list event) :
  Forall (fun ev => forall s l, ev <> process_command s l) tr ->
  dispatched tr = [].
Proof.
  induction 1 as [|ev tr Hev _ IH]; [reflexivity|].
  destruct ev; cbn [dispatched]; try exact IH.
  exfalso. eapply Hev. reflexivity.
Qed.

Lemma quiet_no_update (tr : list event) :
  Forall (fun ev => quiet ev = true) tr -> output_updates tr = 0%nat.
Proof.
  intros Hq. apply occurrences_none. eapply Forall_impl; [exact Hq|].
  intros [] Hev; try reflexivity.
  unfold quiet in Hev. unfold is_call. now apply negb_true_iff.
Qed.

Lemma quiet_no_arming (tr : list event) :
  Forall (fun ev => quiet ev = true) tr ->
  occurrences is_watchdog_enable tr = 0%nat.
Proof.
  intros Hq. apply occurrences_none. eapply Forall_impl; [exact Hq|].
  intros [] Hev; try reflexivity. discriminate Hev.
Qed.

Lemma quiet_no_dispatch (tr : list event) :
  Forall (fun ev => quiet ev = true) tr -> dispatched tr = [].
Proof.
  intros Hq. apply dispatched_none. eapply Forall_impl; [exact Hq|].
  intros ev Hev s l ->. discriminate Hev.
Qed.

Lemma console_no_update (tr : list event) :
  Forall (fun ev => console_event ev = true) tr -> output_updates tr = 0%nat.
Proof.
  intros Hq. apply occurrences_none. eapply Forall_impl; [exact Hq|].
  intros [] Hev; try reflexivity. discriminate Hev.
Qed.

Lemma console_no_arming (tr : list event) :
  Forall (fun ev => console_event ev = true) tr ->
  occurrences is_watchdog_enable tr = 0%nat.
Proof.
  intros Hq. apply occurrences_none. eapply Forall_impl; [exact Hq|].
  intros [] Hev; try reflexivity. discriminate Hev.
Qed.

Lemma for_loop_events {St : Type} (P : event -> Prop)
    (body : nat -> St -> St * list event) :
  (forall i s, Forall P (snd (body i s))) ->
  forall n first s, Forall P (snd (for_loop body first n s)).
Proof.
  intros Hbody. induction n as [|n IH]; intros first s; cbn [for_loop].
  - constructor.
  - specialize (Hbody first s). destruct (body first s) as [s1 tr1].
    specialize (IH (S first) s1).
    destruct (for_loop body (S first) n s1) as [s2 tr2].
    apply Forall_app. split; assumption.
Qed.

Lemma console_pump_events (st : fanpico_state) (cfg : fanpico_config)
    (bytes : list byte) :
  forall con, Forall (fun ev => console_event ev = true)
                     (snd (console_pump st cfg bytes con)).
Proof.
  induction bytes as [|c bytes IH]; intros con; cbn [console_pump].
  - constructor.
  - assert (Hc : Forall (fun ev => console_event ev = true)
                        (snd (console_char st cfg c con))).
    { unfold console_char, echo.
      repeat match goal with
             | |- context [if ?b then _ else _] => destruct b
             end; cbn [fst snd app]; repeat constructor. }
    destruct (console_char st cfg c con) as [con1 tr1].
    specialize (IH con1). destruct (console_pump st cfg bytes con1) as [con2 tr2].
    apply Forall_app. split; assumption.
Qed.

End TraceFacts.

Section SchedulerFacts.
Context `{Board}.
Variable calculate_pwm_duty : fanpico_state -> fanpico_config -> nat -> Q.
Variable calculate_tacho_freq : fanpico_state -> fanpico_config -> nat -> Q.
Variable cfg : fanpico_config.

Local Abbreviation iter := (iteration calculate_pwm_duty calculate_tacho_freq cfg).
Local Abbreviation sched_tick :=
  (Schedule.tick calculate_pwm_duty calculate_tacho_freq cfg).

Ltac sched_simpl :=
  cbv beta iota zeta delta
    [Schedule.run_tasks Schedule.run_task Schedule.last_fire Schedule.now
     Schedule.set_last_fire Schedule.body Schedule.with_state
     Schedule.with_sampling fst snd
     st t_poll_pwm t_poll_tacho t_led t_temp t_set_outputs t_network t_last
     t_display led_state max_delta change con].

(** Case split on the elapsed-time test that reads the clock [clk]. *)
Ltac split_timer clk :=
  match goal with
  | |- context [?ms * 1000 <=? clk ?x - ?a] => destruct (ms * 1000 <=? clk x - a)
  end; sched_simpl.

Ltac name_loop body :=
  try match goal with
      | |- context [for_loop (body ?e) 0 ?n ?x] =>
          destruct (for_loop (body e) 0 n x) as [[[? ?] ?] ?]
      end; sched_simpl.

(** The body of [while (1)] is one tick of the declared schedule. *)
Lemma iteration_tick (e : env) (m : main_locals) : iter e m = sched_tick e m.
Proof.
  destruct m as [s tp tt tl tte tso tn tla td ls md ch c].
  unfold iteration, Schedule.tick, Schedule.declared_schedule,
    Schedule.begin_tick, WATCHDOG_ENABLED.
  sched_simpl. unfold Schedule.when_elapsed, time_passed.
  destruct (md <? clock_loop e - tla); sched_simpl.
  all: split_timer clock_network.
  all: split_timer clock_led.
  all: split_timer clock_display.
  all: split_timer clock_pwm.
  all: name_loop read_pwm_input.
  all: split_timer clock_temp.
  all: name_loop read_temperature.
  all: split_timer clock_tacho.
  all: match goal with
       | |- context [negb (?c =? 0)] => destruct (negb (c =? 0))
       end; sched_simpl.
  all: try split_timer clock_outputs.
  all: try match goal with
           | |- context [update_outputs ?a ?b ?c ?d] =>
               destruct (update_outputs a b c d) as [s4 tr4]
           end.
  all: sched_simpl.
  all: match goal with
       | |- context [console_pump ?a ?b ?c ?d] =>
           destruct (console_pump a b c d) as [c5 tr5]
       end.
  all: sched_simpl.
  all: reflexivity.
Qed.

(** C6: one iteration of the scheduler loop is one tick of the declared
    schedule: after the latency bookkeeping, the tasks are evaluated in the
    order network poll (1 ms), LED toggle (1000 ms), display refresh
    (2000 ms), duty-cycle sampling (1500 ms), temperature sampling
    (10000 ms), frequency computation (2000 ms), each fired when the time
    since its last fire has reached its interval; then the output update
    (dirty flag, or 3000 ms fallback), then the console pump and the
    watchdog refresh, both in every iteration. *)
Theorem iteration_follows_declared_schedule (e : env) (m : main_locals) :
  iter e m = sched_tick e m
  /\ Schedule.declared_schedule
     = [(Schedule.network_poll, Schedule.every 1 Schedule.T_network);
        (Schedule.led_toggle, Schedule.every 1000 Schedule.T_led);
        (Schedule.display_refresh, Schedule.every 2000 Schedule.T_display);
        (Schedule.duty_sampling, Schedule.every 1500 Schedule.T_poll_pwm);
        (Schedule.temperature_sampling, Schedule.every 10000 Schedule.T_temp);
        (Schedule.frequency_computation, Schedule.every 2000 Schedule.T_poll_tacho);
        (Schedule.output_update, Schedule.dirty_or_every 3000 Schedule.T_set_outputs);
        (Schedule.console_pump_task, Schedule.always);
        (Schedule.watchdog_refresh, Schedule.always)].
Proof.
  split; [apply iteration_tick | reflexivity].
Qed.

End SchedulerFacts.

(** The first iteration after boot on the board [board_0804], 20 s into
    the run, with two duty cycles and one temperature changed: every task
    is due and the calls come in the declared order. *)
Example first_iteration_trace :
  snd (@iteration Examples.board_0804 Examples.pwm_zero Examples.tacho_quarter
         Examples.cfg0 Examples.env_three_changes
         (fst (@boot Examples.board_0804 Examples.boot0)))
  = [log_msg LOG_DEBUG "core0: max_loop_time=%lld";
     call "network_poll";
     gpio_put 25 1;
     log_msg LOG_DEBUG "Update display";
     display_status Examples.zero_state;
     log_msg LOG_DEBUG "Read PWM inputs";
     call "get_pwm_duty_cycles";
     log_msg LOG_INFO "mbfan%d: duty cycle change %.1f --> %.1f";
     log_msg LOG_INFO "mbfan%d: duty cycle change %.1f --> %.1f";
     log_msg LOG_DEBUG "Read temperature sensors";
     log_msg LOG_INFO "sensor%d: Temperature change %.1fC --> %.1fC";
     log_msg LOG_DEBUG "Updating tacho input signals.";
     call "update_tacho_input_freq";
     log_msg LOG_DEBUG "Updating output signals.";
     call "update_outputs";
     log_msg LOG_INFO "mbfan%d: Set output Tacho %.2fHz --> %.2fHz";
     set_tacho_output_freq 0 0.25;
     call "watchdog_update"].
Proof. vm_compute. reflexivity. Qed.

(** Closes a goal [Forall quiet] over a trace put together from pieces. *)
Ltac quiet_pieces :=
  repeat first
    [ assumption
    | apply List.Forall_nil
    | apply List.Forall_cons; [reflexivity|]
    | apply Forall_app; split
    | match goal with
      | |- Forall _ (if ?b then _ else _) => destruct b
      end ].

Section IterationShape.
Context `{Board}.
Variable calculate_pwm_duty : fanpico_state -> fanpico_config -> nat -> Q.
Variable calculate_tacho_freq : fanpico_state -> fanpico_config -> nat -> Q.
Variable cfg : fanpico_config.

Local Abbreviation iter := (iteration calculate_pwm_duty calculate_tacho_freq cfg).
Local Abbreviation upd_outputs :=
  (update_outputs calculate_pwm_duty calculate_tacho_freq).

Lemma app_chain {A : Type} (a b c d e f g rest : list A) :
  a ++ b ++ c ++ d ++ e ++ f ++ g ++ rest
  = (a ++ b ++ c ++ d ++ e ++ f ++ g) ++ rest.
Proof. rewrite <- !app_assoc. reflexivity. Qed.

Lemma read_pwm_input_quiet (e : env) (i : nat) (x : sampling) :
  Forall (fun ev => quiet ev = true) (snd (read_pwm_input e i x)).
Proof.
  destruct x as [[s t] c]. unfold read_pwm_input.
  destruct (check_for_change _ _ _); repeat constructor.
Qed.

Lemma read_temperature_quiet (e : env) (i : nat) (x : sampling) :
  Forall (fun ev => quiet ev = true) (snd (read_temperature e i x)).
Proof.
  destruct x as [[s t] c]. unfold read_temperature.
  destruct (check_for_change _ _ _); repeat constructor.
Qed.

(** The shape of one iteration: events of the periodic tasks, then what
    the output update does when it runs, then the console, then the
    watchdog refresh. *)
Lemma iteration_shape (e : env) (m : main_locals) :
  exists tr_periodic : list event,
    let s3 := before_outputs e m in
    let s4 := if runs_outputs e m then fst (upd_outputs s3 cfg) else s3 in
    snd (iter e m)
    = tr_periodic
      ++ (if runs_outputs e m
          then log_msg LOG_DEBUG "Updating output signals." :: snd (upd_outputs s3 cfg)
          else [])
      ++ snd (console_pump s4 cfg (queued e) (con m))
      ++ [call "watchdog_update"]
    /\ st (fst (iter e m)) = s4
    /\ change (fst (iter e m)) = snd (sampled e m)
    /\ con (fst (iter e m)) = fst (console_pump s4 cfg (queued e) (con m))
    /\ Forall (fun ev => quiet ev = true) tr_periodic.
Proof.
  pose proof (for_loop_events _ _ (read_pwm_input_quiet e)) as Hq1.
  pose proof (for_loop_events _ _ (read_temperature_quiet e)) as Hq2.
  unfold iteration, runs_outputs, before_outputs, sampled, WATCHDOG_ENABLED.
  destruct (max_delta m <? clock_loop e - t_last m).
  all: destruct (time_passed (t_network m) 1 (clock_network e)) as [b1 z1].
  all: destruct (time_passed (t_led m) 1000 (clock_led e)) as [b2 z2].
  all: destruct (time_passed (t_display m) 2000 (clock_display e)) as [b3 z3].
  all: destruct (time_passed (t_poll_pwm m) 1500 (clock_pwm e)) as [[] z4].
  all: cbn [fst snd].
  all: try (specialize (Hq1 MBFAN_COUNT 0%nat (st m, t_set_outputs m, 0));
            destruct (for_loop (read_pwm_input e) 0 MBFAN_COUNT _) as [[[s1 t1] c1] tr1]).
  all: cbn [fst snd] in *.
  all: destruct (time_passed (t_temp m) 10000 (clock_temp e)) as [[] z5].
  all: cbn [fst snd].
  all: try match goal with
           | |- context [for_loop (read_temperature ?e) 0 SENSOR_COUNT ?x] =>
               specialize (Hq2 SENSOR_COUNT 0%nat x);
               destruct (for_loop (read_temperature e) 0 SENSOR_COUNT x)
                 as [[[s2 t2] c2] tr2]
           end.
  all: cbn [fst snd] in *.
  all: destruct (time_passed (t_poll_tacho m) 2000 (clock_tacho e)) as [[] z6].
  all: cbn [fst snd].
  all: match goal with
       | |- context [negb (?c =? 0)] => destruct (negb (c =? 0))
       end.
  all: cbn [orb].
  all: try match goal with
           | |- context [time_passed ?a 3000 ?b] =>
               destruct (time_passed a 3000 b) as [[] z7]
           end.
  all: cbn [fst snd].
  all: try match goal with
           | |- context [update_outputs ?a ?b ?c ?d] =>
               destruct (update_outputs a b c d) as [s4 tr4]
           end.
  all: cbn [fst snd].
  all: match goal with
       | |- context [console_pump ?a ?b ?c ?d] =>
           destruct (console_pump a b c d) as [c5 tr5]
       end.
  all: cbn [fst snd st change con].
  all: rewrite app_chain; eexists; split; [reflexivity|].
  all: repeat split.
  all: quiet_pieces.
Qed.

End IterationShape.

Section Sampling.
Context `{Board}.

Lemma count_passing_ext (p q : nat -> bool) :
  forall n first,
    (forall i, (first <= i)%nat -> p i = q i) ->
    count_passing p first n = count_passing q first n.
Proof.
  induction n as [|n IH]; intros first Hpq; cbn [count_passing]; [reflexivity|].
  rewrite (Hpq first) by lia. rewrite (IH (S first)); [reflexivity|].
  intros i Hi. apply Hpq. lia.
Qed.

Lemma elem_insert_ne (a : list Q) (i j : nat) (v : Q) :
  i <> j -> elem (<[i:=v]> a) j = elem a j.
Proof.
  intros Hne. unfold elem. rewrite !nth_lookup, list_lookup_insert_ne by exact Hne.
  reflexivity.
Qed.

Lemma duty_written_refl (e : env) (s : fanpico_state) : duty_written e s s.
Proof. intros i v Hv. left. exact Hv. Qed.

Lemma duty_written_trans (e : env) (s1 s2 s3 : fanpico_state) :
  duty_written e s1 s2 -> duty_written e s2 s3 -> duty_written e s1 s3.
Proof.
  intros H12 H23 i v Hv. destruct (H23 i v Hv) as [Hv2|Hr]; [|right; exact Hr].
  apply H12, Hv2.
Qed.

Lemma duty_written_same (e : env) (s s' : fanpico_state) :
  mbfan_duty s' = mbfan_duty s -> duty_written e s s'.
Proof. intros Heq i v Hv. left. rewrite <- Heq. exact Hv. Qed.

Lemma read_pwm_input_step (e : env) (i : nat) (s : fanpico_state) (t c : Z) :
  read_pwm_input e i (s, t, c)
  = if duty_gate e s i
    then ((set_mbfan_duty i (roundf (elem (mbfan_pwm_duty e) i)) s, 0, c + 1),
          [log_msg LOG_INFO "mbfan%d: duty cycle change %.1f --> %.1f"])
    else ((s, t, c), []).
Proof. reflexivity. Qed.

Lemma read_temperature_step (e : env) (i : nat) (s : fanpico_state) (t c : Z) :
  read_temperature e i (s, t, c)
  = if temp_gate e s i
    then ((set_temp i (get_temperature e i) s, t, c + 1),
          [log_msg LOG_INFO "sensor%d: Temperature change %.1fC --> %.1fC"])
    else ((s, t, c), []).
Proof. reflexivity. Qed.

(** The duty-cycle loop: the counter grows by the number of channels that
    pass the gate, the output timer is left alone when none does, and the
    array is written with rounded samples only. *)
Lemma read_pwm_loop (e : env) :
  forall n first s t c,
    let r := fst (for_loop (read_pwm_input e) first n (s, t, c)) in
    snd r = c + Z.of_nat (count_passing (duty_gate e s) first n)
    /\ (count_passing (duty_gate e s) first n = 0%nat -> snd (fst r) = t)
    /\ temp (fst (fst r)) = temp s
    /\ duty_written e s (fst (fst r)).
Proof.
  induction n as [|n IH]; intros first s t c; cbv zeta.
  - cbn. repeat split; [lia | apply duty_written_refl].
  - cbn [for_loop count_passing]. rewrite read_pwm_input_step.
    destruct (duty_gate e s first) eqn:Hgate.
    + specialize (IH (S first) (set_mbfan_duty first (roundf (elem (mbfan_pwm_duty e) first)) s)
                     0 (c + 1)).
      cbv zeta in IH.
      destruct (for_loop _ _ _ _) as [[[s2 t2] c2] tr2]. cbn [fst snd] in *.
      destruct IH as (Hc & _ & Htemp & Hw).
      rewrite (count_passing_ext _ (duty_gate e s)) in Hc.
      * repeat split; [lia | discriminate | exact Htemp |].
        eapply duty_written_trans; [|exact Hw].
        intros i v Hv. cbn [set_mbfan_duty mbfan_duty] in Hv.
        destruct (decide (first = i)) as [<-|Hne].
        -- right. apply lookup_lt_Some in Hv as Hlt. rewrite length_insert in Hlt.
           rewrite list_lookup_insert_eq in Hv by exact Hlt. congruence.
        -- left. rewrite list_lookup_insert_ne in Hv by exact Hne. exact Hv.
      * intros i Hi. unfold duty_gate. cbn [set_mbfan_duty mbfan_duty].
        rewrite elem_insert_ne by lia. reflexivity.
    + specialize (IH (S first) s t c). cbv zeta in IH.
      destruct (for_loop _ _ _ _) as [[[s2 t2] c2] tr2]. cbn [fst snd] in *.
      destruct IH as (Hc & Ht & Htemp & Hw).
      repeat split; [lia | exact Ht | exact Htemp | exact Hw].
Qed.

(** The temperature loop: the counter grows by the number of sensors that
    pass the gate; the output timer and the duty array are not touched. *)
Lemma read_temperature_loop (e : env) :
  forall n first s t c,
    let r := fst (for_loop (read_temperature e) first n (s, t, c)) in
    snd r = c + Z.of_nat (count_passing (temp_gate e s) first n)
    /\ snd (fst r) = t
    /\ mbfan_duty (fst (fst r)) = mbfan_duty s.
Proof.
  induction n as [|n IH]; intros first s t c; cbv zeta.
  - cbn. repeat split. lia.
  - cbn [for_loop count_passing]. rewrite read_temperature_step.
    destruct (temp_gate e s first) eqn:Hgate.
    + specialize (IH (S first) (set_temp first (get_temperature e first) s) t (c + 1)).
      cbv zeta in IH.
      destruct (for_loop _ _ _ _) as [[[s2 t2] c2] tr2]. cbn [fst snd] in *.
      destruct IH as (Hc & Ht & Hd).
      rewrite (count_passing_ext _ (temp_gate e s)) in Hc.
      * repeat split; [lia | exact Ht | exact Hd].
      * intros i Hi. unfold temp_gate. cbn [set_temp temp].
        rewrite elem_insert_ne by lia. reflexivity.
    + specialize (IH (S first) s t c). cbv zeta in IH.
      destruct (for_loop _ _ _ _) as [[[s2 t2] c2] tr2]. cbn [fst snd] in *.
      destruct IH as (Hc & Ht & Hd).
      repeat split; [lia | exact Ht | exact Hd].
Qed.

(** The change counter after sampling is the number of changed channels. *)
Lemma sampled_changes (e : env) (m : main_locals) :
  snd (sampled e m) = Z.of_nat (changed_channels e m)
  /\ (changed_channels e m = 0%nat -> snd (fst (sampled e m)) = t_set_outputs m)
  /\ duty_written e (st m) (fst (fst (sampled e m))).
Proof.
  unfold sampled, changed_channels.
  pose proof (read_pwm_loop e MBFAN_COUNT 0 (st m) (t_set_outputs m) 0) as Hpwm.
  cbv zeta in Hpwm.
  destruct (fst (time_passed (t_poll_pwm m) 1500 (clock_pwm e))).
  - destruct (fst (for_loop (read_pwm_input e) 0 MBFAN_COUNT _)) as [[s1 t1] c1].
    cbn [fst snd] in Hpwm. destruct Hpwm as (Hc1 & Ht1 & Htemp1 & Hw1).
    pose proof (read_temperature_loop e SENSOR_COUNT 0 s1 t1 c1) as Htmp.
    cbv zeta in Htmp.
    rewrite (count_passing_ext (temp_gate e s1) (temp_gate e (st m))) in Htmp
      by (intros i _; unfold temp_gate; rewrite Htemp1; reflexivity).
    destruct (fst (time_passed (t_temp m) 10000 (clock_temp e))).
    + destruct (fst (for_loop (read_temperature e) 0 SENSOR_COUNT _)) as [[s2 t2] c2].
      cbn [fst snd] in *. destruct Htmp as (Hc2 & Ht2 & Hd2).
      repeat split; [lia | intros Hz; rewrite Ht2; apply Ht1; lia |].
      eapply duty_written_trans; [exact Hw1 | apply duty_written_same, Hd2].
    + cbn [fst snd]. repeat split; [lia | intros Hz; apply Ht1; lia | exact Hw1].
  - pose proof (read_temperature_loop e SENSOR_COUNT 0 (st m) (t_set_outputs m) 0) as Htmp.
    cbv zeta in Htmp.
    destruct (fst (time_passed (t_temp m) 10000 (clock_temp e))).
    + destruct (fst (for_loop (read_temperature e) 0 SENSOR_COUNT _)) as [[s2 t2] c2].
      cbn [fst snd] in *. destruct Htmp as (Hc2 & Ht2 & Hd2).
      repeat split; [lia | intros _; exact Ht2 | apply duty_written_same, Hd2].
    + cbn [fst snd]. repeat split. apply duty_written_refl.
Qed.

End Sampling.

Section Batching.
Context `{Board}.
Variable calculate_pwm_duty : fanpico_state -> fanpico_config -> nat -> Q.
Variable calculate_tacho_freq : fanpico_state -> fanpico_config -> nat -> Q.
Variable cfg : fanpico_config.

Local Abbreviation iter := (iteration calculate_pwm_duty calculate_tacho_freq cfg).
Local Abbreviation upd_outputs :=
  (update_outputs calculate_pwm_duty calculate_tacho_freq).

Lemma for_loop_keeps {St A : Type} (f : St -> A)
    (body : nat -> St -> St * list event) :
  (forall i s, f (fst (body i s)) = f s) ->
  forall n first s, f (fst (for_loop body first n s)) = f s.
Proof.
  intros Hbody. induction n as [|n IH]; intros first s; cbn [for_loop]; [reflexivity|].
  specialize (Hbody first s). destruct (body first s) as [s1 tr1].
  specialize (IH (S first) s1).
  destruct (for_loop body (S first) n s1) as [s2 tr2].
  cbn [fst] in *. congruence.
Qed.

Lemma update_fan_pwm_step (config : fanpico_config) (i : nat) (s : fanpico_state) :
  Forall (fun ev => quiet ev = true)
         (snd (update_fan_pwm calculate_pwm_duty config i s))
  /\ mbfan_duty (fst (update_fan_pwm calculate_pwm_duty config i s)) = mbfan_duty s.
Proof.
  unfold update_fan_pwm. destruct (check_for_change _ _ _); cbn [fst snd];
    split; try reflexivity; repeat constructor.
Qed.

Lemma update_mb_tacho_step (config : fanpico_config) (i : nat) (s : fanpico_state) :
  Forall (fun ev => quiet ev = true)
         (snd (update_mb_tacho calculate_tacho_freq config i s))
  /\ mbfan_duty (fst (update_mb_tacho calculate_tacho_freq config i s)) = mbfan_duty s.
Proof.
  unfold update_mb_tacho. destruct (check_for_change _ _ _); cbn [fst snd];
    split; try reflexivity; repeat constructor.
Qed.

(** [update_outputs] announces itself once, calls output drivers only, and
    does not write [mbfan_duty]. *)
Lemma update_outputs_shape (s : fanpico_state) (config : fanpico_config) :
  exists tr,
    snd (upd_outputs s config) = call "update_outputs" :: tr
    /\ Forall (fun ev => quiet ev = true) tr
    /\ mbfan_duty (fst (upd_outputs s config)) = mbfan_duty s.
Proof.
  unfold update_outputs.
  pose proof (for_loop_events _ _ (fun i s0 => proj1 (update_fan_pwm_step config i s0))
                FAN_COUNT 0%nat s) as Hq1.
  pose proof (for_loop_keeps mbfan_duty _
                (fun i s0 => proj2 (update_fan_pwm_step config i s0))
                FAN_COUNT 0%nat s) as Hd1.
  destruct (for_loop (update_fan_pwm _ _) 0 FAN_COUNT s) as [s1 tr1].
  pose proof (for_loop_events _ _ (fun i s0 => proj1 (update_mb_tacho_step config i s0))
                MBFAN_COUNT 0%nat s1) as Hq2.
  pose proof (for_loop_keeps mbfan_duty _
                (fun i s0 => proj2 (update_mb_tacho_step config i s0))
                MBFAN_COUNT 0%nat s1) as Hd2.
  destruct (for_loop (update_mb_tacho _ _) 0 MBFAN_COUNT s1) as [s2 tr2].
  cbn [fst snd] in *. exists (tr1 ++ tr2). repeat split.
  - apply Forall_app. split; assumption.
  - congruence.
Qed.

(** An iteration invokes [update_outputs] once when it runs the output
    update and not at all otherwise. *)
Lemma output_updates_iteration (e : env) (m : main_locals) :
  output_updates (snd (iter e m)) = if runs_outputs e m then 1%nat else 0%nat.
Proof.
  destruct (iteration_shape calculate_pwm_duty calculate_tacho_freq cfg e m)
    as (trp & Htr & _ & _ & _ & Hq).
  cbv zeta in Htr. rewrite Htr. unfold output_updates.
  rewrite !occurrences_app.
  fold (output_updates trp). rewrite (quiet_no_update trp Hq).
  match goal with
  | |- context [console_pump ?a ?b ?c ?d] =>
      fold (output_updates (snd (console_pump a b c d)));
      rewrite (console_no_update _ (console_pump_events a b c d))
  end.
  destruct (runs_outputs e m); [|reflexivity].
  destruct (update_outputs_shape (before_outputs e m) cfg) as (tr & -> & Hqo & _).
  cbn [occurrences is_call String.eqb]. fold (output_updates tr).
  rewrite (quiet_no_update tr Hqo). reflexivity.
Qed.

(** C4: when at least one channel (three, or any number) passes its change
    gate in an iteration, that iteration invokes [update_outputs] exactly
    once, not once per channel. *)
Theorem changes_batched_in_one_update (e : env) (m : main_locals) :
  (1 <= changed_channels e m)%nat ->
  output_updates (snd (iter e m)) = 1%nat.
Proof.
  intros Hch. rewrite output_updates_iteration. unfold runs_outputs.
  destruct (sampled_changes e m) as (Hc & _). rewrite Hc.
  destruct (Z.eqb_spec (Z.of_nat (changed_channels e m)) 0) as [Hz|_]; [lia|].
  reflexivity.
Qed.

(** C5: an iteration runs the output update if and only if a sample
    passed its change gate earlier in that iteration (the dirty flag) or
    the 3000 ms fallback has elapsed on the output timer. *)
Theorem output_update_iff_dirty_or_fallback (e : env) (m : main_locals) :
  (output_updates (snd (iter e m)) = 1%nat
   <-> (1 <= changed_channels e m)%nat
       \/ fst (time_passed (t_set_outputs m) 3000 (clock_outputs e)) = true)
  /\ (output_updates (snd (iter e m)) = 0%nat
      <-> changed_channels e m = 0%nat
          /\ fst (time_passed (t_set_outputs m) 3000 (clock_outputs e)) = false)
  /\ change (fst (iter e m)) = Z.of_nat (changed_channels e m).
Proof.
  rewrite output_updates_iteration.
  destruct (iteration_shape calculate_pwm_duty calculate_tacho_freq cfg e m)
    as (trp & _ & _ & Hchange & _).
  rewrite Hchange. unfold runs_outputs.
  destruct (sampled_changes e m) as (Hc & Ht & _). rewrite Hc.
  destruct (Z.eqb_spec (Z.of_nat (changed_channels e m)) 0) as [Hz|Hnz]; cbn [negb orb].
  - rewrite Ht by lia.
    destruct (fst (time_passed (t_set_outputs m) 3000 (clock_outputs e)));
      repeat split; try tauto; try lia; try discriminate;
      intros; try lia; intuition (try discriminate; try lia).
  - repeat split; try tauto; try lia; try discriminate;
      intros; try lia; intuition (try discriminate; try lia).
Qed.

End Batching.

(** The theorem on batching where three channels change at once: two MB
    fan duty cycles and one temperature, in the first iteration after boot
    on the board [board_0804]. *)
Lemma changes_batched_in_one_update_witness :
  let m0 := fst (@boot Examples.board_0804 Examples.boot0) in
  @changed_channels Examples.board_0804 Examples.env_three_changes m0 = 3%nat
  /\ output_updates
       (snd (@iteration Examples.board_0804 Examples.pwm_zero
               Examples.tacho_quarter Examples.cfg0
               Examples.env_three_changes m0)) = 1%nat.
Proof.
  split.
  - vm_compute. reflexivity.
  - apply (@changes_batched_in_one_update Examples.board_0804).
    vm_compute. lia.
Defined.

Section WholeRun.
Context `{Board}.
Variable calculate_pwm_duty : fanpico_state -> fanpico_config -> nat -> Q.
Variable calculate_tacho_freq : fanpico_state -> fanpico_config -> nat -> Q.
Variable cfg : fanpico_config.

Local Abbreviation iter := (iteration calculate_pwm_duty calculate_tacho_freq cfg).
Local Abbreviation sched := (scheduler calculate_pwm_duty calculate_tacho_freq cfg).
Local Abbreviation run := (main calculate_pwm_duty calculate_tacho_freq cfg).
Local Abbreviation upd_outputs :=
  (update_outputs calculate_pwm_duty calculate_tacho_freq).

Lemma wait_usb_quiet (connected : nat -> bool) :
  forall polls i, Forall (fun ev => quiet ev = true) (wait_usb connected i polls).
Proof.
  induction polls as [|polls IH]; intros i; cbn [wait_usb]; [constructor|].
  destruct (connected i); [constructor|]. constructor; [reflexivity | apply IH].
Qed.

(** Boot ends with the arming of the watchdog; nothing before it arms the
    watchdog, dispatches a command or invokes [update_outputs]. *)
Lemma boot_shape (b : boot_env) :
  exists tr,
    snd (boot b) = tr ++ [watchdog_enable WATCHDOG_REBOOT_DELAY 1]
    /\ Forall (fun ev => quiet ev = true) tr.
Proof.
  unfold boot, WATCHDOG_ENABLED. cbn [snd].
  eexists. split.
  - rewrite !app_assoc. reflexivity.
  - pose proof (wait_usb_quiet (stdio_usb_connected b) 10 0%nat) as Hw.
    pose proof (for_loop_events (fun ev => quiet ev = true)
                  (fun i (u : unit) => (u, [set_pwm_duty_cycle i 0]))
                  (fun i u => ltac:(repeat constructor)) FAN_COUNT 0%nat tt) as Hf.
    unfold setup. cbn [snd]. quiet_pieces.
Qed.

Lemma iteration_last (e : env) (m : main_locals) :
  last (snd (iter e m)) = Some (call "watchdog_update").
Proof.
  destruct (iteration_shape calculate_pwm_duty calculate_tacho_freq cfg e m)
    as (trp & Htr & _).
  cbv zeta in Htr. rewrite Htr, !app_assoc. apply last_snoc.
Qed.

Lemma outputs_piece_silent (e : env) (m : main_locals) :
  let tr := if runs_outputs e m
            then log_msg LOG_DEBUG "Updating output signals."
                 :: snd (upd_outputs (before_outputs e m) cfg)
            else [] in
  occurrences is_watchdog_enable tr = 0%nat /\ dispatched tr = [].
Proof.
  cbv zeta. destruct (runs_outputs e m); [|split; reflexivity].
  destruct (update_outputs_shape calculate_pwm_duty calculate_tacho_freq
              (before_outputs e m) cfg) as (tr & -> & Hq & _).
  cbn [occurrences is_watchdog_enable dispatched].
  rewrite (quiet_no_arming tr Hq), (quiet_no_dispatch tr Hq). split; reflexivity.
Qed.

Lemma iteration_no_arming (e : env) (m : main_locals) :
  occurrences is_watchdog_enable (snd (iter e m)) = 0%nat.
Proof.
  destruct (iteration_shape calculate_pwm_duty calculate_tacho_freq cfg e m)
    as (trp & Htr & _ & _ & _ & Hq).
  cbv zeta in Htr. rewrite Htr, !occurrences_app.
  rewrite (quiet_no_arming trp Hq), (proj1 (outputs_piece_silent e m)).
  rewrite (console_no_arming _ (console_pump_events _ _ _ _)). reflexivity.
Qed.

Lemma scheduler_no_arming (es : list env) :
  forall m, occurrences is_watchdog_enable (snd (sched es m)) = 0%nat.
Proof.
  induction es as [|e es IH]; intros m; cbn [scheduler]; [reflexivity|].
  pose proof (iteration_no_arming e m) as H1.
  destruct (iter e m) as [m1 tr1]. specialize (IH m1).
  destruct (sched es m1) as [m2 tr2]. cbn [snd] in *.
  rewrite occurrences_app, H1, IH. reflexivity.
Qed.

Lemma main_trace (b : boot_env) (es : list env) :
  snd (run b es) = snd (boot b) ++ snd (sched es (fst (boot b)))
  /\ fst (run b es) = fst (sched es (fst (boot b))).
Proof.
  unfold main. destruct (boot b) as [m0 tr0]. cbn [fst snd].
  destruct (sched es m0) as [m tr]. split; reflexivity.
Qed.

(** C7: the watchdog is armed once, as the last step of boot and so before
    the first iteration of the scheduler loop; the loop never arms it
    again; and every iteration, from any state and under any environment,
    ends with the watchdog refresh. *)
Theorem watchdog_armed_once_and_refreshed (b : boot_env) (es : list env) :
  snd (run b es) = snd (boot b) ++ snd (sched es (fst (boot b)))
  /\ last (snd (boot b)) = Some (watchdog_enable WATCHDOG_REBOOT_DELAY 1)
  /\ occurrences is_watchdog_enable (snd (boot b)) = 1%nat
  /\ occurrences is_watchdog_enable (snd (run b es)) = 1%nat
  /\ (forall e m, last (snd (iter e m)) = Some (call "watchdog_update"))
  /\ (forall e m, (1 <= occurrences (is_call "watchdog_update") (snd (iter e m)))%nat).
Proof.
  destruct (main_trace b es) as [Htr _].
  destruct (boot_shape b) as (tr0 & Hboot & Hq0).
  assert (Hone : occurrences is_watchdog_enable (snd (boot b)) = 1%nat).
  { rewrite Hboot, occurrences_app, (quiet_no_arming tr0 Hq0). reflexivity. }
  repeat split.
  - exact Htr.
  - rewrite Hboot. apply last_snoc.
  - exact Hone.
  - rewrite Htr, occurrences_app, Hone, scheduler_no_arming. reflexivity.
  - apply iteration_last.
  - intros e m.
    destruct (iteration_shape calculate_pwm_duty calculate_tacho_freq cfg e m)
      as (trp & Hshape & _).
    cbv zeta in Hshape. rewrite Hshape, !occurrences_app.
    change (occurrences (is_call "watchdog_update") [call "watchdog_update"])
      with 1%nat.
    lia.
Qed.

Lemma iteration_console (e : env) (m : main_locals) :
  well_formed (con m) ->
  well_formed (con (fst (iter e m)))
  /\ Forall (fun line => line <> []) (dispatched (snd (iter e m))).
Proof.
  intros Hwf.
  destruct (iteration_shape calculate_pwm_duty calculate_tacho_freq cfg e m)
    as (trp & Htr & _ & _ & Hcon & Hq).
  cbv zeta in Htr, Hcon. rewrite Htr, Hcon, !dispatched_app.
  rewrite (quiet_no_dispatch trp Hq), (proj2 (outputs_piece_silent e m)).
  cbn [dispatched app]. rewrite app_nil_r.
  apply console_pump_well_formed, Hwf.
Qed.

Lemma scheduler_console (es : list env) :
  forall m,
    well_formed (con m) ->
    Forall (fun line => line <> []) (dispatched (snd (sched es m))).
Proof.
  induction es as [|e es IH]; intros m Hwf; cbn [scheduler]; [constructor|].
  destruct (iteration_console e m Hwf) as [Hwf1 Hd1].
  destruct (iter e m) as [m1 tr1]. specialize (IH m1 Hwf1).
  destruct (sched es m1) as [m2 tr2]. cbn [fst snd] in *.
  rewrite dispatched_app. apply Forall_app. split; assumption.
Qed.

(** C9: the command processor is never handed an empty line.  In every run
    of [main], whatever arrives on the console and however it is spread
    over the iterations, each dispatched line has at least one byte; and a
    CR or LF that arrives while the buffer is empty is consumed without a
    dispatch, the buffer staying empty. *)
Theorem no_empty_line_dispatched (b : boot_env) (es : list env) :
  Forall (fun line => line <> []) (dispatched (snd (run b es)))
  /\ (forall (s : fanpico_state) (c : byte) (k : console),
        c = x0a \/ c = x0d ->
        i_ptr k = 0%nat ->
        dispatched (snd (console_char s cfg c k)) = []
        /\ i_ptr (fst (console_char s cfg c k)) = 0%nat).
Proof.
  split; [|intros s c k; apply terminator_on_empty_line].
  destruct (main_trace b es) as [Htr _]. rewrite Htr, dispatched_app.
  destruct (boot_shape b) as (tr0 & Hboot & Hq0).
  rewrite Hboot, dispatched_app, (quiet_no_dispatch tr0 Hq0). cbn [dispatched app].
  apply scheduler_console. unfold boot. cbn [fst con].
  apply empty_buffer_well_formed. split; [reflexivity|]. cbn [input_buf].
  apply length_resize.
Qed.

End WholeRun.

Section DutyArray.
Context `{Board}.
Variable calculate_pwm_duty : fanpico_state -> fanpico_config -> nat -> Q.
Variable calculate_tacho_freq : fanpico_state -> fanpico_config -> nat -> Q.
Variable cfg : fanpico_config.

Local Abbreviation iter := (iteration calculate_pwm_duty calculate_tacho_freq cfg).
Local Abbreviation sched := (scheduler calculate_pwm_duty calculate_tacho_freq cfg).
Local Abbreviation run := (main calculate_pwm_duty calculate_tacho_freq cfg).

Lemma roundf_integer_valued (x : Q) : integer_valued (roundf x).
Proof. unfold integer_valued, roundf. eexists. reflexivity. Qed.

(** [clear_state] writes 0.0 over the zeros of the static state. *)
Lemma clear_state_system_state : clear_state system_state = system_state.
Proof.
  assert (Hidle : forall (body : nat -> fanpico_state -> fanpico_state * list event) n,
            (forall i, body i system_state = (system_state, [])) ->
            fst (for_loop body 0 n system_state) = system_state).
  { intros body n Hbody. rewrite for_loop_idle; [reflexivity|].
    intros i _. apply Hbody. }
  unfold clear_state.
  rewrite !Hidle; try reflexivity; intros i; unfold system_state,
    set_mbfan_duty, set_mbfan_freq, set_fan_duty, set_fan_freq, set_temp;
    cbn [mbfan_duty mbfan_freq fan_duty fan_freq temp];
    rewrite ?insert_replicate; reflexivity.
Qed.

Lemma duty_written_integer (e : env) (s s' : fanpico_state) :
  duty_written e s s' ->
  Forall integer_valued (mbfan_duty s) ->
  Forall integer_valued (mbfan_duty s').
Proof.
  intros Hw Hs. apply Forall_lookup. intros i v Hv.
  destruct (Hw i v Hv) as [Hold | ->].
  - exact (proj1 (Forall_lookup _ _) Hs i v Hold).
  - apply roundf_integer_valued.
Qed.

(** Over one iteration the duty array is written by the sampling task
    only, with rounded samples. *)
Lemma iteration_duty_written (e : env) (m : main_locals) :
  duty_written e (st m) (st (fst (iter e m))).
Proof.
  destruct (iteration_shape calculate_pwm_duty calculate_tacho_freq cfg e m)
    as (trp & _ & Hst & _).
  cbv zeta in Hst. rewrite Hst.
  destruct (sampled_changes e m) as (_ & _ & Hw).
  eapply duty_written_trans; [exact Hw|]. apply duty_written_same.
  assert (Hb : mbfan_duty (before_outputs e m) = mbfan_duty (fst (fst (sampled e m)))).
  { unfold before_outputs, update_tacho_input_freq.
    destruct (fst (time_passed _ _ _)); [|reflexivity].
    apply for_loop_keeps. reflexivity. }
  destruct (runs_outputs e m); [|exact Hb].
  destruct (update_outputs_shape calculate_pwm_duty calculate_tacho_freq
              (before_outputs e m) cfg) as (tr & _ & _ & Hd).
  congruence.
Qed.

Lemma scheduler_integer_valued (es : list env) :
  forall m,
    Forall integer_valued (mbfan_duty (st m)) ->
    Forall integer_valued (mbfan_duty (st (fst (sched es m)))).
Proof.
  induction es as [|e es IH]; intros m Hm; cbn [scheduler]; [exact Hm|].
  pose proof (duty_written_integer e _ _ (iteration_duty_written e m) Hm) as H1.
  destruct (iter e m) as [m1 tr1]. specialize (IH m1 H1).
  destruct (sched es m1) as [m2 tr2]. exact IH.
Qed.

(** The duty array in the runs of [main]: it starts as zeros
    ([clear_state] over the static state); an iteration leaves each
    element as it was or stores the [roundf] of the raw sample of its
    channel, and [update_outputs] does not write the array; so after any
    number of iterations all elements are integers. *)
Lemma run_duty_integer_valued (b : boot_env) (es : list env) :
  mbfan_duty (st (fst (boot b))) = replicate MBFAN_MAX_COUNT 0%Q
  /\ (forall e m, duty_written e (st m) (st (fst (iter e m))))
  /\ (forall s config,
        mbfan_duty (fst (update_outputs calculate_pwm_duty calculate_tacho_freq
                           s config)) = mbfan_duty s)
  /\ Forall integer_valued (mbfan_duty (st (fst (run b es)))).
Proof.
  assert (Hboot : mbfan_duty (st (fst (boot b))) = replicate MBFAN_MAX_COUNT 0%Q).
  { unfold boot. cbn [fst st]. rewrite clear_state_system_state. reflexivity. }
  repeat split.
  - exact Hboot.
  - apply iteration_duty_written.
  - intros s config.
    destruct (update_outputs_shape calculate_pwm_duty calculate_tacho_freq s config)
      as (tr & _ & _ & Hd).
    exact Hd.
  - destruct (main_trace calculate_pwm_duty calculate_tacho_freq cfg b es) as [_ ->].
    apply scheduler_integer_valued. rewrite Hboot.
    apply Forall_replicate. exists 0. reflexivity.
Qed.

End DutyArray.

(* ===================================================================== *)
(** * Results: more on one iteration of the scheduler                    *)
(* ===================================================================== *)

Ltac periodic_pieces :=
  repeat first
    [ assumption
    | apply List.Forall_nil
    | apply List.Forall_cons; [reflexivity|]
    | apply Forall_app; split
    | match goal with
      | |- Forall _ (if ?b then _ else _) => destruct b
      end ].

Section IterationAnatomy.
Context `{Board}.
Variable calculate_pwm_duty : fanpico_state -> fanpico_config -> nat -> Q.
Variable calculate_tacho_freq : fanpico_state -> fanpico_config -> nat -> Q.
Variable cfg : fanpico_config.

Local Abbreviation iter := (iteration calculate_pwm_duty calculate_tacho_freq cfg).
Local Abbreviation upd_outputs :=
  (update_outputs calculate_pwm_duty calculate_tacho_freq).

Lemma read_pwm_input_periodic (e : env) (i : nat) (x : sampling) :
  Forall (fun ev => periodic_event ev = true) (snd (read_pwm_input e i x)).
Proof.
  destruct x as [[s t] c]. unfold read_pwm_input.
  destruct (check_for_change _ _ _); repeat constructor.
Qed.

Lemma read_temperature_periodic (e : env) (i : nat) (x : sampling) :
  Forall (fun ev => periodic_event ev = true) (snd (read_temperature e i x)).
Proof.
  destruct x as [[s t] c]. unfold read_temperature.
  destruct (check_for_change _ _ _); repeat constructor.
Qed.

(** One iteration taken apart: its trace, and what it leaves in the
    locals of [main] other than the state and the console. *)
Lemma iteration_anatomy (e : env) (m : main_locals) :
  exists tr_periodic : list event,
    let s3 := before_outputs e m in
    let s4 := if runs_outputs e m then fst (upd_outputs s3 cfg) else s3 in
    snd (iter e m)
    = tr_periodic
      ++ (if runs_outputs e m
          then log_msg LOG_DEBUG "Updating output signals." :: snd (upd_outputs s3 cfg)
          else [])
      ++ snd (console_pump s4 cfg (queued e) (con m))
      ++ [call "watchdog_update"]
    /\ t_last (fst (iter e m)) = clock_loop e
    /\ max_delta (fst (iter e m))
       = (if max_delta m <? clock_loop e - t_last m
          then clock_loop e - t_last m else max_delta m)
    /\ led_state (fst (iter e m))
       = (if fst (time_passed (t_led m) 1000 (clock_led e))
          then next_led_state cfg (led_state m) else led_state m)
    /\ t_set_outputs (fst (iter e m)) = output_timer_after e m
    /\ t_network (fst (iter e m)) = snd (time_passed (t_network m) 1 (clock_network e))
    /\ t_led (fst (iter e m)) = snd (time_passed (t_led m) 1000 (clock_led e))
    /\ t_display (fst (iter e m))
       = snd (time_passed (t_display m) 2000 (clock_display e))
    /\ t_poll_pwm (fst (iter e m)) = snd (time_passed (t_poll_pwm m) 1500 (clock_pwm e))
    /\ t_temp (fst (iter e m)) = snd (time_passed (t_temp m) 10000 (clock_temp e))
    /\ t_poll_tacho (fst (iter e m))
       = snd (time_passed (t_poll_tacho m) 2000 (clock_tacho e))
    /\ Forall (fun ev => periodic_event ev = true) tr_periodic.
Proof.
  pose proof (for_loop_events _ _ (read_pwm_input_periodic e)) as Hq1.
  pose proof (for_loop_events _ _ (read_temperature_periodic e)) as Hq2.
  unfold iteration, output_timer_after, runs_outputs, before_outputs, sampled,
    WATCHDOG_ENABLED.
  destruct (max_delta m <? clock_loop e - t_last m).
  all: destruct (time_passed (t_network m) 1 (clock_network e)) as [b1 z1].
  all: destruct (time_passed (t_led m) 1000 (clock_led e)) as [b2 z2].
  all: destruct (time_passed (t_display m) 2000 (clock_display e)) as [b3 z3].
  all: destruct (time_passed (t_poll_pwm m) 1500 (clock_pwm e)) as [[] z4].
  all: cbn [fst snd].
  all: try (specialize (Hq1 MBFAN_COUNT 0%nat (st m, t_set_outputs m, 0));
            destruct (for_loop (read_pwm_input e) 0 MBFAN_COUNT _) as [[[s1 t1] c1] tr1]).
  all: cbn [fst snd] in *.
  all: destruct (time_passed (t_temp m) 10000 (clock_temp e)) as [[] z5].
  all: cbn [fst snd].
  all: try match goal with
           | |- context [for_loop (read_temperature ?e) 0 SENSOR_COUNT ?x] =>
               specialize (Hq2 SENSOR_COUNT 0%nat x);
               destruct (for_loop (read_temperature e) 0 SENSOR_COUNT x)
                 as [[[s2 t2] c2] tr2]
           end.
  all: cbn [fst snd] in *.
  all: destruct (time_passed (t_poll_tacho m) 2000 (clock_tacho e)) as [[] z6].
  all: cbn [fst snd].
  all: match goal with
       | |- context [negb (?c =? 0)] => destruct (negb (c =? 0))
       end.
  all: cbn [orb].
  all: try match goal with
           | |- context [time_passed ?a 3000 ?b] =>
               destruct (time_passed a 3000 b) as [[] z7]
           end.
  all: cbn [fst snd].
  all: try match goal with
           | |- context [update_outputs ?a ?b ?c ?d] =>
               destruct (update_outputs a b c d) as [s4 tr4]
           end.
  all: cbn [fst snd].
  all: match goal with
       | |- context [console_pump ?a ?b ?c ?d] =>
           destruct (console_pump a b c d) as [c5 tr5]
       end.
  all: cbn [fst snd st change con t_last max_delta led_state t_set_outputs
            t_network t_led t_display t_poll_pwm t_temp t_poll_tacho].
  all: rewrite app_chain; eexists; split; [reflexivity|].
  all: repeat split.
  all: periodic_pieces.
Qed.

End IterationAnatomy.

(* ===================================================================== *)
(** * Results: more on the command console                               *)
(* ===================================================================== *)

Section ConsoleMore.

(** What a byte does to the console and which line it dispatches depend
    neither on the state handed to the command processor nor on the
    configuration; only the echo does. *)
Lemma console_char_independent (st st' : fanpico_state) (cfg cfg' : fanpico_config)
    (c : byte) (con : console) :
  fst (console_char st cfg c con) = fst (console_char st' cfg' c con)
  /\ dispatched (snd (console_char st cfg c con))
     = dispatched (snd (console_char st' cfg' c con))
  /\ nul_stores (snd (console_char st cfg c con))
     = nul_stores (snd (console_char st' cfg' c con))
  /\ char_stores (snd (console_char st cfg c con))
     = char_stores (snd (console_char st' cfg' c con)).
Proof.
  unfold console_char.
  destruct (echo_silent cfg (printf "\b \b" None)) as (Ed1 & En1 & Ec1);
    [discriminate | discriminate |].
  destruct (echo_silent cfg (printf "\r\n" None)) as (Ed2 & En2 & Ec2);
    [discriminate | discriminate |].
  destruct (echo_silent cfg (printf "%c" (Some c))) as (Ed3 & En3 & Ec3);
    [discriminate | discriminate |].
  destruct (echo_silent cfg' (printf "\b \b" None)) as (Ed1' & En1' & Ec1');
    [discriminate | discriminate |].
  destruct (echo_silent cfg' (printf "\r\n" None)) as (Ed2' & En2' & Ec2');
    [discriminate | discriminate |].
  destruct (echo_silent cfg' (printf "%c" (Some c))) as (Ed3' & En3' & Ec3');
    [discriminate | discriminate |].
  destruct ((c =? xff) || (c =? x00))%byte; [repeat split|].
  destruct ((c =? x7f) || (c =? x08))%byte;
    [cbn [fst snd]; rewrite Ed1, En1, Ec1, Ed1', En1', Ec1'; repeat split|].
  destruct ((c =? x0a)%byte || (c =? x0d)%byte
            || (sizeof_input_buf <=? i_ptr con)%nat).
  - destruct (0 <? i_ptr con)%nat; cbn [fst snd];
      rewrite ?dispatched_app, ?nul_stores_app, ?char_stores_app,
        Ed2, En2, Ec2, Ed2', En2', Ec2'; repeat split.
  - cbn [fst snd dispatched nul_stores char_stores].
    rewrite Ed3, En3, Ec3, Ed3', En3', Ec3'. repeat split.
Qed.

Lemma console_pump_independent (st st' : fanpico_state) (cfg cfg' : fanpico_config)
    (bytes : list byte) :
  forall con : console,
    fst (console_pump st cfg bytes con) = fst (console_pump st' cfg' bytes con)
    /\ dispatched (snd (console_pump st cfg bytes con))
       = dispatched (snd (console_pump st' cfg' bytes con))
    /\ nul_stores (snd (console_pump st cfg bytes con))
       = nul_stores (snd (console_pump st' cfg' bytes con))
    /\ char_stores (snd (console_pump st cfg bytes con))
       = char_stores (snd (console_pump st' cfg' bytes con)).
Proof.
  induction bytes as [|c bytes IH]; intros con; cbn [console_pump]; [repeat split|].
  destruct (console_char_independent st st' cfg cfg' c con) as (Hs & Hd & Hn & Hc).
  destruct (console_char st cfg c con) as [con1 tr1].
  destruct (console_char st' cfg' c con) as [con1' tr1'].
  cbn [fst snd] in *. subst con1'.
  destruct (IH con1) as (Hs2 & Hd2 & Hn2 & Hc2).
  destruct (console_pump st cfg bytes con1) as [con2 tr2].
  destruct (console_pump st' cfg' bytes con1) as [con2' tr2'].
  cbn [fst snd] in *.
  rewrite !dispatched_app, !nul_stores_app, !char_stores_app.
  repeat split; congruence.
Qed.

Lemma console_pump_no_echo (st : fanpico_state) (cfg : fanpico_config)
    (bytes : list byte) :
  local_echo cfg = false ->
  forall con, occurrences is_printf (snd (console_pump st cfg bytes con)) = 0%nat.
Proof.
  intros Hoff. induction bytes as [|c bytes IH]; intros con; cbn [console_pump];
    [reflexivity|].
  assert (Hc : occurrences is_printf (snd (console_char st cfg c con)) = 0%nat).
  { unfold console_char, echo. rewrite Hoff.
    repeat match goal with
           | |- context [if ?b then _ else _] => destruct b
           end; reflexivity. }
  destruct (console_char st cfg c con) as [con1 tr1]. specialize (IH con1).
  destruct (console_pump st cfg bytes con1) as [con2 tr2]. cbn [snd] in *.
  rewrite occurrences_app, Hc, IH. reflexivity.
Qed.

(** A line terminator on a line that is not empty dispatches the buffered
    text and empties the line. *)
Lemma console_char_terminator (st : fanpico_state) (cfg : fanpico_config)
    (c : byte) (con : console) :
  c = x0a \/ c = x0d ->
  well_formed con ->
  (0 < i_ptr con)%nat ->
  let r := console_char st cfg c con in
  i_ptr (fst r) = 0%nat
  /\ length (input_buf (fst r)) = sizeof_input_buf
  /\ dispatched (snd r) = [buffered con]
  /\ nul_stores (snd r) = [i_ptr con]
  /\ char_stores (snd r) = [].
Proof.
  intros Hc Hwf Hpos. cbv zeta. unfold console_char.
  assert (E1 : ((c =? xff) || (c =? x00))%byte = false)
    by (destruct Hc as [-> | ->]; reflexivity).
  assert (E2 : ((c =? x7f) || (c =? x08))%byte = false)
    by (destruct Hc as [-> | ->]; reflexivity).
  assert (E3 : ((c =? x0a) || (c =? x0d))%byte = true)
    by (destruct Hc as [-> | ->]; reflexivity).
  rewrite E1, E2, E3. cbn [orb].
  destruct (Nat.ltb_spec 0 (i_ptr con)) as [_|Hz]; [|lia].
  cbn [fst snd i_ptr input_buf].
  destruct (echo_silent cfg (printf "\r\n" None)) as (Ed & En & Ec);
    [discriminate | discriminate |].
  rewrite !dispatched_app, !nul_stores_app, !char_stores_app, Ed, En, Ec,
    (c_string_terminated con Hwf), length_insert.
  destruct Hwf as (Hlen & _). repeat split. exact Hlen.
Qed.

(** Backspaces move the cursor back, stopping at 0; they neither store nor
    dispatch. *)
Lemma console_pump_backspaces (st : fanpico_state) (cfg : fanpico_config)
    (erase : list byte) :
  forallb is_backspace erase = true ->
  forall con : console,
    let r := console_pump st cfg erase con in
    i_ptr (fst r) = (i_ptr con - length erase)%nat
    /\ input_buf (fst r) = input_buf con
    /\ dispatched (snd r) = [].
Proof.
  intros Hall. induction erase as [|c erase IH]; intros con; cbv zeta.
  - cbn. repeat split. lia.
  - cbn [forallb] in Hall. apply andb_prop in Hall as [Hc Hall].
    specialize (IH Hall). cbn [console_pump].
    assert (Hstep : i_ptr (fst (console_char st cfg c con)) = (i_ptr con - 1)%nat
                    /\ input_buf (fst (console_char st cfg c con)) = input_buf con
                    /\ dispatched (snd (console_char st cfg c con)) = []).
    { unfold console_char. unfold is_backspace in Hc.
      destruct ((c =? xff) || (c =? x00))%byte eqn:E1.
      - exfalso. destruct (c =? xff)%byte eqn:Ea.
        + apply byte_dec_bl in Ea. subst c. discriminate Hc.
        + cbn [orb] in E1. apply byte_dec_bl in E1. subst c. discriminate Hc.
      - rewrite Hc. cbn [fst snd i_ptr input_buf].
        destruct (echo_silent cfg (printf "\b \b" None)) as (Ed & _);
          [discriminate | discriminate |].
        rewrite Ed. destruct (Nat.ltb_spec 0 (i_ptr con)); repeat split; lia. }
    destruct (console_char st cfg c con) as [con1 tr1]. cbn [fst snd] in Hstep.
    destruct Hstep as (Hi1 & Hb1 & Hd1). specialize (IH con1). cbv zeta in IH.
    destruct (console_pump st cfg erase con1) as [con2 tr2]. cbn [fst snd] in *.
    destruct IH as (Hi2 & Hb2 & Hd2).
    rewrite dispatched_app, Hd1, Hd2, Hi2, Hi1, Hb2, Hb1.
    cbn [length]. repeat split. lia.
Qed.

(** X1: the sentinel bytes 0xff and 0x00 are invisible to the console: a
    stream and the same stream with its sentinels taken out leave the same
    console and the same trace. *)
Theorem sentinels_are_skipped (st : fanpico_state) (cfg : fanpico_config)
    (bytes : list byte) (con : console) :
  console_pump st cfg bytes con
  = console_pump st cfg (List.filter (fun c => negb (is_sentinel c)) bytes) con.
Proof.
  revert con. induction bytes as [|c bytes IH]; intros con; [reflexivity|].
  cbn [List.filter]. destruct (is_sentinel c) eqn:Es; cbn [negb].
  - cbn [console_pump]. unfold console_char. unfold is_sentinel in Es. rewrite Es.
    rewrite <- IH. destruct (console_pump st cfg bytes con). reflexivity.
  - cbn [console_pump]. destruct (console_char st cfg c con) as [con1 tr1].
    rewrite IH. reflexivity.
Qed.

(** X2: the echo flag changes what is printed and nothing else: with any
    two configurations the console ends in the same state, dispatches the
    same lines and stores at the same indices; and with [local_echo] off
    the console prints nothing. *)
Theorem echo_changes_only_the_output (st : fanpico_state)
    (cfg cfg' : fanpico_config) (bytes : list byte) (con : console) :
  fst (console_pump st cfg bytes con) = fst (console_pump st cfg' bytes con)
  /\ dispatched (snd (console_pump st cfg bytes con))
     = dispatched (snd (console_pump st cfg' bytes con))
  /\ nul_stores (snd (console_pump st cfg bytes con))
     = nul_stores (snd (console_pump st cfg' bytes con))
  /\ char_stores (snd (console_pump st cfg bytes con))
     = char_stores (snd (console_pump st cfg' bytes con))
  /\ (local_echo cfg = false ->
      occurrences is_printf (snd (console_pump st cfg bytes con)) = 0%nat).
Proof.
  destruct (console_pump_independent st st cfg cfg' bytes con) as (Hs & Hd & Hn & Hc).
  repeat split; try assumption.
  intros Hoff. apply console_pump_no_echo, Hoff.
Qed.

(** X3: a line of 1 to 1023 plain bytes followed by CR or LF, typed into
    an empty buffer, is dispatched as it was typed, exactly once, and the
    buffer is empty afterwards.  Every store of that run is inside the
    array: the characters at 0 .. n-1 and the terminator at n, where n is
    the length of the line. *)
Theorem typed_line_is_dispatched (st : fanpico_state) (cfg : fanpico_config)
    (line : list byte) (c : byte) (con : console) :
  forallb plain line = true ->
  (1 <= length line <= 1023)%nat ->
  c = x0a \/ c = x0d ->
  empty_buffer con ->
  let r := console_pump st cfg (line ++ [c]) con in
  dispatched (snd r) = [line]
  /\ empty_buffer (fst r)
  /\ char_stores (snd r) = seq 0 (length line)
  /\ nul_stores (snd r) = [length line]
  /\ (length line < sizeof_input_buf)%nat.
Proof.
  intros Hall Hlen Hc [Hi Hbuf]. cbv zeta.
  pose proof (console_pump_plain st cfg line con Hall Hbuf) as Hfill.
  cbv zeta in Hfill. rewrite console_pump_app.
  destruct (console_pump st cfg line con) as [con1 tr1]. cbn [fst snd] in Hfill.
  destruct Hfill as (Hb1 & Hi1 & Hlen1 & Hd1 & Hn1 & Hc1);
    [rewrite Hi; unfold sizeof_input_buf; lia|].
  unfold buffered at 2 in Hb1. rewrite Hi, take_0 in Hb1. cbn [app] in Hb1.
  rewrite Hi in Hi1, Hc1. cbn [plus] in Hi1.
  assert (Hwf1 : well_formed con1).
  { repeat split; [exact Hlen1 | rewrite Hi1; unfold sizeof_input_buf; lia |].
    rewrite Hb1. apply forallb_plain_no_nul, Hall. }
  pose proof (console_char_terminator st cfg c con1 Hc Hwf1) as Hterm.
  cbv zeta in Hterm. cbn [console_pump].
  destruct (console_char st cfg c con1) as [con2 tr2]. cbn [fst snd] in *.
  destruct Hterm as (Hi2 & Hlen2 & Hd2 & Hn2 & Hc2); [lia|].
  rewrite app_nil_r, dispatched_app, char_stores_app, nul_stores_app.
  rewrite Hd1, Hd2, Hb1, Hn1, Hn2, Hc1, Hc2, Hi1, app_nil_r.
  split; [reflexivity|]. split; [split; assumption|].
  split; [reflexivity|]. split; [reflexivity|]. unfold sizeof_input_buf. lia.
Qed.

(** X4: rubbing out a whole line: plain bytes followed by at least as many
    backspaces leave the line empty (further backspaces do nothing), so the
    CR that follows dispatches nothing. *)
Theorem backspaces_empty_the_line (st : fanpico_state) (cfg : fanpico_config)
    (line erase : list byte) (con : console) :
  forallb plain line = true ->
  (length line <= 1024)%nat ->
  forallb is_backspace erase = true ->
  (length line <= length erase)%nat ->
  empty_buffer con ->
  let r := console_pump st cfg (line ++ erase ++ [x0d]) con in
  dispatched (snd r) = [] /\ i_ptr (fst r) = 0%nat.
Proof.
  intros Hall Hlen Hbs Hmore [Hi Hbuf]. cbv zeta.
  pose proof (console_pump_plain st cfg line con Hall Hbuf) as Hfill.
  cbv zeta in Hfill. rewrite console_pump_app.
  destruct (console_pump st cfg line con) as [con1 tr1]. cbn [fst snd] in Hfill.
  destruct Hfill as (_ & Hi1 & _ & Hd1 & _);
    [rewrite Hi; unfold sizeof_input_buf; lia|].
  pose proof (console_pump_backspaces st cfg erase Hbs con1) as Hrub.
  cbv zeta in Hrub. rewrite console_pump_app.
  destruct (console_pump st cfg erase con1) as [con2 tr2]. cbn [fst snd] in Hrub.
  destruct Hrub as (Hi2 & _ & Hd2).
  assert (Hz : i_ptr con2 = 0%nat) by lia.
  destruct (terminator_on_empty_line cfg st x0d con2 (or_intror eq_refl) Hz)
    as (Hd3 & Hi3).
  cbn [console_pump].
  destruct (console_char st cfg x0d con2) as [con3 tr3]. cbn [fst snd] in *.
  rewrite !dispatched_app, Hd1, Hd2, Hd3. split; [reflexivity | exact Hi3].
Qed.

(** X5: how the bytes are spread over the iterations does not matter:
    pumping [a] in one iteration and [b] in a later one (whatever the state
    is by then) leaves the console as pumping [a ++ b] at once does, and
    dispatches the same lines in the same order. *)
Theorem pump_in_two_iterations (st st1 st2 : fanpico_state) (cfg : fanpico_config)
    (a b : list byte) (con : console) :
  let r := console_pump st cfg (a ++ b) con in
  let r1 := console_pump st1 cfg a con in
  let r2 := console_pump st2 cfg b (fst r1) in
  fst r = fst r2
  /\ dispatched (snd r) = dispatched (snd r1) ++ dispatched (snd r2).
Proof.
  cbv zeta. rewrite console_pump_app.
  destruct (console_pump_independent st st1 cfg cfg a con) as (Hs1 & Hd1 & _).
  destruct (console_pump st cfg a con) as [c1 t1].
  destruct (console_pump st1 cfg a con) as [c1' t1']. cbn [fst snd] in *. subst c1'.
  destruct (console_pump_independent st st2 cfg cfg b c1) as (Hs2 & Hd2 & _).
  destruct (console_pump st cfg b c1) as [c2 t2].
  destruct (console_pump st2 cfg b c1) as [c2' t2']. cbn [fst snd] in *.
  rewrite dispatched_app. split; congruence.
Qed.

End ConsoleMore.

(** The theorem on typed lines for the line "fan" ended by CR. *)
Lemma typed_line_is_dispatched_witness :
  let r := console_pump Examples.zero_state Examples.cfg0
             (MoreExamples.line_fan ++ [x0d]) Examples.con0 in
  dispatched (snd r) = [MoreExamples.line_fan]
  /\ empty_buffer (fst r)
  /\ char_stores (snd r) = seq 0 3
  /\ nul_stores (snd r) = [3%nat]
  /\ (3 < sizeof_input_buf)%nat.
Proof.
  apply (typed_line_is_dispatched Examples.zero_state Examples.cfg0
           MoreExamples.line_fan x0d Examples.con0).
  - reflexivity.
  - cbn. lia.
  - right. reflexivity.
  - split; vm_compute; reflexivity.
Defined.

(** The theorem on rubbing out for "fan" followed by four backspaces. *)
Lemma backspaces_empty_the_line_witness :
  let r := console_pump Examples.zero_state Examples.cfg0
             (MoreExamples.line_fan ++ [x7f; x08; x7f; x08] ++ [x0d])
             Examples.con0 in
  dispatched (snd r) = [] /\ i_ptr (fst r) = 0%nat.
Proof.
  apply (backspaces_empty_the_line Examples.zero_state Examples.cfg0
           MoreExamples.line_fan [x7f; x08; x7f; x08] Examples.con0).
  - reflexivity.
  - cbn. lia.
  - reflexivity.
  - cbn. lia.
  - split; vm_compute; reflexivity.
Defined.

(* ===================================================================== *)
(** * Results: more on [update_outputs] and [clear_state]                *)
(* ===================================================================== *)

Lemma pwm_settings_app (tr1 tr2 : list event) :
  pwm_settings (tr1 ++ tr2) = pwm_settings tr1 ++ pwm_settings tr2.
Proof.
  induction tr1 as [|ev tr1 IH]; [reflexivity|].
  destruct ev; cbn [app pwm_settings]; rewrite IH; reflexivity.
Qed.

Lemma tacho_settings_app (tr1 tr2 : list event) :
  tacho_settings (tr1 ++ tr2) = tacho_settings tr1 ++ tacho_settings tr2.
Proof.
  induction tr1 as [|ev tr1 IH]; [reflexivity|].
  destruct ev; cbn [app tacho_settings]; rewrite IH; reflexivity.
Qed.

Lemma gate_closed (oldval newval threshold : Q) :
  check_for_change oldval newval threshold = false ->
  (Qabs (newval - oldval) < threshold)%Q.
Proof.
  unfold check_for_change. intros Hg. apply Qnot_le_lt. intros Hle.
  apply Qle_bool_iff in Hle. congruence.
Qed.

Lemma Qabs_self_small (x : Q) : (Qabs (x - x) < 0.1)%Q.
Proof.
  assert (Hz : (x - x == 0)%Q) by ring.
  rewrite Hz. reflexivity.
Qed.

(** A loop that, channel after channel, either leaves an array alone or
    stores a value at the channel's index and hands the same value to a
    driver. *)
Section DriverLoop.
Variable get : fanpico_state -> list Q.
Variable settings : list event -> list (nat * Q).
Variable body : nat -> fanpico_state -> fanpico_state * list event.

Hypothesis settings_app :
  forall tr1 tr2, settings (tr1 ++ tr2) = settings tr1 ++ settings tr2.
Hypothesis settings_nil : settings [] = [].
Hypothesis body_step :
  forall i s,
    (get (fst (body i s)) = get s /\ settings (snd (body i s)) = [])
    \/ (exists v, get (fst (body i s)) = <[i:=v]> (get s)
                  /\ settings (snd (body i s)) = [(i, v)]).

Lemma driver_loop :
  forall n first s,
    let r := for_loop body first n s in
    length (get (fst r)) = length (get s)
    /\ (forall j, (j < first \/ first + n <= j)%nat -> get (fst r) !! j = get s !! j)
    /\ (forall i v, In (i, v) (settings (snd r)) ->
          (first <= i < first + n)%nat
          /\ ((i < length (get s))%nat -> get (fst r) !! i = Some v))
    /\ NoDup (map fst (settings (snd r))).
Proof.
  induction n as [|n IH]; intros first s; cbv zeta.
  - cbn [for_loop fst snd]. rewrite settings_nil.
    split; [reflexivity|]. split; [intros; reflexivity|].
    split; [intros i v Hin; destruct Hin | constructor].
  - cbn [for_loop].
    pose proof (body_step first s) as Hstep.
    destruct (body first s) as [s1 tr1]. cbn [fst snd] in Hstep.
    specialize (IH (S first) s1). cbv zeta in IH.
    destruct (for_loop body (S first) n s1) as [s2 tr2]. cbn [fst snd] in *.
    destruct IH as (Hlen & Hframe & Hset & Hnd).
    rewrite settings_app.
    assert (Hlen1 : length (get s1) = length (get s)).
    { destruct Hstep as [[-> _] | (v & -> & _)]; [reflexivity | apply length_insert]. }
    assert (Hframe1 : forall j, j <> first -> get s1 !! j = get s !! j).
    { intros j Hj. destruct Hstep as [[-> _] | (v & -> & _)]; [reflexivity|].
      apply list_lookup_insert_ne. congruence. }
    split; [congruence|]. split; [|split].
    + intros j Hj. rewrite Hframe by lia. apply Hframe1. lia.
    + intros i v Hin. apply in_app_or in Hin as [Hin | Hin].
      * destruct Hstep as [[_ Hnil] | (w & Hget & Hone)].
        -- rewrite Hnil in Hin. destruct Hin.
        -- rewrite Hone in Hin. destruct Hin as [Heq | []]. inversion Heq; subst i w.
           split; [lia|]. intros Hlt. rewrite Hframe by lia. rewrite Hget.
           apply list_lookup_insert_eq. exact Hlt.
      * destruct (Hset i v Hin) as [Hrange Hval]. split; [lia|].
        rewrite Hlen1 in Hval. exact Hval.
    + rewrite map_app. apply NoDup_app. split; [|split].
      * destruct Hstep as [[_ ->] | (w & _ & ->)]; cbn; [constructor|].
        apply NoDup_singleton.
      * intros i Hi1 Hi2.
        apply list_elem_of_In, in_map_iff in Hi2 as ((i' & v) & <- & Hin2).
        destruct (Hset i' v Hin2) as [Hrange _]. cbn [fst] in *.
        destruct Hstep as [[_ Hnil] | (w & _ & Hone)].
        -- rewrite Hnil in Hi1. cbn in Hi1. apply elem_of_nil in Hi1. exact Hi1.
        -- rewrite Hone in Hi1. cbn in Hi1. apply list_elem_of_singleton in Hi1. lia.
      * exact Hnd.
Qed.

End DriverLoop.

Section OutputsMore.
Context `{Board}.
Variable calculate_pwm_duty : fanpico_state -> fanpico_config -> nat -> Q.
Variable calculate_tacho_freq : fanpico_state -> fanpico_config -> nat -> Q.

Local Abbreviation upd_outputs :=
  (update_outputs calculate_pwm_duty calculate_tacho_freq).

Lemma update_fan_pwm_driver (config : fanpico_config) (i : nat) (s : fanpico_state) :
  let r := update_fan_pwm calculate_pwm_duty config i s in
  (fan_duty (fst r) = fan_duty s /\ pwm_settings (snd r) = [])
  \/ (exists v, fan_duty (fst r) = <[i:=v]> (fan_duty s)
                /\ pwm_settings (snd r) = [(i, v)]).
Proof.
  cbv zeta. unfold update_fan_pwm. destruct (check_for_change _ _ _).
  - right. eexists. split; reflexivity.
  - left. split; reflexivity.
Qed.

Lemma update_mb_tacho_driver (config : fanpico_config) (i : nat) (s : fanpico_state) :
  let r := update_mb_tacho calculate_tacho_freq config i s in
  (mbfan_freq (fst r) = mbfan_freq s /\ tacho_settings (snd r) = [])
  \/ (exists v, mbfan_freq (fst r) = <[i:=v]> (mbfan_freq s)
                /\ tacho_settings (snd r) = [(i, v)]).
Proof.
  cbv zeta. unfold update_mb_tacho. destruct (check_for_change _ _ _).
  - right. eexists. split; reflexivity.
  - left. split; reflexivity.
Qed.

(** What one round of either loop leaves alone. *)
Lemma update_fan_pwm_frame (config : fanpico_config) (i : nat) (s : fanpico_state) :
  let r := update_fan_pwm calculate_pwm_duty config i s in
  same_inputs s (fst r) /\ mbfan_freq (fst r) = mbfan_freq s
  /\ tacho_settings (snd r) = [].
Proof.
  cbv zeta. unfold update_fan_pwm, same_inputs.
  destruct (check_for_change _ _ _); repeat split.
Qed.

Lemma update_mb_tacho_frame (config : fanpico_config) (i : nat) (s : fanpico_state) :
  let r := update_mb_tacho calculate_tacho_freq config i s in
  same_inputs s (fst r) /\ fan_duty (fst r) = fan_duty s
  /\ pwm_settings (snd r) = [].
Proof.
  cbv zeta. unfold update_mb_tacho, same_inputs.
  destruct (check_for_change _ _ _); repeat split.
Qed.

Lemma for_loop_settings_none (settings : list event -> list (nat * Q))
    (body : nat -> fanpico_state -> fanpico_state * list event) :
  (forall tr1 tr2, settings (tr1 ++ tr2) = settings tr1 ++ settings tr2) ->
  settings [] = [] ->
  (forall i s, settings (snd (body i s)) = []) ->
  forall n first s, settings (snd (for_loop body first n s)) = [].
Proof.
  intros Happ Hnil Hbody. induction n as [|n IH]; intros first s; cbn [for_loop];
    [exact Hnil|].
  specialize (Hbody first s). destruct (body first s) as [s1 tr1].
  specialize (IH (S first) s1). destruct (for_loop body (S first) n s1) as [s2 tr2].
  cbn [snd] in *. rewrite Happ, Hbody, IH. reflexivity.
Qed.

Lemma same_inputs_refl (s : fanpico_state) : same_inputs s s.
Proof. repeat split. Qed.

Lemma same_inputs_trans (s1 s2 s3 : fanpico_state) :
  same_inputs s1 s2 -> same_inputs s2 s3 -> same_inputs s1 s3.
Proof. intros (? & ? & ?) (? & ? & ?). repeat split; congruence. Qed.

Lemma for_loop_same_inputs (body : nat -> fanpico_state -> fanpico_state * list event) :
  (forall i s, same_inputs s (fst (body i s))) ->
  forall n first s, same_inputs s (fst (for_loop body first n s)).
Proof.
  intros Hbody. induction n as [|n IH]; intros first s; cbn [for_loop];
    [apply same_inputs_refl|].
  specialize (Hbody first s). destruct (body first s) as [s1 tr1].
  specialize (IH (S first) s1). destruct (for_loop body (S first) n s1) as [s2 tr2].
  cbn [fst] in *. eapply same_inputs_trans; eassumption.
Qed.

(** [update_outputs] taken apart: the state between the two loops. *)
Lemma update_outputs_loops (s : fanpico_state) (config : fanpico_config) :
  let r1 := for_loop (update_fan_pwm calculate_pwm_duty config) 0 FAN_COUNT s in
  let r2 := for_loop (update_mb_tacho calculate_tacho_freq config) 0 MBFAN_COUNT
                     (fst r1) in
  fst (upd_outputs s config) = fst r2
  /\ pwm_settings (snd (upd_outputs s config)) = pwm_settings (snd r1)
  /\ tacho_settings (snd (upd_outputs s config)) = tacho_settings (snd r2)
  /\ same_inputs s (fst r1) /\ same_inputs (fst r1) (fst r2)
  /\ mbfan_freq (fst r1) = mbfan_freq s
  /\ fan_duty (fst r2) = fan_duty (fst r1).
Proof.
  cbv zeta. unfold update_outputs.
  pose proof (for_loop_settings_none tacho_settings _ tacho_settings_app eq_refl
                (fun i s0 => proj2 (proj2 (update_fan_pwm_frame config i s0)))
                FAN_COUNT 0%nat s) as Ht1.
  pose proof (for_loop_same_inputs _
                (fun i s0 => proj1 (update_fan_pwm_frame config i s0))
                FAN_COUNT 0%nat s) as Hi1.
  pose proof (for_loop_keeps mbfan_freq _
                (fun i s0 => proj1 (proj2 (update_fan_pwm_frame config i s0)))
                FAN_COUNT 0%nat s) as Hf1.
  destruct (for_loop (update_fan_pwm _ _) 0 FAN_COUNT s) as [s1 tr1].
  cbn [fst snd] in *.
  pose proof (for_loop_settings_none pwm_settings _ pwm_settings_app eq_refl
                (fun i s0 => proj2 (proj2 (update_mb_tacho_frame config i s0)))
                MBFAN_COUNT 0%nat s1) as Hp2.
  pose proof (for_loop_same_inputs _
                (fun i s0 => proj1 (update_mb_tacho_frame config i s0))
                MBFAN_COUNT 0%nat s1) as Hi2.
  pose proof (for_loop_keeps fan_duty _
                (fun i s0 => proj1 (proj2 (update_mb_tacho_frame config i s0)))
                MBFAN_COUNT 0%nat s1) as Hf2.
  destruct (for_loop (update_mb_tacho _ _) 0 MBFAN_COUNT s1) as [s2 tr2].
  cbn [fst snd pwm_settings tacho_settings] in *.
  rewrite pwm_settings_app, tacho_settings_app, Hp2, Ht1, app_nil_r.
  repeat (split; [first [reflexivity | assumption]|]). assumption.
Qed.

(** X6: [update_outputs] writes the two output arrays only: the sampled
    inputs ([mbfan_duty], [fan_freq], [temp]) come out as they went in, and
    the output arrays keep their lengths. *)
Theorem update_outputs_keeps_inputs (s : fanpico_state) (config : fanpico_config) :
  same_inputs s (fst (upd_outputs s config))
  /\ length (fan_duty (fst (upd_outputs s config))) = length (fan_duty s)
  /\ length (mbfan_freq (fst (upd_outputs s config))) = length (mbfan_freq s).
Proof.
  destruct (update_outputs_loops s config) as (-> & _ & _ & Hi1 & Hi2 & Hf1 & Hf2).
  destruct (driver_loop fan_duty pwm_settings _ pwm_settings_app eq_refl
              (update_fan_pwm_driver config) FAN_COUNT 0%nat s) as (Hl1 & _).
  destruct (driver_loop mbfan_freq tacho_settings _ tacho_settings_app eq_refl
              (update_mb_tacho_driver config) MBFAN_COUNT 0%nat
              (fst (for_loop (update_fan_pwm calculate_pwm_duty config) 0 FAN_COUNT s)))
    as (Hl2 & _).
  split; [eapply same_inputs_trans; eassumption|]. split; congruence.
Qed.

(** X7: the state remembers what the hardware was given.  Each value handed
    to the PWM driver or to the tacho driver by [update_outputs] is for a
    channel of the board, is handed over at most once per channel, and is
    the value the state holds for that channel afterwards. *)
Theorem update_outputs_state_mirrors_drivers (s : fanpico_state)
    (config : fanpico_config) :
  let r := upd_outputs s config in
  (forall i v, In (i, v) (pwm_settings (snd r)) ->
     (i < FAN_COUNT)%nat
     /\ ((i < length (fan_duty s))%nat -> fan_duty (fst r) !! i = Some v))
  /\ (forall i v, In (i, v) (tacho_settings (snd r)) ->
        (i < MBFAN_COUNT)%nat
        /\ ((i < length (mbfan_freq s))%nat -> mbfan_freq (fst r) !! i = Some v))
  /\ NoDup (map fst (pwm_settings (snd r)))
  /\ NoDup (map fst (tacho_settings (snd r))).
Proof.
  cbv zeta.
  destruct (update_outputs_loops s config) as (-> & -> & -> & _ & _ & Hf1 & Hf2).
  destruct (driver_loop fan_duty pwm_settings _ pwm_settings_app eq_refl
              (update_fan_pwm_driver config) FAN_COUNT 0%nat s)
    as (_ & _ & Hset1 & Hnd1).
  destruct (driver_loop mbfan_freq tacho_settings _ tacho_settings_app eq_refl
              (update_mb_tacho_driver config) MBFAN_COUNT 0%nat
              (fst (for_loop (update_fan_pwm calculate_pwm_duty config) 0 FAN_COUNT s)))
    as (_ & _ & Hset2 & Hnd2).
  cbv zeta in *. split; [|split; [|split; assumption]].
  - intros i v Hin. destruct (Hset1 i v Hin) as [Hi Hv]. split; [lia|].
    intros Hlt. rewrite Hf2. apply Hv, Hlt.
  - intros i v Hin. destruct (Hset2 i v Hin) as [Hi Hv]. split; [lia|].
    intros Hlt. apply Hv. rewrite Hf1. exact Hlt.
Qed.

End OutputsMore.

Section OutputsSettle.
Context `{Board}.
Variable calculate_pwm_duty : fanpico_state -> fanpico_config -> nat -> Q.
Variable calculate_tacho_freq : fanpico_state -> fanpico_config -> nat -> Q.
Variable config : fanpico_config.

Local Abbreviation upd_outputs :=
  (update_outputs calculate_pwm_duty calculate_tacho_freq).

Lemma elem_lookup (a b : list Q) (i : nat) : a !! i = b !! i -> elem a i = elem b i.
Proof. intros Heq. unfold elem. rewrite !nth_lookup, Heq. reflexivity. Qed.

Lemma elem_insert_eq (a : list Q) (i : nat) (v : Q) :
  (i < length a)%nat -> elem (<[i:=v]> a) i = v.
Proof.
  intros Hlt. unfold elem. rewrite nth_lookup, list_lookup_insert_eq by exact Hlt.
  reflexivity.
Qed.

(** After the fan loop every channel it went over is within 0.1 of what the
    fan curve computes, provided the curve reads the inputs only. *)
Lemma fan_loop_settles :
  (forall s s' i, same_inputs s s' ->
     calculate_pwm_duty s config i = calculate_pwm_duty s' config i) ->
  forall n first s,
    let r := for_loop (update_fan_pwm calculate_pwm_duty config) first n s in
    forall i, (first <= i < first + n)%nat -> (i < length (fan_duty s))%nat ->
      (Qabs (calculate_pwm_duty s config i - elem (fan_duty (fst r)) i) < 0.1)%Q.
Proof.
  intros Hcurve. induction n as [|n IH]; intros first s; cbv zeta; [intros; lia|].
  intros i Hi Hlen. cbn [for_loop].
  pose proof (update_fan_pwm_frame calculate_pwm_duty config first s) as Hfr.
  cbv zeta in Hfr. destruct Hfr as (Hin1 & _ & _).
  assert (Hstep : update_fan_pwm calculate_pwm_duty config first s
                  = if check_for_change (elem (fan_duty s) first)
                         (calculate_pwm_duty s config first) 0.1
                    then (set_fan_duty first (calculate_pwm_duty s config first) s,
                          [log_msg LOG_INFO "fan%d: Set output PWM %.1f%% --> %.1f%%";
                           set_pwm_duty_cycle first (calculate_pwm_duty s config first)])
                    else (s, [])) by reflexivity.
  destruct (update_fan_pwm calculate_pwm_duty config first s) as [s1 tr1].
  cbn [fst] in Hin1.
  specialize (IH (S first) s1). cbv zeta in IH.
  destruct (driver_loop fan_duty pwm_settings _ pwm_settings_app eq_refl
              (update_fan_pwm_driver calculate_pwm_duty config) n (S first) s1)
    as (_ & Hframe & _). cbv zeta in Hframe.
  destruct (for_loop (update_fan_pwm calculate_pwm_duty config) (S first) n s1)
    as [s2 tr2]. cbn [fst] in *.
  assert (Hlen1 : length (fan_duty s1) = length (fan_duty s)).
  { destruct (check_for_change _ _ _); inversion Hstep; subst;
      [apply length_insert | reflexivity]. }
  destruct (decide (i = first)) as [-> | Hne].
  - rewrite (elem_lookup _ _ first (Hframe first (or_introl (Nat.lt_succ_diag_r first)))).
    destruct (check_for_change _ _ _) eqn:Hgate; inversion Hstep; subst.
    + cbn [set_fan_duty fan_duty]. rewrite elem_insert_eq by exact Hlen.
      apply Qabs_self_small.
    + apply gate_closed, Hgate.
  - rewrite (Hcurve s s1 i Hin1). apply IH; [lia | rewrite Hlen1; exact Hlen].
Qed.

Lemma mb_loop_settles :
  (forall s s' i, same_inputs s s' ->
     calculate_tacho_freq s config i = calculate_tacho_freq s' config i) ->
  forall n first s,
    let r := for_loop (update_mb_tacho calculate_tacho_freq config) first n s in
    forall i, (first <= i < first + n)%nat -> (i < length (mbfan_freq s))%nat ->
      (Qabs (calculate_tacho_freq s config i - elem (mbfan_freq (fst r)) i) < 0.1)%Q.
Proof.
  intros Hcurve. induction n as [|n IH]; intros first s; cbv zeta; [intros; lia|].
  intros i Hi Hlen. cbn [for_loop].
  pose proof (update_mb_tacho_frame calculate_tacho_freq config first s) as Hfr.
  cbv zeta in Hfr. destruct Hfr as (Hin1 & _ & _).
  assert (Hstep : update_mb_tacho calculate_tacho_freq config first s
                  = if check_for_change (elem (mbfan_freq s) first)
                         (calculate_tacho_freq s config first) 0.1
                    then (set_mbfan_freq first (calculate_tacho_freq s config first) s,
                          [log_msg LOG_INFO "mbfan%d: Set output Tacho %.2fHz --> %.2fHz";
                           set_tacho_output_freq first
                             (calculate_tacho_freq s config first)])
                    else (s, [])) by reflexivity.
  destruct (update_mb_tacho calculate_tacho_freq config first s) as [s1 tr1].
  cbn [fst] in Hin1.
  specialize (IH (S first) s1). cbv zeta in IH.
  destruct (driver_loop mbfan_freq tacho_settings _ tacho_settings_app eq_refl
              (update_mb_tacho_driver calculate_tacho_freq config) n (S first) s1)
    as (_ & Hframe & _). cbv zeta in Hframe.
  destruct (for_loop (update_mb_tacho calculate_tacho_freq config) (S first) n s1)
    as [s2 tr2]. cbn [fst] in *.
  assert (Hlen1 : length (mbfan_freq s1) = length (mbfan_freq s)).
  { destruct (check_for_change _ _ _); inversion Hstep; subst;
      [apply length_insert | reflexivity]. }
  destruct (decide (i = first)) as [-> | Hne].
  - rewrite (elem_lookup _ _ first (Hframe first (or_introl (Nat.lt_succ_diag_r first)))).
    destruct (check_for_change _ _ _) eqn:Hgate; inversion Hstep; subst.
    + cbn [set_mbfan_freq mbfan_freq]. rewrite elem_insert_eq by exact Hlen.
      apply Qabs_self_small.
    + apply gate_closed, Hgate.
  - rewrite (Hcurve s s1 i Hin1). apply IH; [lia | rewrite Hlen1; exact Hlen].
Qed.

(** X8: no chatter.  When the fan curves read only the sampled inputs and
    every channel of the board has its array element, a second
    [update_outputs] right after the first finds every output within 0.1 of
    its computed value: it changes nothing and calls no driver. *)
Theorem update_outputs_twice (s : fanpico_state) :
  (forall s1 s2 i, same_inputs s1 s2 ->
     calculate_pwm_duty s1 config i = calculate_pwm_duty s2 config i) ->
  (forall s1 s2 i, same_inputs s1 s2 ->
     calculate_tacho_freq s1 config i = calculate_tacho_freq s2 config i) ->
  (FAN_COUNT <= length (fan_duty s))%nat ->
  (MBFAN_COUNT <= length (mbfan_freq s))%nat ->
  upd_outputs (fst (upd_outputs s config)) config
  = (fst (upd_outputs s config), [call "update_outputs"]).
Proof.
  intros Hpwm Htacho Hfan Hmb.
  destruct (update_outputs_loops calculate_pwm_duty calculate_tacho_freq s config)
    as (Hst & _ & _ & Hi1 & Hi2 & Hf1 & Hf2).
  cbv zeta in *. rewrite Hst.
  set (r1 := for_loop (update_fan_pwm calculate_pwm_duty config) 0 FAN_COUNT s) in *.
  set (r2 := for_loop (update_mb_tacho calculate_tacho_freq config) 0 MBFAN_COUNT
                      (fst r1)) in *.
  apply update_outputs_idle.
  - intros i Hi. rewrite Hf2.
    rewrite <- (Hpwm s (fst r2) i (same_inputs_trans _ _ _ Hi1 Hi2)).
    apply (fan_loop_settles Hpwm FAN_COUNT 0%nat s); lia.
  - intros i Hi. rewrite <- (Htacho (fst r1) (fst r2) i Hi2).
    apply (mb_loop_settles Htacho MBFAN_COUNT 0%nat (fst r1)); [lia|].
    rewrite Hf1. lia.
Qed.

End OutputsSettle.

(** The theorem on a second update for the board [board_0804] with every
    fan following the first MB fan duty cycle. *)
Lemma update_outputs_twice_witness :
  let s1 := fst (@update_outputs Examples.board_0804 MoreExamples.pwm_follow
                   MoreExamples.tacho_follow MoreExamples.busy_state Examples.cfg0) in
  @update_outputs Examples.board_0804 MoreExamples.pwm_follow
    MoreExamples.tacho_follow s1 Examples.cfg0
  = (s1, [call "update_outputs"]).
Proof.
  apply (@update_outputs_twice Examples.board_0804 MoreExamples.pwm_follow
           MoreExamples.tacho_follow Examples.cfg0 MoreExamples.busy_state).
  - intros s1 s2 i (Hd & _ & _). unfold MoreExamples.pwm_follow. rewrite Hd.
    reflexivity.
  - intros s1 s2 i (_ & Hf & _). unfold MoreExamples.tacho_follow. rewrite Hf.
    reflexivity.
  - cbn. lia.
  - cbn. lia.
Defined.

Section ClearState.
Context `{Board}.

(** A loop that stores [v] at every index it goes over fills the array
    with [v] from where it starts. *)
Lemma for_loop_fill (get : fanpico_state -> list Q) (v : Q)
    (body : nat -> fanpico_state -> fanpico_state * list event) :
  (forall i s, get (fst (body i s)) = <[i:=v]> (get s)) ->
  forall n first s,
    length (get s) = (first + n)%nat ->
    get (fst (for_loop body first n s)) = take first (get s) ++ replicate n v.
Proof.
  intros Hbody. induction n as [|n IH]; intros first s Hlen; cbn [for_loop].
  - cbn [fst replicate]. rewrite app_nil_r, take_ge by lia. reflexivity.
  - specialize (Hbody first s). destruct (body first s) as [s1 tr1].
    cbn [fst] in Hbody.
    specialize (IH (S first) s1). destruct (for_loop body (S first) n s1) as [s2 tr2].
    cbn [fst] in *. rewrite IH by (rewrite Hbody, length_insert; lia).
    rewrite Hbody.
    rewrite (take_S_r _ _ v) by (apply list_lookup_insert_eq; lia).
    rewrite take_insert_ge by lia. rewrite <- app_assoc. reflexivity.
Qed.

(** X9: [clear_state] resets a state whose arrays have their declared
    lengths to all zeros, whatever it held. *)
Theorem clear_state_zeroes (s : fanpico_state) :
  length (mbfan_duty s) = MBFAN_MAX_COUNT ->
  length (mbfan_freq s) = MBFAN_MAX_COUNT ->
  length (fan_duty s) = FAN_MAX_COUNT ->
  length (fan_freq s) = FAN_MAX_COUNT ->
  length (temp s) = SENSOR_MAX_COUNT ->
  clear_state s = system_state.
Proof.
  intros Hmd Hmf Hfd Hff Ht. unfold clear_state.
  set (b1 := fun (i : nat) (s0 : fanpico_state) =>
               (set_mbfan_freq i 0 (set_mbfan_duty i 0 s0), @nil event)).
  set (b2 := fun (i : nat) (s0 : fanpico_state) =>
               (set_fan_freq i 0 (set_fan_duty i 0 s0), @nil event)).
  set (b3 := fun (i : nat) (s0 : fanpico_state) => (set_temp i 0 s0, @nil event)).
  set (s1 := fst (for_loop b1 0 MBFAN_MAX_COUNT s)).
  set (s2 := fst (for_loop b2 0 FAN_MAX_COUNT s1)).
  set (s3 := fst (for_loop b3 0 SENSOR_MAX_COUNT s2)).
  assert (K1 : mbfan_duty s1 = replicate MBFAN_MAX_COUNT 0%Q
               /\ mbfan_freq s1 = replicate MBFAN_MAX_COUNT 0%Q
               /\ fan_duty s1 = fan_duty s /\ fan_freq s1 = fan_freq s
               /\ temp s1 = temp s).
  { unfold s1. repeat split.
    - rewrite (for_loop_fill mbfan_duty 0%Q b1) by (try reflexivity; exact Hmd).
      reflexivity.
    - rewrite (for_loop_fill mbfan_freq 0%Q b1) by (try reflexivity; exact Hmf).
      reflexivity.
    - apply (for_loop_keeps fan_duty b1). reflexivity.
    - apply (for_loop_keeps fan_freq b1). reflexivity.
    - apply (for_loop_keeps temp b1). reflexivity. }
  destruct K1 as (K1a & K1b & K1c & K1d & K1e).
  assert (K2 : mbfan_duty s2 = mbfan_duty s1 /\ mbfan_freq s2 = mbfan_freq s1
               /\ fan_duty s2 = replicate FAN_MAX_COUNT 0%Q
               /\ fan_freq s2 = replicate FAN_MAX_COUNT 0%Q
               /\ temp s2 = temp s1).
  { unfold s2. repeat split.
    - apply (for_loop_keeps mbfan_duty b2). reflexivity.
    - apply (for_loop_keeps mbfan_freq b2). reflexivity.
    - rewrite (for_loop_fill fan_duty 0%Q b2)
        by (try reflexivity; rewrite K1c; exact Hfd).
      reflexivity.
    - rewrite (for_loop_fill fan_freq 0%Q b2)
        by (try reflexivity; rewrite K1d; exact Hff).
      reflexivity.
    - apply (for_loop_keeps temp b2). reflexivity. }
  destruct K2 as (K2a & K2b & K2c & K2d & K2e).
  assert (K3 : mbfan_duty s3 = mbfan_duty s2 /\ mbfan_freq s3 = mbfan_freq s2
               /\ fan_duty s3 = fan_duty s2 /\ fan_freq s3 = fan_freq s2
               /\ temp s3 = replicate SENSOR_MAX_COUNT 0%Q).
  { unfold s3. repeat split.
    - apply (for_loop_keeps mbfan_duty b3). reflexivity.
    - apply (for_loop_keeps mbfan_freq b3). reflexivity.
    - apply (for_loop_keeps fan_duty b3). reflexivity.
    - apply (for_loop_keeps fan_freq b3). reflexivity.
    - rewrite (for_loop_fill temp 0%Q b3)
        by (try reflexivity; rewrite K2e, K1e; exact Ht).
      reflexivity. }
  destruct K3 as (K3a & K3b & K3c & K3d & K3e).
  unfold system_state. destruct s3 as [a1 a2 a3 a4 a5].
  cbn [mbfan_duty mbfan_freq fan_duty fan_freq temp] in *. congruence.
Qed.

End ClearState.

(** The theorem on [clear_state] for a state of the board [board_0804] with
    something in every array. *)
Lemma clear_state_zeroes_witness :
  @clear_state Examples.board_0804 MoreExamples.busy_state = Examples.zero_state.
Proof.
  apply (@clear_state_zeroes Examples.board_0804 MoreExamples.busy_state);
    reflexivity.
Defined.

(* ===================================================================== *)
(** * Results: boot                                                      *)
(* ===================================================================== *)

Section Boot.
Context `{Board}.

Lemma total_sleep_app (tr1 tr2 : list event) :
  total_sleep (tr1 ++ tr2) = total_sleep tr1 + total_sleep tr2.
Proof.
  induction tr1 as [|ev tr1 IH]; [reflexivity|].
  destruct ev; cbn [app total_sleep]; rewrite IH; lia.
Qed.

(** The wait for the USB console: a quarter of a second per poll that
    finds nothing, for ten polls at most. *)
Lemma wait_usb_sleep (connected : nat -> bool) :
  forall polls i,
    0 <= total_sleep (wait_usb connected i polls) <= 250 * Z.of_nat polls
    /\ pwm_settings (wait_usb connected i polls) = []
    /\ (forall k, (k < polls)%nat ->
          (forall j, (j < k)%nat -> connected (i + j)%nat = false) ->
          connected (i + k)%nat = true ->
          total_sleep (wait_usb connected i polls) = 250 * Z.of_nat k)
    /\ ((forall j, (j < polls)%nat -> connected (i + j)%nat = false) ->
        total_sleep (wait_usb connected i polls) = 250 * Z.of_nat polls).
Proof.
  induction polls as [|polls IH]; intros i; cbn [wait_usb].
  - split; [cbn; lia|]. split; [reflexivity|]. split; [intros k Hk; lia|].
    intros _. reflexivity.
  - destruct (connected i) eqn:Hc.
    + split; [cbn; lia|]. split; [reflexivity|]. split.
      * intros k Hk Hbefore Hat. destruct k as [|k]; [reflexivity|].
        specialize (Hbefore 0%nat). rewrite Nat.add_0_r in Hbefore.
        rewrite Hbefore in Hc by lia. discriminate Hc.
      * intros Hnone. specialize (Hnone 0%nat). rewrite Nat.add_0_r in Hnone.
        rewrite Hnone in Hc by lia. discriminate Hc.
    + destruct (IH (S i)) as (Hb & Hp & Hfirst & Hnone).
      cbn [total_sleep pwm_settings]. split; [lia|]. split; [exact Hp|]. split.
      * intros k Hk Hbefore Hat. destruct k as [|k].
        -- rewrite Nat.add_0_r in Hat. congruence.
        -- rewrite (Hfirst k); [lia | lia | |].
           ++ intros j Hj. replace (S i + j)%nat with (i + S j)%nat by lia.
              apply Hbefore. lia.
           ++ replace (S i + k)%nat with (i + S k)%nat by lia. exact Hat.
      * intros Hall. rewrite Hnone; [lia|].
        intros j Hj. replace (S i + j)%nat with (i + S j)%nat by lia.
        apply Hall. lia.
Qed.

Lemma zero_fans_loop :
  forall n first,
    let tr := snd (for_loop (fun i (u : unit) => (u, [set_pwm_duty_cycle i 0]))
                            first n tt) in
    pwm_settings tr = map (fun i => (i, 0%Q)) (seq first n)
    /\ total_sleep tr = 0.
Proof.
  induction n as [|n IH]; intros first; cbv zeta; cbn [for_loop]; [split; reflexivity|].
  specialize (IH (S first)). cbv zeta in IH.
  destruct (for_loop _ (S first) n tt) as [u tr]. cbn [snd] in *.
  destruct IH as [Hp Hs]. cbn [app pwm_settings total_sleep seq map].
  rewrite Hp, Hs. split; reflexivity.
Qed.

(** X10: boot waits for the USB console for at most 2.5 s and then goes
    on whatever the outcome: it sleeps 250 ms for each poll that finds no
    connection, stops polling at the first one that does, and gives up
    after ten. *)
Theorem boot_waits_at_most_ten_polls (b : boot_env) :
  0 <= total_sleep (snd (boot b)) <= 2500
  /\ (forall k, (k < 10)%nat ->
        (forall j, (j < k)%nat -> stdio_usb_connected b j = false) ->
        stdio_usb_connected b k = true ->
        total_sleep (snd (boot b)) = 250 * Z.of_nat k)
  /\ ((forall j, (j < 10)%nat -> stdio_usb_connected b j = false) ->
      total_sleep (snd (boot b)) = 2500)
  /\ last (snd (setup b))
     = Some (log_msg LOG_NOTICE "System initialization complete.").
Proof.
  assert (Hsleep : total_sleep (snd (boot b))
                   = total_sleep (wait_usb (stdio_usb_connected b) 0 10)).
  { unfold boot, setup, WATCHDOG_ENABLED. cbn [snd].
    destruct (zero_fans_loop FAN_COUNT 0) as [_ Hz]. cbv zeta in Hz.
    rewrite !total_sleep_app, Hz.
    repeat match goal with
           | |- context [if ?c then _ else _] => destruct c
           end; cbn [total_sleep]; lia. }
  rewrite Hsleep.
  destruct (wait_usb_sleep (stdio_usb_connected b) 10 0) as (Hb & _ & Hfirst & Hnone).
  split; [lia|]. split; [exact Hfirst|]. split; [exact Hnone|].
  unfold setup. cbn [snd]. rewrite !app_assoc.
  change [call "setup_tacho_outputs"; call "setup_tacho_inputs";
          log_msg LOG_NOTICE "System initialization complete."]
    with ([call "setup_tacho_outputs"; call "setup_tacho_inputs"]
          ++ [log_msg LOG_NOTICE "System initialization complete."]).
  rewrite app_assoc. apply last_snoc.
Qed.

(** X11: boot programs every fan of the board to a duty cycle of 0, once
    each and in order, and programs no tacho output. *)
Theorem boot_stops_every_fan (b : boot_env) :
  pwm_settings (snd (boot b)) = map (fun i => (i, 0%Q)) (seq 0 FAN_COUNT)
  /\ tacho_settings (snd (boot b)) = [].
Proof.
  unfold boot, setup, WATCHDOG_ENABLED. cbn [snd].
  destruct (zero_fans_loop FAN_COUNT 0) as [Hp _]. cbv zeta in Hp.
  destruct (wait_usb_sleep (stdio_usb_connected b) 10 0) as (_ & Hw & _).
  assert (Ht : forall n first,
            tacho_settings
              (snd (for_loop (fun i (u : unit) => (u, [set_pwm_duty_cycle i 0]))
                             first n tt)) = []).
  { induction n as [|n IH]; intros first; cbn [for_loop]; [reflexivity|].
    specialize (IH (S first)). destruct (for_loop _ (S first) n tt) as [u tr].
    exact IH. }
  assert (Hwt : forall polls i,
            tacho_settings (wait_usb (stdio_usb_connected b) i polls) = []).
  { induction polls as [|polls IH]; intros i; cbn [wait_usb]; [reflexivity|].
    destruct (stdio_usb_connected b i); [reflexivity | apply IH]. }
  rewrite !pwm_settings_app, !tacho_settings_app, Hp, Hw, Ht, Hwt.
  repeat match goal with
         | |- context [if ?c then _ else _] => destruct c
         end; cbn [pwm_settings tacho_settings app]; rewrite ?app_nil_r;
    split; reflexivity.
Qed.

End Boot.

(* ===================================================================== *)
(** * Results: the capture worker                                        *)
(* ===================================================================== *)

Lemma int64_wrap_small (z : Z) : - 2 ^ 63 <= z < 2 ^ 63 -> int64_wrap z = z.
Proof.
  intros Hz. unfold int64_wrap. rewrite Z.mod_small by lia. lia.
Qed.

(** Between early clock readings the [int64_t] deltas are the plain
    differences. *)
Lemma deltas_early (clocks : list Z) :
  forall t0, Forall early_clock (t0 :: clocks) -> deltas t0 clocks = latencies t0 clocks.
Proof.
  induction clocks as [|t clocks IH]; intros t0 Hall; [reflexivity|].
  cbn [deltas latencies].
  apply Forall_cons in Hall as [H0 Hall]. pose proof Hall as Hall'.
  apply Forall_cons in Hall' as [H1 _].
  unfold early_clock in H0, H1. unfold absolute_time_diff_us.
  rewrite int64_wrap_small by lia. rewrite (IH t Hall). reflexivity.
Qed.

(** A running maximum: it bounds every element, and it is the start value
    or one of the elements. *)
Lemma running_maximum (l : list Z) :
  forall a,
    a <= fold_left Z.max l a
    /\ Forall (fun d => d <= fold_left Z.max l a) l
    /\ (fold_left Z.max l a = a \/ In (fold_left Z.max l a) l).
Proof.
  induction l as [|d l IH]; intros a; cbn [fold_left].
  - split; [lia|]. split; [constructor | left; reflexivity].
  - destruct (IH (Z.max a d)) as (Hge & Hall & Hin).
    split; [lia|]. split; [constructor; [lia | exact Hall]|].
    destruct Hin as [Heq | Hin]; [|right; right; exact Hin].
    destruct (Z.max_spec a d) as [[_ Hm] | [_ Hm]]; rewrite Hm in Heq |- *.
    + right. left. symmetry. exact Heq.
    + left. exact Heq.
Qed.

Section CaptureWorker.

Lemma core1_iteration_reads (e : Core1.env) (m : Core1.locals) :
  occurrences (is_call "read_tacho_inputs") (snd (Core1.iteration e m)) = 1%nat
  /\ occurrences (is_call "multicore_lockout_victim_init")
                 (snd (Core1.iteration e m)) = 0%nat
  /\ Core1.t_last (fst (Core1.iteration e m)) = Core1.clock_loop e
  /\ Core1.max_delta (fst (Core1.iteration e m))
     = Z.max (Core1.max_delta m) (Core1.clock_loop e - Core1.t_last m).
Proof.
  unfold Core1.iteration.
  destruct (time_passed (Core1.t_tick m) 60000 (Core1.clock_tick e)) as [[] z];
    destruct (Z.ltb_spec (Core1.max_delta m) (Core1.clock_loop e - Core1.t_last m));
    cbn [fst snd Core1.t_last Core1.max_delta]; repeat split; lia.
Qed.

Lemma core1_loop_reads (es : list Core1.env) :
  forall m,
    occurrences (is_call "read_tacho_inputs") (snd (Core1.loop es m)) = length es
    /\ occurrences (is_call "multicore_lockout_victim_init")
                   (snd (Core1.loop es m)) = 0%nat
    /\ Core1.max_delta (fst (Core1.loop es m))
       = fold_left Z.max (latencies (Core1.t_last m) (map Core1.clock_loop es))
                   (Core1.max_delta m).
Proof.
  induction es as [|e es IH]; intros m; cbn [Core1.loop].
  - cbn. repeat split.
  - destruct (core1_iteration_reads e m) as (Hr & Hi & Hl & Hm).
    destruct (Core1.iteration e m) as [m1 tr1]. cbn [fst snd] in *.
    destruct (IH m1) as (Hr2 & Hi2 & Hmax).
    destruct (Core1.loop es m1) as [m2 tr2]. cbn [fst snd] in *.
    rewrite !occurrences_app, Hr, Hr2, Hi, Hi2.
    cbn [length map latencies fold_left]. repeat split.
    rewrite Hmax, Hl, Hm. reflexivity.
Qed.

(** X12: the capture worker registers as lockout victim once, before its
    loop, and then reads the tacho inputs exactly once in every pass of
    the loop, whatever the clock shows. *)
Theorem core1_reads_tacho_every_pass (t0 : Z) (es : list Core1.env) :
  occurrences (is_call "read_tacho_inputs") (snd (Core1.core1_main t0 es))
  = length es
  /\ occurrences (is_call "multicore_lockout_victim_init")
                 (snd (Core1.core1_main t0 es)) = 1%nat
  /\ (exists tr, snd (Core1.core1_main t0 es)
                 = [log_msg LOG_INFO "core1: started...";
                    call "multicore_lockout_victim_init"] ++ tr
                 /\ occurrences (is_call "read_tacho_inputs") tr = length es).
Proof.
  unfold Core1.core1_main, Core1.start.
  destruct (core1_loop_reads es (Core1.mk_locals t0 t0 0)) as (Hr & Hi & _).
  destruct (Core1.loop es (Core1.mk_locals t0 t0 0)) as [m tr]. cbn [fst snd] in *.
  rewrite !occurrences_app, Hr, Hi. repeat split.
  exists tr. split; [reflexivity | exact Hr].
Qed.

(** X13: [max_delta] of the capture worker is the running maximum of
    [delta].  While the clock readings stay below 2^63 microseconds, so
    that the 64-bit difference does not wrap, it is after any number of
    passes the largest of 0 and the [delta]s of all passes so far: no pass
    took longer, and unless it is still 0 some pass took exactly that
    long. *)
Theorem core1_max_delta_is_running_maximum (t0 : Z) (es : list Core1.env) :
  Forall early_clock (t0 :: map Core1.clock_loop es) ->
  let ds := deltas t0 (map Core1.clock_loop es) in
  let r := Core1.max_delta (fst (Core1.core1_main t0 es)) in
  r = fold_left Z.max ds 0
  /\ Forall (fun d => d <= r) ds
  /\ (r = 0 \/ In r ds).
Proof.
  intros Hearly. cbv zeta. rewrite (deltas_early _ _ Hearly).
  unfold Core1.core1_main, Core1.start.
  destruct (core1_loop_reads es (Core1.mk_locals t0 t0 0)) as (_ & _ & Hmax).
  destruct (Core1.loop es (Core1.mk_locals t0 t0 0)) as [m tr]. cbn [fst snd] in *.
  rewrite Hmax.
  destruct (running_maximum (latencies t0 (map Core1.clock_loop es)) 0)
    as (_ & Hall & Hin).
  split; [reflexivity|]. split; assumption.
Qed.

End CaptureWorker.

(** The theorem on the running maximum for two passes of 100 us and 50 us
    after a start at 100 us: [max_delta] is 100. *)
Lemma core1_max_delta_is_running_maximum_witness :
  let ds := deltas 100 (map Core1.clock_loop MoreExamples.core1_passes) in
  let r := Core1.max_delta (fst (Core1.core1_main 100 MoreExamples.core1_passes)) in
  r = fold_left Z.max ds 0
  /\ Forall (fun d => d <= r) ds
  /\ (r = 0 \/ In r ds).
Proof.
  apply (core1_max_delta_is_running_maximum 100 MoreExamples.core1_passes).
  cbn [map MoreExamples.core1_passes Core1.clock_loop].
  repeat (apply List.Forall_cons; [split; [lia | reflexivity]|]).
  apply List.Forall_nil.
Defined.

(* ===================================================================== *)
(** * Results: invariants of every run of [main]                         *)
(* ===================================================================== *)

Lemma quiet_no_store (tr : list event) :
  Forall (fun ev => quiet ev = true) tr ->
  char_stores tr = [] /\ nul_stores tr = [].
Proof.
  induction 1 as [|ev tr Hev _ [IH1 IH2]]; [split; reflexivity|].
  destruct ev; cbn [char_stores nul_stores]; try (split; assumption).
  discriminate Hev.
Qed.

Lemma console_pump_store_bounds (cfg : fanpico_config) (st : fanpico_state)
    (bytes : list byte) :
  forall con : console,
    well_formed con ->
    Forall (fun idx => (idx < sizeof_input_buf)%nat)
           (char_stores (snd (console_pump st cfg bytes con)))
    /\ Forall (fun idx => (idx <= sizeof_input_buf)%nat)
              (nul_stores (snd (console_pump st cfg bytes con))).
Proof.
  induction bytes as [|c bytes IH]; intros con Hwf; cbn [console_pump].
  - split; constructor.
  - destruct (console_char_store_bounds cfg st c con Hwf) as [Hc1 Hn1].
    destruct (console_char_well_formed cfg st c con Hwf) as [Hwf1 _].
    destruct (console_char st cfg c con) as [con1 tr1]. cbn [fst snd] in *.
    destruct (IH con1 Hwf1) as [Hc2 Hn2].
    destruct (console_pump st cfg bytes con1) as [con2 tr2]. cbn [fst snd] in *.
    rewrite char_stores_app, nul_stores_app.
    split; apply Forall_app; split; assumption.
Qed.

Section RunInvariants.
Context `{Board}.
Variable calculate_pwm_duty : fanpico_state -> fanpico_config -> nat -> Q.
Variable calculate_tacho_freq : fanpico_state -> fanpico_config -> nat -> Q.
Variable cfg : fanpico_config.

Local Abbreviation iter := (iteration calculate_pwm_duty calculate_tacho_freq cfg).
Local Abbreviation sched := (scheduler calculate_pwm_duty calculate_tacho_freq cfg).
Local Abbreviation run := (main calculate_pwm_duty calculate_tacho_freq cfg).
Local Abbreviation upd_outputs :=
  (update_outputs calculate_pwm_duty calculate_tacho_freq).

Lemma scheduler_latency (es : list env) :
  forall m,
    max_delta (fst (sched es m))
    = fold_left Z.max (latencies (t_last m) (map clock_loop es)) (max_delta m).
Proof.
  induction es as [|e es IH]; intros m; cbn [scheduler]; [reflexivity|].
  destruct (iteration_anatomy calculate_pwm_duty calculate_tacho_freq cfg e m)
    as (trp & _ & Hl & Hm & _).
  destruct (iter e m) as [m1 tr1]. cbn [fst snd] in *.
  specialize (IH m1).
  destruct (sched es m1) as [m2 tr2]. cbn [fst snd] in *.
  cbn [map latencies fold_left]. rewrite IH, Hl, Hm. f_equal.
  destruct (Z.ltb_spec (max_delta m) (clock_loop e - t_last m)); lia.
Qed.

Lemma next_led_state_binary (l : Z) :
  next_led_state cfg l = 0 \/ next_led_state cfg l = 1.
Proof.
  unfold next_led_state.
  destruct (led_mode cfg =? 0); [destruct (0 <? l); auto|].
  destruct (led_mode cfg =? 1); auto.
Qed.

Lemma scheduler_led_state (es : list env) :
  forall m,
    led_state m = 0 \/ led_state m = 1 ->
    led_state (fst (sched es m)) = 0 \/ led_state (fst (sched es m)) = 1.
Proof.
  induction es as [|e es IH]; intros m Hm; cbn [scheduler]; [exact Hm|].
  destruct (iteration_anatomy calculate_pwm_duty calculate_tacho_freq cfg e m)
    as (trp & _ & _ & _ & Hled & _).
  destruct (iter e m) as [m1 tr1]. cbn [fst snd] in *.
  specialize (IH m1). destruct (sched es m1) as [m2 tr2]. cbn [fst snd] in *.
  apply IH. rewrite Hled.
  destruct (fst (time_passed (t_led m) 1000 (clock_led e)));
    [apply next_led_state_binary | exact Hm].
Qed.

Lemma iteration_store_bounds (e : env) (m : main_locals) :
  well_formed (con m) ->
  well_formed (con (fst (iter e m)))
  /\ Forall (fun idx => (idx < sizeof_input_buf)%nat)
            (char_stores (snd (iter e m)))
  /\ Forall (fun idx => (idx <= sizeof_input_buf)%nat)
            (nul_stores (snd (iter e m))).
Proof.
  intros Hwf.
  split; [exact (proj1 (iteration_console calculate_pwm_duty calculate_tacho_freq
                          cfg e m Hwf))|].
  destruct (iteration_shape calculate_pwm_duty calculate_tacho_freq cfg e m)
    as (trp & Htr & _ & _ & _ & Hq).
  cbv zeta in Htr. rewrite Htr, !char_stores_app, !nul_stores_app.
  destruct (quiet_no_store trp Hq) as [-> ->].
  assert (Ho : forall tr,
             tr = (if runs_outputs e m
                   then log_msg LOG_DEBUG "Updating output signals."
                        :: snd (upd_outputs (before_outputs e m) cfg)
                   else []) ->
             char_stores tr = [] /\ nul_stores tr = []).
  { intros tr ->. destruct (runs_outputs e m); [|split; reflexivity].
    destruct (update_outputs_shape calculate_pwm_duty calculate_tacho_freq
                (before_outputs e m) cfg) as (tr & -> & Hqo & _).
    cbn [char_stores nul_stores]. apply quiet_no_store, Hqo. }
  destruct (Ho _ eq_refl) as [-> ->].
  cbn [char_stores nul_stores app]. rewrite !app_nil_r.
  apply console_pump_store_bounds, Hwf.
Qed.

Lemma scheduler_store_bounds (es : list env) :
  forall m,
    well_formed (con m) ->
    well_formed (con (fst (sched es m)))
    /\ Forall (fun idx => (idx < sizeof_input_buf)%nat)
              (char_stores (snd (sched es m)))
    /\ Forall (fun idx => (idx <= sizeof_input_buf)%nat)
              (nul_stores (snd (sched es m))).
Proof.
  induction es as [|e es IH]; intros m Hwf; cbn [scheduler].
  - split; [exact Hwf | split; constructor].
  - destruct (iteration_store_bounds e m Hwf) as (Hwf1 & Hc1 & Hn1).
    destruct (iter e m) as [m1 tr1]. cbn [fst snd] in *.
    destruct (IH m1 Hwf1) as (Hwf2 & Hc2 & Hn2).
    destruct (sched es m1) as [m2 tr2]. cbn [fst snd] in *.
    rewrite char_stores_app, nul_stores_app.
    split; [exact Hwf2|]. split; apply Forall_app; split; assumption.
Qed.

(** X14: [max_delta] of the scheduler loop is the running maximum of
    [delta].  While the clock readings stay below 2^63 microseconds, so
    that the 64-bit difference does not wrap, it is in every run of [main]
    the largest of 0 and the [delta]s of all iterations so far, the first
    measured from the reading taken before the loop: no iteration took
    longer, and unless it is still 0 some iteration took exactly that
    long. *)
Theorem scheduler_max_delta_is_running_maximum (b : boot_env) (es : list env) :
  Forall early_clock (boot_clock b :: map clock_loop es) ->
  let ds := deltas (boot_clock b) (map clock_loop es) in
  let r := max_delta (fst (run b es)) in
  r = fold_left Z.max ds 0
  /\ Forall (fun d => d <= r) ds
  /\ (r = 0 \/ In r ds).
Proof.
  intros Hearly. cbv zeta. rewrite (deltas_early _ _ Hearly).
  destruct (main_trace calculate_pwm_duty calculate_tacho_freq cfg b es) as [_ ->].
  rewrite (scheduler_latency es (fst (boot b))).
  change (max_delta (fst (boot b))) with 0.
  change (t_last (fst (boot b))) with (boot_clock b).
  destruct (running_maximum (latencies (boot_clock b) (map clock_loop es)) 0)
    as (_ & Hall & Hin).
  split; [reflexivity|]. split; assumption.
Qed.

(** X15: [led_state] is 0 or 1 after any number of iterations, whatever
    the LED mode of the configuration. *)
Theorem led_state_is_binary (b : boot_env) (es : list env) :
  led_state (fst (run b es)) = 0 \/ led_state (fst (run b es)) = 1.
Proof.
  destruct (main_trace calculate_pwm_duty calculate_tacho_freq cfg b es) as [_ ->].
  apply scheduler_led_state. left. reflexivity.
Qed.

(** X16: the console of a run of [main] keeps its cursor within 0..1024
    and no NUL among the buffered characters.  Every typed character is
    stored inside the 1024 bytes of [input_buf]; every terminator is
    stored at an index of at most 1024. *)
Theorem console_stores_stay_in_bounds (b : boot_env) (es : list env) :
  well_formed (con (fst (run b es)))
  /\ Forall (fun idx => (idx < sizeof_input_buf)%nat)
            (char_stores (snd (run b es)))
  /\ Forall (fun idx => (idx <= sizeof_input_buf)%nat)
            (nul_stores (snd (run b es))).
Proof.
  destruct (main_trace calculate_pwm_duty calculate_tacho_freq cfg b es)
    as [Htr Hst].
  rewrite Htr, Hst, char_stores_app, nul_stores_app.
  destruct (boot_shape b)
    as (tr0 & Hboot & Hq0).
  rewrite Hboot, char_stores_app, nul_stores_app.
  destruct (quiet_no_store tr0 Hq0) as [-> ->].
  cbn [char_stores nul_stores app].
  apply scheduler_store_bounds. unfold boot. cbn [fst con].
  apply empty_buffer_well_formed. split; [reflexivity|]. cbn [input_buf].
  apply length_resize.
Qed.

End RunInvariants.

(** The theorem on the running maximum for two iterations of 100 us and
    50 us after a boot at 100 us on the board [board_0804]. *)
Lemma scheduler_max_delta_is_running_maximum_witness :
  let es := [MoreExamples.env_idle; MoreExamples.env_idle_next] in
  let ds := deltas 100 (map clock_loop es) in
  let r := max_delta (fst (@main Examples.board_0804 Examples.pwm_zero
                             Examples.tacho_quarter Examples.cfg0
                             MoreExamples.boot_early es)) in
  r = fold_left Z.max ds 0
  /\ Forall (fun d => d <= r) ds
  /\ (r = 0 \/ In r ds).
Proof.
  apply (@scheduler_max_delta_is_running_maximum Examples.board_0804
           Examples.pwm_zero Examples.tacho_quarter Examples.cfg0
           MoreExamples.boot_early
           [MoreExamples.env_idle; MoreExamples.env_idle_next]).
  cbn [map MoreExamples.env_idle MoreExamples.env_idle_next clock_loop
       MoreExamples.boot_early boot_clock].
  repeat (apply List.Forall_cons; [split; [lia | reflexivity]|]).
  apply List.Forall_nil.
Defined.

(* ===================================================================== *)
(** * Results: what one iteration does to the outputs and the samples    *)
(* ===================================================================== *)

Lemma periodic_no_settings (tr : list event) :
  Forall (fun ev => periodic_event ev = true) tr ->
  pwm_settings tr = [] /\ tacho_settings tr = [].
Proof.
  induction 1 as [|ev tr Hev _ [IH1 IH2]]; [split; reflexivity|].
  destruct ev; cbn [pwm_settings tacho_settings]; try (split; assumption);
    discriminate Hev.
Qed.

Lemma console_no_settings (tr : list event) :
  Forall (fun ev => console_event ev = true) tr ->
  pwm_settings tr = [] /\ tacho_settings tr = [].
Proof.
  induction 1 as [|ev tr Hev _ [IH1 IH2]]; [split; reflexivity|].
  destruct ev; cbn [pwm_settings tacho_settings]; try (split; assumption);
    discriminate Hev.
Qed.

Lemma Qabs_self_half (x : Q) : (Qabs (x - x) < 0.5)%Q.
Proof.
  assert (Hz : (x - x == 0)%Q) by ring.
  rewrite Hz. reflexivity.
Qed.

Section IterationEffects.
Context `{Board}.
Variable calculate_pwm_duty : fanpico_state -> fanpico_config -> nat -> Q.
Variable calculate_tacho_freq : fanpico_state -> fanpico_config -> nat -> Q.
Variable cfg : fanpico_config.

Local Abbreviation iter := (iteration calculate_pwm_duty calculate_tacho_freq cfg).
Local Abbreviation upd_outputs :=
  (update_outputs calculate_pwm_duty calculate_tacho_freq).

Lemma read_pwm_input_outputs (e : env) (i : nat) (x : sampling) :
  fan_duty (fst (fst (fst (read_pwm_input e i x)))) = fan_duty (fst (fst x))
  /\ mbfan_freq (fst (fst (fst (read_pwm_input e i x)))) = mbfan_freq (fst (fst x))
  /\ temp (fst (fst (fst (read_pwm_input e i x)))) = temp (fst (fst x)).
Proof.
  destruct x as [[s t] c]. rewrite read_pwm_input_step.
  destruct (duty_gate e s i); repeat split.
Qed.

Lemma read_temperature_outputs (e : env) (i : nat) (x : sampling) :
  fan_duty (fst (fst (fst (read_temperature e i x)))) = fan_duty (fst (fst x))
  /\ mbfan_freq (fst (fst (fst (read_temperature e i x)))) = mbfan_freq (fst (fst x))
  /\ mbfan_duty (fst (fst (fst (read_temperature e i x)))) = mbfan_duty (fst (fst x)).
Proof.
  destruct x as [[s t] c]. rewrite read_temperature_step.
  destruct (temp_gate e s i); repeat split.
Qed.

(** The sampling tasks and the frequency task write neither output array. *)
Lemma before_outputs_keeps (e : env) (m : main_locals) :
  fan_duty (before_outputs e m) = fan_duty (st m)
  /\ mbfan_freq (before_outputs e m) = mbfan_freq (st m)
  /\ mbfan_duty (before_outputs e m) = mbfan_duty (fst (fst (sampled e m)))
  /\ temp (before_outputs e m) = temp (fst (fst (sampled e m))).
Proof.
  assert (Hs : fan_duty (fst (fst (sampled e m))) = fan_duty (st m)
               /\ mbfan_freq (fst (fst (sampled e m))) = mbfan_freq (st m)).
  { unfold sampled.
    pose proof (for_loop_keeps (fun x : sampling => fan_duty (fst (fst x))) _
                  (fun i x => proj1 (read_pwm_input_outputs e i x))
                  MBFAN_COUNT 0%nat (st m, t_set_outputs m, 0)) as Hp1.
    pose proof (for_loop_keeps (fun x : sampling => mbfan_freq (fst (fst x))) _
                  (fun i x => proj1 (proj2 (read_pwm_input_outputs e i x)))
                  MBFAN_COUNT 0%nat (st m, t_set_outputs m, 0)) as Hp2.
    cbn [fst] in Hp1, Hp2.
    destruct (fst (time_passed (t_poll_pwm m) 1500 (clock_pwm e)));
      destruct (fst (time_passed (t_temp m) 10000 (clock_temp e)));
      rewrite ?(for_loop_keeps (fun x : sampling => fan_duty (fst (fst x))) _
                  (fun i x => proj1 (read_temperature_outputs e i x))),
              ?(for_loop_keeps (fun x : sampling => mbfan_freq (fst (fst x))) _
                  (fun i x => proj1 (proj2 (read_temperature_outputs e i x))));
      split; first [assumption | reflexivity]. }
  destruct Hs as [Hs1 Hs2]. unfold before_outputs, update_tacho_input_freq.
  destruct (fst (time_passed (t_poll_tacho m) 2000 (clock_tacho e)));
    [|repeat split; assumption].
  rewrite (for_loop_keeps fan_duty), (for_loop_keeps mbfan_freq),
    (for_loop_keeps mbfan_duty), (for_loop_keeps temp) by reflexivity.
  repeat split; assumption.
Qed.

Lemma update_outputs_same_inputs (s : fanpico_state) :
  same_inputs s (fst (upd_outputs s cfg)).
Proof.
  destruct (update_outputs_loops calculate_pwm_duty calculate_tacho_freq s cfg)
    as (-> & _ & _ & Hi1 & Hi2 & _).
  eapply same_inputs_trans; eassumption.
Qed.

(** The sampled arrays at the end of an iteration are those the sampling
    tasks left. *)
Lemma iteration_samples (e : env) (m : main_locals) :
  mbfan_duty (st (fst (iter e m))) = mbfan_duty (fst (fst (sampled e m)))
  /\ temp (st (fst (iter e m))) = temp (fst (fst (sampled e m))).
Proof.
  destruct (iteration_shape calculate_pwm_duty calculate_tacho_freq cfg e m)
    as (trp & _ & Hst & _).
  cbv zeta in Hst. rewrite Hst.
  destruct (before_outputs_keeps e m) as (_ & _ & Hd & Ht).
  destruct (runs_outputs e m); [|split; assumption].
  destruct (update_outputs_same_inputs (before_outputs e m)) as (Hd' & _ & Ht').
  split; congruence.
Qed.

(** A duty-cycle change rewinds the output timer to 0. *)
Lemma read_pwm_loop_timer (e : env) :
  forall n first s t c,
    count_passing (duty_gate e s) first n <> 0%nat ->
    snd (fst (fst (for_loop (read_pwm_input e) first n (s, t, c)))) = 0.
Proof.
  induction n as [|n IH]; intros first s t c Hcount; [contradiction Hcount; reflexivity|].
  cbn [for_loop count_passing] in *. rewrite read_pwm_input_step.
  destruct (duty_gate e s first) eqn:Hgate.
  - set (s1 := set_mbfan_duty first (roundf (elem (mbfan_pwm_duty e) first)) s).
    pose proof (read_pwm_loop e n (S first) s1 0 (c + 1)) as Hloop. cbv zeta in Hloop.
    specialize (IH (S first) s1 0 (c + 1)).
    destruct (for_loop _ _ _ _) as [[[s2 t2] c2] tr2]. cbn [fst snd] in *.
    destruct (Nat.eq_dec (count_passing (duty_gate e s1) (S first) n) 0%nat) as [Hz | Hnz].
    + destruct Hloop as (_ & Ht & _). exact (Ht Hz).
    + exact (IH Hnz).
  - specialize (IH (S first) s t c Hcount).
    destruct (for_loop _ _ _ _) as [[[s2 t2] c2] tr2]. exact IH.
Qed.

(** X17: an iteration in which no timer has expired, the loop latency is
    no new maximum and no byte is waiting does nothing but refresh the
    watchdog: state, console, LED and every task timer are as before; only
    [t_last] takes the clock reading and [change] is 0. *)
Theorem idle_iteration_only_refreshes (e : env) (m : main_locals) :
  clock_loop e - t_last m <= max_delta m ->
  fst (time_passed (t_network m) 1 (clock_network e)) = false ->
  fst (time_passed (t_led m) 1000 (clock_led e)) = false ->
  fst (time_passed (t_display m) 2000 (clock_display e)) = false ->
  fst (time_passed (t_poll_pwm m) 1500 (clock_pwm e)) = false ->
  fst (time_passed (t_temp m) 10000 (clock_temp e)) = false ->
  fst (time_passed (t_poll_tacho m) 2000 (clock_tacho e)) = false ->
  fst (time_passed (t_set_outputs m) 3000 (clock_outputs e)) = false ->
  queued e = [] ->
  iter e m
  = (mk_locals (st m) (t_poll_pwm m) (t_poll_tacho m) (t_led m) (t_temp m)
               (t_set_outputs m) (t_network m) (clock_loop e) (t_display m)
               (led_state m) (max_delta m) 0 (con m),
     [call "watchdog_update"]).
Proof.
  intros Hdelta H1 H2 H3 H4 H5 H6 H7 Hq.
  unfold iteration, time_passed in *. rewrite Hq.
  apply Z.ltb_ge in Hdelta. rewrite Hdelta.
  repeat match goal with
         | Hc : fst (if ?c then _ else _) = false |- _ =>
             let E := fresh "E" in destruct c eqn:E; [discriminate Hc | clear Hc]
         end.
  repeat first [ progress cbn [negb Z.eqb fst snd console_pump]
               | match goal with E : (_ <=? _) = false |- _ => rewrite E end ].
  reflexivity.
Qed.

(** X18: an iteration that does not invoke [update_outputs] calls neither
    output driver and leaves the two output arrays, [fan_duty] and
    [mbfan_freq], as they were. *)
Theorem no_update_no_driver_call (e : env) (m : main_locals) :
  output_updates (snd (iter e m)) = 0%nat ->
  pwm_settings (snd (iter e m)) = []
  /\ tacho_settings (snd (iter e m)) = []
  /\ fan_duty (st (fst (iter e m))) = fan_duty (st m)
  /\ mbfan_freq (st (fst (iter e m))) = mbfan_freq (st m).
Proof.
  rewrite (output_updates_iteration calculate_pwm_duty calculate_tacho_freq cfg e m).
  intros Hno.
  destruct (iteration_anatomy calculate_pwm_duty calculate_tacho_freq cfg e m)
    as (trp & Htr & Hrest).
  destruct (iteration_shape calculate_pwm_duty calculate_tacho_freq cfg e m)
    as (_ & _ & Hst & _).
  cbv zeta in Htr, Hst. rewrite Htr, Hst.
  destruct (runs_outputs e m); [discriminate Hno|].
  assert (Hp : Forall (fun ev => periodic_event ev = true) trp) by apply Hrest.
  destruct (periodic_no_settings trp Hp) as [Hp1 Hp2].
  destruct (console_no_settings _
              (console_pump_events (before_outputs e m) cfg (queued e) (con m)))
    as [Hc1 Hc2].
  rewrite !pwm_settings_app, !tacho_settings_app, Hp1, Hp2, Hc1, Hc2.
  destruct (before_outputs_keeps e m) as (Hf & Hm & _).
  repeat split; assumption.
Qed.

(** X21: after an iteration in which a sample passed its gate the output
    timer does not hold the time of the update that ran: a duty-cycle
    change rewinds it to 0, and after a temperature change alone it is
    left as it was. *)
Theorem output_timer_after_change (e : env) (m : main_locals) :
  changed_channels e m <> 0%nat ->
  t_set_outputs (fst (iter e m))
  = if fst (time_passed (t_poll_pwm m) 1500 (clock_pwm e))
       && negb (count_passing (duty_gate e (st m)) 0 MBFAN_COUNT =? 0)%nat
    then 0 else t_set_outputs m.
Proof.
  intros Hch.
  destruct (iteration_anatomy calculate_pwm_duty calculate_tacho_freq cfg e m)
    as (trp & _ & _ & _ & _ & Ht & _).
  rewrite Ht. unfold output_timer_after.
  destruct (sampled_changes e m) as (Hc & _). rewrite Hc.
  destruct (Z.eqb_spec (Z.of_nat (changed_channels e m)) 0) as [Hz | _]; [lia|].
  cbn [negb]. unfold sampled.
  assert (Htemp : forall x1 : sampling,
             snd (fst (if fst (time_passed (t_temp m) 10000 (clock_temp e))
                       then fst (for_loop (read_temperature e) 0 SENSOR_COUNT x1)
                       else x1)) = snd (fst x1)).
  { intros [[s1 t1] c1].
    destruct (fst (time_passed (t_temp m) 10000 (clock_temp e))); [|reflexivity].
    pose proof (read_temperature_loop e SENSOR_COUNT 0 s1 t1 c1) as Hl.
    cbv zeta in Hl. apply Hl. }
  rewrite Htemp.
  destruct (fst (time_passed (t_poll_pwm m) 1500 (clock_pwm e))); [|reflexivity].
  cbn [andb].
  destruct (Nat.eqb_spec (count_passing (duty_gate e (st m)) 0 MBFAN_COUNT) 0)
    as [Hz | Hnz]; cbn [negb].
  - pose proof (read_pwm_loop e MBFAN_COUNT 0 (st m) (t_set_outputs m) 0) as Hl.
    cbv zeta in Hl. destruct Hl as (_ & Hkeep & _). exact (Hkeep Hz).
  - apply read_pwm_loop_timer, Hnz.
Qed.

End IterationEffects.

(** The theorem on an idle iteration for the second iteration after a boot
    at 100 us on the board [board_0804]: the first took 100 us, the second
    takes 50 us, and no timer expires in the first millisecond. *)
Lemma idle_iteration_only_refreshes_witness :
  let m1 := fst (@iteration Examples.board_0804 Examples.pwm_zero
                   Examples.tacho_quarter Examples.cfg0 MoreExamples.env_idle
                   (fst (@boot Examples.board_0804 MoreExamples.boot_early))) in
  @iteration Examples.board_0804 Examples.pwm_zero Examples.tacho_quarter
    Examples.cfg0 MoreExamples.env_idle_next m1
  = (mk_locals (st m1) (t_poll_pwm m1) (t_poll_tacho m1) (t_led m1) (t_temp m1)
               (t_set_outputs m1) (t_network m1) 250 (t_display m1)
               (led_state m1) (max_delta m1) 0 (con m1),
     [call "watchdog_update"]).
Proof.
  apply (@idle_iteration_only_refreshes Examples.board_0804 Examples.pwm_zero
           Examples.tacho_quarter Examples.cfg0 MoreExamples.env_idle_next);
    vm_compute; first [reflexivity | discriminate].
Defined.

(** The theorem on an iteration without output update for the first
    iteration after a boot at 100 us on the board [board_0804]. *)
Lemma no_update_no_driver_call_witness :
  let m0 := fst (@boot Examples.board_0804 MoreExamples.boot_early) in
  let r := @iteration Examples.board_0804 Examples.pwm_zero Examples.tacho_quarter
             Examples.cfg0 MoreExamples.env_idle m0 in
  pwm_settings (snd r) = [] /\ tacho_settings (snd r) = []
  /\ fan_duty (st (fst r)) = fan_duty (st m0)
  /\ mbfan_freq (st (fst r)) = mbfan_freq (st m0).
Proof.
  apply (@no_update_no_driver_call Examples.board_0804 Examples.pwm_zero
           Examples.tacho_quarter Examples.cfg0 MoreExamples.env_idle).
  vm_compute. reflexivity.
Defined.

(** The theorem on the output timer for the iteration 20 s after boot on
    the board [board_0804]: two duty cycles change, and the timer ends at
    0. *)
Lemma output_timer_after_change_witness :
  let m0 := fst (@boot Examples.board_0804 Examples.boot0) in
  t_set_outputs (fst (@iteration Examples.board_0804 Examples.pwm_zero
                        Examples.tacho_quarter Examples.cfg0
                        Examples.env_three_changes m0))
  = 0.
Proof.
  apply (@output_timer_after_change Examples.board_0804 Examples.pwm_zero
           Examples.tacho_quarter Examples.cfg0 Examples.env_three_changes).
  vm_compute. discriminate.
Defined.

(* ===================================================================== *)
(** * Results: what the scheduler loop never does                        *)
(* ===================================================================== *)

Lemma loop_event_silent (tr : list event) :
  Forall (fun ev => loop_event ev = true) tr ->
  total_sleep tr = 0
  /\ occurrences is_watchdog_enable tr = 0%nat
  /\ forall f, loop_event (call f) = false -> occurrences (is_call f) tr = 0%nat.
Proof.
  induction 1 as [|ev tr Hev _ (IH1 & IH2 & IH3)];
    [repeat split; reflexivity|].
  split; [|split].
  - destruct ev; cbn [total_sleep]; try exact IH1. discriminate Hev.
  - destruct ev; cbn [occurrences is_watchdog_enable]; try exact IH2.
    discriminate Hev.
  - intros f Hf. cbn [occurrences]. rewrite (IH3 f Hf).
    destruct ev; cbn [is_call]; try reflexivity.
    match goal with
    | |- context [String.eqb f ?g] =>
        destruct (String.eqb_spec f g) as [Heq | _]; [subst; congruence | reflexivity]
    end.
Qed.

Section LoopEvents.
Context `{Board}.
Variable calculate_pwm_duty : fanpico_state -> fanpico_config -> nat -> Q.
Variable calculate_tacho_freq : fanpico_state -> fanpico_config -> nat -> Q.
Variable cfg : fanpico_config.

Local Abbreviation iter := (iteration calculate_pwm_duty calculate_tacho_freq cfg).
Local Abbreviation sched := (scheduler calculate_pwm_duty calculate_tacho_freq cfg).
Local Abbreviation run := (main calculate_pwm_duty calculate_tacho_freq cfg).
Local Abbreviation upd_outputs :=
  (update_outputs calculate_pwm_duty calculate_tacho_freq).

Lemma update_outputs_loop_events (s : fanpico_state) :
  Forall (fun ev => loop_event ev = true) (snd (upd_outputs s cfg)).
Proof.
  unfold update_outputs.
  assert (H1 : forall i s0, Forall (fun ev => loop_event ev = true)
                              (snd (update_fan_pwm calculate_pwm_duty cfg i s0))).
  { intros i s0. unfold update_fan_pwm.
    destruct (check_for_change _ _ _); repeat constructor. }
  assert (H2 : forall i s0, Forall (fun ev => loop_event ev = true)
                              (snd (update_mb_tacho calculate_tacho_freq cfg i s0))).
  { intros i s0. unfold update_mb_tacho.
    destruct (check_for_change _ _ _); repeat constructor. }
  pose proof (for_loop_events _ _ H1 FAN_COUNT 0%nat s) as Hq1.
  destruct (for_loop (update_fan_pwm _ _) 0 FAN_COUNT s) as [s1 tr1].
  pose proof (for_loop_events _ _ H2 MBFAN_COUNT 0%nat s1) as Hq2.
  destruct (for_loop (update_mb_tacho _ _) 0 MBFAN_COUNT s1) as [s2 tr2].
  cbn [fst snd] in *. apply List.Forall_cons; [reflexivity|].
  apply Forall_app. split; assumption.
Qed.

Lemma iteration_loop_events (e : env) (m : main_locals) :
  Forall (fun ev => loop_event ev = true) (snd (iter e m)).
Proof.
  destruct (iteration_anatomy calculate_pwm_duty calculate_tacho_freq cfg e m)
    as (trp & Htr & Hrest).
  cbv zeta in Htr. rewrite Htr.
  assert (Hp : Forall (fun ev => periodic_event ev = true) trp) by apply Hrest.
  apply Forall_app. split.
  { eapply Forall_impl; [exact Hp|]. intros ev Hev. unfold loop_event.
    rewrite Hev. reflexivity. }
  apply Forall_app. split.
  { destruct (runs_outputs e m); [|constructor].
    apply List.Forall_cons; [reflexivity | apply update_outputs_loop_events]. }
  apply Forall_app. split; [|repeat constructor].
  eapply Forall_impl; [apply console_pump_events|]. intros ev Hev.
  cbv beta in Hev. unfold loop_event. rewrite Hev, orb_true_r. reflexivity.
Qed.

Lemma scheduler_loop_events (es : list env) :
  forall m, Forall (fun ev => loop_event ev = true) (snd (sched es m)).
Proof.
  induction es as [|e es IH]; intros m; cbn [scheduler]; [constructor|].
  pose proof (iteration_loop_events e m) as H1.
  destruct (iter e m) as [m1 tr1]. specialize (IH m1).
  destruct (sched es m1) as [m2 tr2]. cbn [snd] in *.
  apply Forall_app. split; assumption.
Qed.

(** X22: the scheduler loop never sleeps and never goes back to
    initialisation.  In every run of [main] all the sleeping is that of
    boot, at most 2.5 s, and the capture worker is launched and the
    configuration read exactly once, both during boot; the loop itself
    emits nothing but the events of its tasks. *)
Theorem loop_never_sleeps_or_reinitialises (b : boot_env) (es : list env) :
  total_sleep (snd (run b es)) = total_sleep (snd (boot b))
  /\ occurrences (is_call "multicore_launch_core1") (snd (run b es)) = 1%nat
  /\ occurrences (is_call "read_config") (snd (run b es)) = 1%nat
  /\ Forall (fun ev => loop_event ev = true) (snd (sched es (fst (boot b)))).
Proof.
  destruct (main_trace calculate_pwm_duty calculate_tacho_freq cfg b es) as [-> _].
  pose proof (scheduler_loop_events es (fst (boot b))) as Hl.
  destruct (loop_event_silent _ Hl) as (Hs & _ & Hc).
  rewrite total_sleep_app, !occurrences_app, Hs,
    (Hc "multicore_launch_core1" eq_refl), (Hc "read_config" eq_refl).
  split; [lia|]. split; [|split; [|exact Hl]].
  - unfold boot, setup, WATCHDOG_ENABLED. cbn [snd].
    rewrite !occurrences_app.
    rewrite (occurrences_none (is_call "multicore_launch_core1")
               (wait_usb (stdio_usb_connected b) 0 10)).
    2:{ generalize 0%nat at 1. generalize 10%nat.
        induction n as [|n IH]; intros i; cbn [wait_usb]; [constructor|].
        destruct (stdio_usb_connected b i); [constructor|].
        constructor; [reflexivity | apply IH]. }
    rewrite (occurrences_none (is_call "multicore_launch_core1")
               (snd (for_loop (fun i (u : unit) => (u, [set_pwm_duty_cycle i 0]))
                              0 FAN_COUNT tt))).
    2:{ apply for_loop_events. intros i u. repeat constructor. }
    repeat match goal with
           | |- context [if ?c then _ else _] => destruct c
           end; reflexivity.
  - unfold boot, setup, WATCHDOG_ENABLED. cbn [snd].
    rewrite !occurrences_app.
    rewrite (occurrences_none (is_call "read_config")
               (wait_usb (stdio_usb_connected b) 0 10)).
    2:{ generalize 0%nat at 1. generalize 10%nat.
        induction n as [|n IH]; intros i; cbn [wait_usb]; [constructor|].
        destruct (stdio_usb_connected b i); [constructor|].
        constructor; [reflexivity | apply IH]. }
    rewrite (occurrences_none (is_call "read_config")
               (snd (for_loop (fun i (u : unit) => (u, [set_pwm_duty_cycle i 0]))
                              0 FAN_COUNT tt))).
    2:{ apply for_loop_events. intros i u. repeat constructor. }
    repeat match goal with
           | |- context [if ?c then _ else _] => destruct c
           end; reflexivity.
Qed.

End LoopEvents.

(* ===================================================================== *)
(** * Results: the sampling loops over IEEE values                       *)
(* ===================================================================== *)

Lemma ieee_check_finite (a b th : Q) :
  IEEE.check_for_change (IEEE.finite a) (IEEE.finite b) th = check_for_change a b th.
Proof. reflexivity. Qed.

Lemma ieee_elem_finite (l : list Q) (i : nat) :
  IEEE.elem (IEEE.finite <$> l) i = IEEE.finite (elem l i).
Proof.
  unfold IEEE.elem, elem. rewrite !nth_lookup, list_lookup_fmap.
  destruct (l !! i); reflexivity.
Qed.

Lemma ieee_elem_lookup (a b : list IEEE.float) (i : nat) :
  a !! i = b !! i -> IEEE.elem a i = IEEE.elem b i.
Proof. intros Heq. unfold IEEE.elem. rewrite !nth_lookup, Heq. reflexivity. Qed.

Lemma ieee_elem_insert_eq (a : list IEEE.float) (i : nat) (v : IEEE.float) :
  (i < length a)%nat -> IEEE.elem (<[i:=v]> a) i = v.
Proof.
  intros Hlt. unfold IEEE.elem.
  rewrite nth_lookup, list_lookup_insert_eq by exact Hlt. reflexivity.
Qed.

Lemma ieee_elem_some (a : list IEEE.float) (i : nat) (v : IEEE.float) :
  a !! i = Some v -> IEEE.elem a i = v.
Proof. intros Hv. unfold IEEE.elem. rewrite nth_lookup, Hv. reflexivity. Qed.

(** A value that was just stored passes no gate against itself: the
    difference is 0, or not a number for an infinity. *)
Lemma ieee_gate_after_store (a : IEEE.float) : IEEE.check_for_change a a 0.5 = false.
Proof.
  destruct a; try reflexivity.
  unfold IEEE.check_for_change, IEEE.sub, IEEE.abs, IEEE.ge.
  apply not_true_is_false. intros Hc. apply Qle_bool_iff in Hc.
  exact (Qlt_not_le _ _ (Qabs_self_half q) Hc).
Qed.

(** A NaN passes no gate, as the new value or as the old one. *)
Lemma ieee_gate_nan (a : IEEE.float) (th : Q) :
  IEEE.check_for_change a IEEE.NaN th = false
  /\ IEEE.check_for_change IEEE.NaN a th = false.
Proof. destruct a; split; reflexivity. Qed.

Lemma integers_within_half (z z' : Z) :
  (Qabs (inject_Z z' - inject_Z z) < 0.5)%Q -> z' = z.
Proof.
  intros Hnear. apply Qabs_Qlt_condition in Hnear as [Hlo Hhi].
  unfold Qlt, Qminus, Qplus, Qopp, inject_Z in Hlo, Hhi. cbn in Hlo, Hhi. lia.
Qed.

(** [roundf] gives a whole number, or the infinity it was given; it gives
    a NaN for a NaN only. *)
Lemma ieee_roundf_cases (a : IEEE.float) :
  IEEE.is_nan a = false ->
  IEEE.integer_or_infinite (IEEE.roundf a)
  /\ (IEEE.is_finite a = true -> IEEE.integer_valued (IEEE.roundf a)).
Proof.
  destruct a; intros Hn; try discriminate Hn; cbn [IEEE.roundf]; split;
    try discriminate.
  - left. eexists. reflexivity.
  - intros _. eexists. reflexivity.
  - right. left. reflexivity.
  - right. right. reflexivity.
Qed.

(** A loop that goes over the channels of an array and stores the new
    value of a channel when it passes the 0.5 gate. *)
Section GatedLoop.
Variable new : nat -> IEEE.float.
Variable body : nat -> IEEE.sampling -> IEEE.sampling * list event.

Hypothesis body_array :
  forall i x,
    fst (fst (fst (body i x)))
    = if IEEE.check_for_change (IEEE.elem (fst (fst x)) i) (new i) 0.5
      then <[i := new i]> (fst (fst x)) else fst (fst x).

Lemma gated_loop :
  forall n first x,
    let r := fst (fst (fst (for_loop body first n x))) in
    length r = length (fst (fst x))
    /\ (forall j, (j < first \/ first + n <= j)%nat -> r !! j = fst (fst x) !! j)
    /\ (forall i, (first <= i < first + n)%nat -> (i < length (fst (fst x)))%nat ->
          IEEE.elem r i
          = if IEEE.check_for_change (IEEE.elem (fst (fst x)) i) (new i) 0.5
            then new i else IEEE.elem (fst (fst x)) i).
Proof.
  induction n as [|n IH]; intros first x; cbv zeta.
  - cbn [for_loop fst]. split; [reflexivity|]. split; [reflexivity | intros; lia].
  - cbn [for_loop]. pose proof (body_array first x) as Hb.
    destruct (body first x) as [x1 tr1]. cbn [fst] in Hb.
    specialize (IH (S first) x1). cbv zeta in IH.
    destruct (for_loop body (S first) n x1) as [x2 tr2]. cbn [fst] in *.
    destruct IH as (Hlen & Hframe & Hin).
    assert (Hlen1 : length (fst (fst x1)) = length (fst (fst x))).
    { rewrite Hb. destruct (IEEE.check_for_change _ _ _);
        [apply length_insert | reflexivity]. }
    assert (Hframe1 : forall j, j <> first -> fst (fst x1) !! j = fst (fst x) !! j).
    { intros j Hj. rewrite Hb. destruct (IEEE.check_for_change _ _ _);
        [apply list_lookup_insert_ne; congruence | reflexivity]. }
    split; [congruence|]. split.
    + intros j Hj. rewrite Hframe by lia. apply Hframe1. lia.
    + intros i Hi Hlt. destruct (decide (i = first)) as [-> | Hne].
      * rewrite (ieee_elem_lookup _ _ first (Hframe first ltac:(lia))), Hb.
        destruct (IEEE.check_for_change _ _ _); [|reflexivity].
        apply ieee_elem_insert_eq, Hlt.
      * rewrite Hin by lia.
        rewrite (ieee_elem_lookup _ _ i (Hframe1 i Hne)). reflexivity.
Qed.

(** The array after the loop depends on the array before it only. *)
Lemma gated_loop_array_only :
  forall n first x y,
    fst (fst x) = fst (fst y) ->
    fst (fst (fst (for_loop body first n x)))
    = fst (fst (fst (for_loop body first n y))).
Proof.
  induction n as [|n IH]; intros first x y Hxy; cbn [for_loop]; [exact Hxy|].
  pose proof (body_array first x) as Hbx. pose proof (body_array first y) as Hby.
  destruct (body first x) as [x1 trx]. destruct (body first y) as [y1 try1].
  cbn [fst] in Hbx, Hby.
  assert (H1 : fst (fst x1) = fst (fst y1)) by (rewrite Hbx, Hby, Hxy; reflexivity).
  specialize (IH (S first) x1 y1 H1).
  destruct (for_loop body (S first) n x1) as [x2 trx2].
  destruct (for_loop body (S first) n y1) as [y2 try2]. exact IH.
Qed.

(** What holds of every element before the loop, and of every new value
    that passes its gate, holds of every element after it. *)
Lemma gated_loop_invariant (P : IEEE.float -> Prop) :
  (forall i old, IEEE.check_for_change old (new i) 0.5 = true -> P (new i)) ->
  forall n first x,
    Forall P (fst (fst x)) ->
    Forall P (fst (fst (fst (for_loop body first n x)))).
Proof.
  intros Hnew. induction n as [|n IH]; intros first x Hx; cbn [for_loop]; [exact Hx|].
  pose proof (body_array first x) as Hb.
  destruct (body first x) as [x1 tr1]. cbn [fst] in Hb.
  assert (H1 : Forall P (fst (fst x1))).
  { rewrite Hb. destruct (IEEE.check_for_change _ _ _) eqn:Hgate; [|exact Hx].
    apply Forall_insert; [exact Hx | exact (Hnew first _ Hgate)]. }
  specialize (IH (S first) x1 H1).
  destruct (for_loop body (S first) n x1) as [x2 tr2]. exact IH.
Qed.

End GatedLoop.

Section IEEESampling.
Context `{Board}.
Variable calculate_pwm_duty : fanpico_state -> fanpico_config -> nat -> Q.
Variable calculate_tacho_freq : fanpico_state -> fanpico_config -> nat -> Q.
Variable cfg : fanpico_config.

Local Abbreviation iter := (iteration calculate_pwm_duty calculate_tacho_freq cfg).
Local Abbreviation sched := (scheduler calculate_pwm_duty calculate_tacho_freq cfg).
Local Abbreviation run := (main calculate_pwm_duty calculate_tacho_freq cfg).
Local Abbreviation due_samples :=
  (due_duty_samples calculate_pwm_duty calculate_tacho_freq cfg).

Lemma ieee_read_pwm_input_array (samples : list IEEE.float) (i : nat)
    (x : IEEE.sampling) :
  fst (fst (fst (IEEE.read_pwm_input samples i x)))
  = if IEEE.check_for_change (IEEE.elem (fst (fst x)) i)
         (IEEE.roundf (IEEE.elem samples i)) 0.5
    then <[i := IEEE.roundf (IEEE.elem samples i)]> (fst (fst x)) else fst (fst x).
Proof.
  destruct x as [[a t] c]. unfold IEEE.read_pwm_input. cbn [fst].
  destruct (IEEE.check_for_change _ _ _); reflexivity.
Qed.

Lemma ieee_read_temperature_array (readings : nat -> IEEE.float) (i : nat)
    (x : IEEE.sampling) :
  fst (fst (fst (IEEE.read_temperature readings i x)))
  = if IEEE.check_for_change (IEEE.elem (fst (fst x)) i) (readings i) 0.5
    then <[i := readings i]> (fst (fst x)) else fst (fst x).
Proof.
  destruct x as [[a t] c]. unfold IEEE.read_temperature. cbn [fst].
  destruct (IEEE.check_for_change _ _ _); reflexivity.
Qed.

(** On finite values the loop over IEEE values is the duty-cycle loop of
    the model: same array, same timer, same counter, same messages. *)
Lemma read_pwm_loop_refines (e : env) :
  forall n first s t c,
    let r := for_loop (read_pwm_input e) first n (s, t, c) in
    for_loop (IEEE.read_pwm_input (IEEE.finite <$> mbfan_pwm_duty e)) first n
             (IEEE.finite <$> mbfan_duty s, t, c)
    = ((IEEE.finite <$> mbfan_duty (fst (fst (fst r))), snd (fst (fst r)),
        snd (fst r)), snd r).
Proof.
  induction n as [|n IH]; intros first s t c; cbv zeta; [reflexivity|].
  cbn [for_loop]. rewrite read_pwm_input_step. unfold IEEE.read_pwm_input.
  rewrite !ieee_elem_finite. cbn [IEEE.roundf]. rewrite ieee_check_finite.
  fold (duty_gate e s first).
  destruct (duty_gate e s first).
  - rewrite <- list_fmap_insert.
    change (<[first:=roundf (elem (mbfan_pwm_duty e) first)]> (mbfan_duty s))
      with (mbfan_duty (set_mbfan_duty first
                          (roundf (elem (mbfan_pwm_duty e) first)) s)).
    rewrite IH. cbv zeta.
    destruct (for_loop (read_pwm_input e) (S first) n _) as [[[s2 t2] c2] tr2].
    reflexivity.
  - rewrite IH. cbv zeta.
    destruct (for_loop (read_pwm_input e) (S first) n _) as [[[s2 t2] c2] tr2].
    reflexivity.
Qed.

(** Over one iteration the duty array of the model follows the IEEE
    duty-cycle task when that task is due, and stays otherwise. *)
Lemma iteration_duty_refines (e : env) (m : main_locals) :
  IEEE.finite <$> mbfan_duty (st (fst (iter e m)))
  = if fst (time_passed (t_poll_pwm m) 1500 (clock_pwm e))
    then IEEE.duty_task (IEEE.finite <$> mbfan_pwm_duty e)
                        (IEEE.finite <$> mbfan_duty (st m))
    else IEEE.finite <$> mbfan_duty (st m).
Proof.
  destruct (iteration_samples calculate_pwm_duty calculate_tacho_freq cfg e m)
    as [-> _].
  unfold sampled.
  assert (Htemp : forall x1 : sampling,
             mbfan_duty (fst (fst (if fst (time_passed (t_temp m) 10000 (clock_temp e))
                                   then fst (for_loop (read_temperature e) 0
                                               SENSOR_COUNT x1)
                                   else x1)))
             = mbfan_duty (fst (fst x1))).
  { intros [[s1 t1] c1].
    destruct (fst (time_passed (t_temp m) 10000 (clock_temp e))); [|reflexivity].
    pose proof (read_temperature_loop e SENSOR_COUNT 0 s1 t1 c1) as Hl.
    cbv zeta in Hl. apply Hl. }
  rewrite Htemp.
  destruct (fst (time_passed (t_poll_pwm m) 1500 (clock_pwm e))); [|reflexivity].
  unfold IEEE.duty_task.
  rewrite (gated_loop_array_only _ _
             (ieee_read_pwm_input_array (IEEE.finite <$> mbfan_pwm_duty e))
             MBFAN_COUNT 0%nat
             (IEEE.finite <$> mbfan_duty (st m), 0, 0)
             (IEEE.finite <$> mbfan_duty (st m), t_set_outputs m, 0) eq_refl).
  rewrite (read_pwm_loop_refines e MBFAN_COUNT 0 (st m) (t_set_outputs m) 0).
  reflexivity.
Qed.

Lemma scheduler_duty_refines (es : list env) :
  forall m,
    IEEE.finite <$> mbfan_duty (st (fst (sched es m)))
    = IEEE.duty_rounds (map (fmap IEEE.finite) (due_samples es m))
                       (IEEE.finite <$> mbfan_duty (st m)).
Proof.
  induction es as [|e es IH]; intros m; cbn [scheduler due_duty_samples];
    [reflexivity|].
  pose proof (iteration_duty_refines e m) as Hstep.
  specialize (IH (fst (iter e m))).
  destruct (iter e m) as [m1 tr1]. cbn [fst] in *.
  destruct (sched es m1) as [m2 tr2]. cbn [fst] in *.
  rewrite IH, Hstep.
  destruct (fst (time_passed (t_poll_pwm m) 1500 (clock_pwm e))); reflexivity.
Qed.

(** The duty-cycle task stores whole numbers and infinities only, and
    whole numbers only when every sample is finite. *)
Lemma duty_task_integer_or_infinite (samples duty : list IEEE.float) :
  (Forall IEEE.integer_or_infinite duty ->
   Forall IEEE.integer_or_infinite (IEEE.duty_task samples duty))
  /\ (Forall (fun a => IEEE.is_finite a = true) samples ->
      Forall IEEE.integer_valued duty ->
      Forall IEEE.integer_valued (IEEE.duty_task samples duty)).
Proof.
  unfold IEEE.duty_task. split.
  - intros Hd.
    apply (gated_loop_invariant _ _ (ieee_read_pwm_input_array samples));
      [|exact Hd].
    intros i old Hgate. apply ieee_roundf_cases.
    destruct (IEEE.roundf (IEEE.elem samples i)) eqn:Er;
      destruct (IEEE.elem samples i); try discriminate Er; try reflexivity.
    rewrite (proj1 (ieee_gate_nan old 0.5)) in Hgate. discriminate Hgate.
  - intros Hs Hd.
    apply (gated_loop_invariant _ _ (ieee_read_pwm_input_array samples));
      [|exact Hd].
    intros i old _.
    assert (Hfin : IEEE.is_finite (IEEE.elem samples i) = true).
    { unfold IEEE.elem. rewrite nth_lookup.
      destruct (samples !! i) as [a|] eqn:Ea; [|reflexivity].
      exact (proj1 (Forall_lookup _ _) Hs i a Ea). }
    destruct (IEEE.elem samples i); try discriminate Hfin.
    eexists. reflexivity.
Qed.

Lemma duty_rounds_integer_or_infinite (rounds : list (list IEEE.float)) :
  forall duty,
    (Forall IEEE.integer_or_infinite duty ->
     Forall IEEE.integer_or_infinite (IEEE.duty_rounds rounds duty))
    /\ (Forall (Forall (fun a => IEEE.is_finite a = true)) rounds ->
        Forall IEEE.integer_valued duty ->
        Forall IEEE.integer_valued (IEEE.duty_rounds rounds duty)).
Proof.
  induction rounds as [|samples rounds IH]; intros duty; cbn [IEEE.duty_rounds].
  - split; intros; assumption.
  - destruct (duty_task_integer_or_infinite samples duty) as [H1 H2].
    destruct (IH (IEEE.duty_task samples duty)) as [IH1 IH2]. split.
    + intros Hd. apply IH1, H1, Hd.
    + intros Hs Hd. apply Forall_cons in Hs as [Hs Hrest].
      apply IH2; [exact Hrest | apply H2; assumption].
Qed.

(** C10: the elements of [mbfan_duty] are whole numbers as long as the
    samples are finite, and whole numbers or infinities in general.  In
    every run of [main] of the model, where samples are rationals, all
    elements are integers, and the array is the one the duty-cycle task
    over IEEE values computes from the samples of the iterations in which
    it is due.  That task, started on the zeros of [clear_state] and run
    on any samples, leaves whole numbers and infinities: [roundf] of an
    infinite sample is that infinity and is stored, a NaN sample is never
    stored.  With finite samples it leaves whole numbers only.
    [update_outputs] does not write the array. *)
Theorem mbfan_duty_integer_or_infinite (b : boot_env) (es : list env)
    (rounds : list (list IEEE.float)) :
  Forall integer_valued (mbfan_duty (st (fst (run b es))))
  /\ IEEE.finite <$> mbfan_duty (st (fst (run b es)))
     = IEEE.duty_rounds (map (fmap IEEE.finite) (due_samples es (fst (boot b))))
                        (replicate MBFAN_MAX_COUNT (IEEE.finite 0))
  /\ Forall IEEE.integer_or_infinite
            (IEEE.duty_rounds rounds (replicate MBFAN_MAX_COUNT (IEEE.finite 0)))
  /\ (Forall (Forall (fun a => IEEE.is_finite a = true)) rounds ->
      Forall IEEE.integer_valued
             (IEEE.duty_rounds rounds (replicate MBFAN_MAX_COUNT (IEEE.finite 0))))
  /\ (forall s config,
        mbfan_duty (fst (update_outputs calculate_pwm_duty calculate_tacho_freq
                           s config)) = mbfan_duty s).
Proof.
  destruct (run_duty_integer_valued calculate_pwm_duty calculate_tacho_freq cfg b es)
    as (Hboot & _ & Hupd & Hint).
  assert (Hzero : Forall IEEE.integer_valued
                         (replicate MBFAN_MAX_COUNT (IEEE.finite 0))).
  { apply Forall_replicate. exists 0. reflexivity. }
  destruct (duty_rounds_integer_or_infinite rounds
              (replicate MBFAN_MAX_COUNT (IEEE.finite 0))) as [Hany Hfin].
  split; [exact Hint|]. split; [|split; [|split; [|exact Hupd]]].
  - destruct (main_trace calculate_pwm_duty calculate_tacho_freq cfg b es) as [_ ->].
    rewrite scheduler_duty_refines, Hboot, fmap_replicate. reflexivity.
  - apply Hany. eapply Forall_impl; [exact Hzero|]. intros a Ha. left. exact Ha.
  - intros Hs. apply Hfin; assumption.
Qed.

(** X19: sampling leaves no change pending, whatever the samples are.
    After the duty-cycle task no channel passes its gate against the
    rounded sample it was just compared with, and after the temperature
    task no sensor passes its gate against its reading: a finite reading
    is within 0.5 of the stored finite value, and a reading that is not a
    number leaves the stored value as it was. *)
Theorem sampling_leaves_no_pending_change (samples : list IEEE.float)
    (readings : nat -> IEEE.float) (duty temps : list IEEE.float) :
  (MBFAN_COUNT <= length duty)%nat ->
  (SENSOR_COUNT <= length temps)%nat ->
  let duty' := IEEE.duty_task samples duty in
  let temps' := IEEE.temperature_task readings temps in
  (forall i, (i < MBFAN_COUNT)%nat ->
     IEEE.check_for_change (IEEE.elem duty' i)
       (IEEE.roundf (IEEE.elem samples i)) 0.5 = false)
  /\ (forall i, (i < SENSOR_COUNT)%nat ->
        IEEE.check_for_change (IEEE.elem temps' i) (readings i) 0.5 = false)
  /\ (forall i x y, (i < SENSOR_COUNT)%nat ->
        readings i = IEEE.finite x -> IEEE.elem temps' i = IEEE.finite y ->
        (Qabs (x - y) < 0.5)%Q)
  /\ (forall i, (i < SENSOR_COUNT)%nat ->
        readings i = IEEE.NaN -> IEEE.elem temps' i = IEEE.elem temps i).
Proof.
  intros Hld Hlt. cbv zeta. unfold IEEE.duty_task, IEEE.temperature_task.
  destruct (gated_loop _ _ (ieee_read_pwm_input_array samples)
              MBFAN_COUNT 0%nat (duty, 0, 0)) as (_ & _ & Hduty).
  destruct (gated_loop _ _ (ieee_read_temperature_array readings)
              SENSOR_COUNT 0%nat (temps, 0, 0)) as (_ & _ & Htemp).
  cbn [fst] in Hduty, Htemp.
  assert (Hsensor : forall i, (i < SENSOR_COUNT)%nat ->
            IEEE.check_for_change
              (IEEE.elem (fst (fst (fst (for_loop (IEEE.read_temperature readings)
                                           0 SENSOR_COUNT (temps, 0, 0))))) i)
              (readings i) 0.5 = false).
  { intros i Hi. rewrite Htemp by lia.
    destruct (IEEE.check_for_change (IEEE.elem temps i) (readings i) 0.5) eqn:Hgate;
      [apply ieee_gate_after_store | exact Hgate]. }
  split; [|split; [exact Hsensor | split]].
  - intros i Hi. rewrite Hduty by lia.
    destruct (IEEE.check_for_change (IEEE.elem duty i) _ 0.5) eqn:Hgate;
      [apply ieee_gate_after_store | exact Hgate].
  - intros i x y Hi Hx Hy. specialize (Hsensor i Hi).
    rewrite Hx, Hy, ieee_check_finite in Hsensor.
    apply gate_closed, Hsensor.
  - intros i Hi Hnan. rewrite Htemp by lia.
    rewrite Hnan, (proj1 (ieee_gate_nan _ 0.5)). reflexivity.
Qed.

(** X20: the 0.5 gate never holds back a duty cycle.  On an array of
    whole numbers and infinities, as [mbfan_duty] is, the duty-cycle task
    leaves in every channel exactly the rounded sample, infinite samples
    included; only a sample that is not a number is not stored, and the
    channel then keeps what it held. *)
Theorem duty_state_is_rounded_sample (samples duty : list IEEE.float) (i : nat) :
  (MBFAN_COUNT <= length duty)%nat ->
  Forall IEEE.integer_or_infinite duty ->
  (i < MBFAN_COUNT)%nat ->
  IEEE.elem (IEEE.duty_task samples duty) i
  = if IEEE.is_nan (IEEE.elem samples i) then IEEE.elem duty i
    else IEEE.roundf (IEEE.elem samples i).
Proof.
  intros Hlen Hint Hi. unfold IEEE.duty_task.
  destruct (gated_loop _ _ (ieee_read_pwm_input_array samples)
              MBFAN_COUNT 0%nat (duty, 0, 0)) as (_ & _ & Hduty).
  cbn [fst] in Hduty. rewrite Hduty by lia.
  destruct (lookup_lt_is_Some_2 duty i ltac:(lia)) as [old Hold].
  rewrite (ieee_elem_some _ _ _ Hold).
  pose proof (proj1 (Forall_lookup _ _) Hint i old Hold) as Hcase.
  destruct (IEEE.elem samples i) as [x| | |]; cbn [IEEE.is_nan IEEE.roundf].
  - destruct (IEEE.check_for_change old (IEEE.finite (roundf x)) 0.5) eqn:Hgate;
      [reflexivity|].
    destruct Hcase as [[z ->] | [-> | ->]]; try discriminate Hgate.
    destruct (roundf_integer_valued x) as [z' Hz']. rewrite Hz' in *.
    rewrite ieee_check_finite in Hgate. apply gate_closed in Hgate.
    rewrite (integers_within_half z z' Hgate). reflexivity.
  - destruct (IEEE.check_for_change old IEEE.pos_inf 0.5) eqn:Hgate; [reflexivity|].
    destruct Hcase as [[z ->] | [-> | ->]]; try discriminate Hgate. reflexivity.
  - destruct (IEEE.check_for_change old IEEE.neg_inf 0.5) eqn:Hgate; [reflexivity|].
    destruct Hcase as [[z ->] | [-> | ->]]; try discriminate Hgate. reflexivity.
  - rewrite (proj1 (ieee_gate_nan old 0.5)). reflexivity.
Qed.

End IEEESampling.

(** The claim of C10 as it stands fails for an infinite sample: one round
    of the duty-cycle task on the zeroed array of the board [board_0804],
    with a first channel that reads +Inf, stores +Inf there, which is no
    whole number. *)
Lemma infinite_sample_is_stored :
  @IEEE.duty_rounds Examples.board_0804 [[IEEE.pos_inf]]
    (replicate 4 (IEEE.finite 0))
  = [IEEE.pos_inf; IEEE.finite 0; IEEE.finite 0; IEEE.finite 0]
  /\ ~ Forall IEEE.integer_valued
         (@IEEE.duty_rounds Examples.board_0804 [[IEEE.pos_inf]]
            (replicate 4 (IEEE.finite 0))).
Proof.
  assert (Hrun : @IEEE.duty_rounds Examples.board_0804 [[IEEE.pos_inf]]
                   (replicate 4 (IEEE.finite 0))
                 = [IEEE.pos_inf; IEEE.finite 0; IEEE.finite 0; IEEE.finite 0])
    by (vm_compute; reflexivity).
  split; [exact Hrun|]. rewrite Hrun. intros Hall.
  apply Forall_cons in Hall as [[z Hz] _]. discriminate Hz.
Qed.

(** The theorem on pending changes for the board [board_0804] with an
    infinity and a NaN among the samples and the readings. *)
Lemma sampling_leaves_no_pending_change_witness :
  let duty' := @IEEE.duty_task Examples.board_0804 MoreExamples.samples_odd
                 MoreExamples.duty_some in
  let temps' := @IEEE.temperature_task Examples.board_0804
                  MoreExamples.readings_odd MoreExamples.temp_some in
  (forall i, (i < 4)%nat ->
     IEEE.check_for_change (IEEE.elem duty' i)
       (IEEE.roundf (IEEE.elem MoreExamples.samples_odd i)) 0.5 = false)
  /\ (forall i, (i < 3)%nat ->
        IEEE.check_for_change (IEEE.elem temps' i)
          (MoreExamples.readings_odd i) 0.5 = false)
  /\ (forall i x y, (i < 3)%nat ->
        MoreExamples.readings_odd i = IEEE.finite x ->
        IEEE.elem temps' i = IEEE.finite y ->
        (Qabs (x - y) < 0.5)%Q)
  /\ (forall i, (i < 3)%nat ->
        MoreExamples.readings_odd i = IEEE.NaN ->
        IEEE.elem temps' i = IEEE.elem MoreExamples.temp_some i).
Proof.
  apply (@sampling_leaves_no_pending_change Examples.board_0804
           MoreExamples.samples_odd MoreExamples.readings_odd
           MoreExamples.duty_some MoreExamples.temp_some);
    cbn; lia.
Defined.

(** The theorem on rounded samples for the second channel of that board,
    whose sample is +Inf: the channel ends at +Inf. *)
Lemma duty_state_is_rounded_sample_witness :
  IEEE.elem (@IEEE.duty_task Examples.board_0804 MoreExamples.samples_odd
               MoreExamples.duty_some) 1
  = if IEEE.is_nan (IEEE.elem MoreExamples.samples_odd 1)
    then IEEE.elem MoreExamples.duty_some 1
    else IEEE.roundf (IEEE.elem MoreExamples.samples_odd 1).
Proof.
  apply (@duty_state_is_rounded_sample Examples.board_0804
           MoreExamples.samples_odd MoreExamples.duty_some 1).
  - cbn. lia.
  - unfold MoreExamples.duty_some.
    repeat (apply List.Forall_cons;
            [first [left; exists 40; reflexivity | right; left; reflexivity]|]).
    apply List.Forall_nil.
  - cbn. lia.
Defined.
